(** * SCQL broker: query runner and garbage-collection loops

    A shallow embedding of [pkg/broker/executor/query_runner.go] (the
    [QueryRunner]: checksums, job-info exchange, preparation, executor
    construction) and of the two background loops [StorageGc] and
    [SessionGc] of package [application], followed by the properties the
    design document states about them.

    Go values are modelled as follows.  A [string] is a byte string; a
    slice is a [list] (nil and empty are both [[]]); [int] and [int32] are
    [Z]; a pointer that may be nil is an [option]; a Go map is a [gmap];
    an object whose methods live in another package is a record of
    functions; a function returning [(v, error)] returns a [result], or an
    [ext] when it belongs to a collaborator. *)

From Stdlib Require Import ZArith List Ascii String.
From Stdlib.Strings Require Import Byte.
From stdpp Require Import base list strings gmap sorting.

Open Scope Z_scope.

(** ** crypto/sha256

    The hash of FIPS 180-4 on byte strings; 32-bit words are [Z] reduced
    modulo [2^32]. *)
Module Sha256.

Definition w32 (x : Z) : Z := x mod 2 ^ 32.

Definition rotr (n x : Z) : Z :=
  Z.lor (Z.shiftr x n) (w32 (Z.shiftl x (32 - n))).

Definition Ch (x y z : Z) : Z :=
  Z.lxor (Z.land x y) (Z.land (Z.lxor x (2 ^ 32 - 1)) z).
Definition Maj (x y z : Z) : Z :=
  Z.lxor (Z.lxor (Z.land x y) (Z.land x z)) (Z.land y z).
Definition Sigma0 (x : Z) : Z :=
  Z.lxor (Z.lxor (rotr 2 x) (rotr 13 x)) (rotr 22 x).
Definition Sigma1 (x : Z) : Z :=
  Z.lxor (Z.lxor (rotr 6 x) (rotr 11 x)) (rotr 25 x).
Definition sigma0 (x : Z) : Z :=
  Z.lxor (Z.lxor (rotr 7 x) (rotr 18 x)) (Z.shiftr x 3).
Definition sigma1 (x : Z) : Z :=
  Z.lxor (Z.lxor (rotr 17 x) (rotr 19 x)) (Z.shiftr x 10).

(** The constants are the first 32 bits of the fractional parts of the
    cube roots (for [K]) and of the square roots (for [H0]) of the first
    primes. *)
Definition is_prime (n : Z) : bool :=
  forallb (λ d, negb (n mod d =? 0))
          (Z.of_nat <$> seq 2 (Z.to_nat (Z.sqrt n) - 1)).

Definition primes : list Z :=
  List.filter is_prime (Z.of_nat <$> seq 2 310).

(** The integer cube root of [x], found bit by bit from bit [n - 1]
    down. *)
Fixpoint cbrt_bits (n : nat) (x acc : Z) : Z :=
  match n with
  | O => acc
  | S n' =>
      let cand := acc + 2 ^ Z.of_nat n' in
      if cand * cand * cand <=? x then cbrt_bits n' x cand
      else cbrt_bits n' x acc
  end.

Definition K : list Z :=
  Eval vm_compute in
    (λ p, w32 (cbrt_bits 36 (p * 2 ^ 96) 0)) <$> take 64 primes.

Definition H0 : list Z :=
  Eval vm_compute in
    (λ p, w32 (Z.sqrt (p * 2 ^ 64))) <$> take 8 primes.

(** Big-endian encoding of [x] on [n] bytes. *)
Fixpoint be_bytes (n : nat) (x : Z) : list Z :=
  match n with
  | O => []
  | S n' => be_bytes n' (Z.shiftr x 8) ++ [x mod 256]
  end.

Definition pad (msg : list Z) : list Z :=
  let len := Z.of_nat (length msg) in
  let zeros := Z.to_nat ((55 - len) mod 64) in
  msg ++ [0x80] ++ replicate zeros 0 ++ be_bytes 8 (len * 8).

Fixpoint be_words (n : nat) (bs : list Z) : list Z :=
  match n, bs with
  | S n', b0 :: b1 :: b2 :: b3 :: bs' =>
      (b0 * 2 ^ 24 + b1 * 2 ^ 16 + b2 * 2 ^ 8 + b3) :: be_words n' bs'
  | _, _ => []
  end.

(** The message schedule, newest word first: [rw] holds
    [W(t-1), W(t-2), ...]. *)
Fixpoint schedule (n : nat) (rw : list Z) : list Z :=
  match n with
  | O => rw
  | S n' =>
      let w := w32 (sigma1 (nth 1 rw 0) + nth 6 rw 0
                    + sigma0 (nth 14 rw 0) + nth 15 rw 0) in
      schedule n' (w :: rw)
  end.

Definition round (st : list Z) (kw : Z * Z) : list Z :=
  match st with
  | [a; b; c; d; e; f; g; h] =>
      let t1 := h + Sigma1 e + Ch e f g + kw.1 + kw.2 in
      let t2 := Sigma0 a + Maj a b c in
      [w32 (t1 + t2); a; b; c; w32 (d + t1); e; f; g]
  | _ => st
  end.

Definition compress (h : list Z) (block : list Z) : list Z :=
  let w := rev (schedule 48 (rev (be_words 16 block))) in
  let st := fold_left round (combine K w) h in
  zip_with (λ x y, w32 (x + y)) h st.

Fixpoint blocks (n : nat) (h : list Z) (bs : list Z) : list Z :=
  match n with
  | O => h
  | S n' =>
      match bs with
      | [] => h
      | _ => blocks n' (compress h (take 64 bs)) (drop 64 bs)
      end
  end.

Definition to_byte (z : Z) : Byte.byte :=
  default Byte.x00 (Byte.of_N (Z.to_N z)).
Definition of_byte (b : Byte.byte) : Z := Z.of_N (Byte.to_N b).

(** [sha256.Sum256], on the bytes of a string. *)
Definition sum (msg : string) : list Byte.byte :=
  let bs := pad (of_byte <$> list_byte_of_string msg) in
  to_byte <$> concat (be_bytes 4 <$> blocks (length bs) H0 bs).

End Sha256.

(** ** Protocol buffer messages (package pb)

    Only the fields the runner reads or writes.  Payloads the runner merely
    forwards (runtime configuration, execution graphs, options) are kept as
    byte strings. *)
Module pb.

Record PartyId := { Code : string }.

Record Checksum := { TableSchema : list Byte.byte; Ccl : list Byte.byte }.

Record Status := { StatusCode : Z; Message : string }.

Record ExchangeJobInfoRequest := {
  ProjectId : string;
  JobId : string;
  ClientId : option PartyId;
  ServerChecksum : option Checksum }.

Record ExchangeJobInfoResponse := {
  RespStatus : option Status;
  ExpectedServerChecksum : option Checksum }.

(** The generated getters are nil-safe: a nil message yields the zero
    value of the field. *)
Definition GetStatus (r : ExchangeJobInfoResponse) : option Status :=
  RespStatus r.
Definition GetCode (s : option Status) : Z :=
  match s with Some st => StatusCode st | None => 0 end.

Record SecurityConfig_ColumnControl := {
  PartyCode : string;
  Visibility : Z;
  DatabaseName : string;
  TableName : string;
  ColumnName : string }.

Record ColumnDesc := { Name : string }.
Record TableSchema_ := { Columns : list ColumnDesc }.

Definition GetColumns (s : option TableSchema_) : list ColumnDesc :=
  match s with Some sc => Columns sc | None => [] end.

Record CompiledPlan := {
  Parties : list PartyId;
  SubGraphs : gmap string string;
  SpuRuntimeConf : string;
  Schema : option TableSchema_;
  MayAffectedByGroupThreshold : bool }.

Record SessionStartParams_Party := {
  PCode : string;
  PName : string;
  Rank : Z;
  Host : string;
  PublicKey : string }.

Record SessionStartParams := {
  SPartyCode : string;
  SessionId : string;
  SpuRuntimeCfg : string;
  SParties : list SessionStartParams_Party }.

Record RunExecutionPlanRequest := {
  SessionParams : SessionStartParams;
  Graph : string;
  Async : bool;
  DebugOpts : string }.

(** The numbers of the two status codes the runner names.  The enum is
    declared in the protocol definition, which is not part of this
    file's sources. *)
Class Codes := {
  Code_SESSION_NOT_FOUND : Z;
  Code_DATA_INCONSISTENCY : Z }.

End pb.

(** ** Errors and results

    A collaborator (the metadata store, the party manager, a peer broker,
    a helper of another package) fails with a message of its own; the
    errors the runner makes itself are the other constructors. *)

Inductive ext (A : Type) :=
  | Got (a : A)
  | Failed (msg : string).
Arguments Got {A} a.
Arguments Failed {A} msg.

Inductive error :=
  | ErrExternal (msg : string)
      (** an error handed back by a collaborator, passed on as it is *)
  | ErrNilDereference
      (** a method called through a nil pointer or nil interface *)
  | ErrLocalChecksum (cause : error)
      (** "ExchangeJobInfo: %s" *)
  | ErrExchangeStub (cause : error)
      (** "ExchangeJobInfoStub: %v" *)
  | ErrResponse (target : string) (response : pb.ExchangeJobInfoResponse)
      (** "err response from party %s; response %+v" *)
  | ErrExchangeFailed (target : string) (status : pb.Status)
      (** "failed to exchange job info with %s return error %+v" *)
  | ErrTableNotFound (notFoundTables : list string)
      (** "prepareData: table %+v not found" *)
  | ErrNoGraph
      (** "could not find my graph" *).

Inductive result (A : Type) :=
  | Ok (a : A)
  | Err (e : error).
Arguments Ok {A} a.
Arguments Err {A} e.

Definition is_ok {A} (r : result A) : bool :=
  match r with Ok _ => true | Err _ => false end.

(** The conversion [int32(i)] of an [int]: the low 32 bits, read as a
    signed number. *)
Definition int32 (i : Z) : Z := (i + 2 ^ 31) mod 2 ^ 32 - 2 ^ 31.

(** ** Library functions on slices and strings *)

(** Go compares strings with [<] byte by byte. *)
Definition str_lt (a b : string) : bool := String.ltb a b.

(** [strings.Join(elems, sep)]. *)
Fixpoint Join (elems : list string) (sep : string) : string :=
  match elems with
  | [] => ""
  | [e] => e
  | e :: rest => e +:+ sep +:+ Join rest sep
  end.

Module sort.

(** The inner loop of the library's insertion sort, on the reversed
    sorted prefix: the new element [x] moves left past [y] while
    [less x y]. *)
Fixpoint insert {A} (less : A → A → bool) (x : A) (rprefix : list A)
  : list A :=
  match rprefix with
  | [] => [x]
  | y :: rest =>
      if less x y then y :: insert less x rest else x :: y :: rest
  end.

(** [sort.Slice(x, less)].  This is the insertion sort the library runs
    on slices of at most 12 elements.  On longer slices the library
    switches to a quicksort variant, which returns the same slice
    whenever no two elements compare equal; its order among elements
    that compare equal is not modelled. *)
Definition Slice {A} (less : A → A → bool) (x : list A) : list A :=
  rev (fold_left (λ rprefix e, insert less e rprefix) x []).

End sort.

Module sliceutil.

(** The strings of [s] in ascending byte order. *)
Definition ascending (s : list string) : list string := sort.Slice str_lt s.

(** Every run of equal neighbours reduced to a single copy. *)
Fixpoint compact (s : list string) : list string :=
  match s with
  | [] => []
  | x :: rest =>
      match rest with
      | [] => [x]
      | y :: _ => if decide (x = y) then compact rest else x :: compact rest
      end
  end.

(** Modelled from the spec: [sliceutil.SliceDeDup] is not part of the
    sources at hand.  The call site says "SliceDeDup sort parties and
    compact" and the design names the result a deduplicated, sorted set:
    the strings are sorted and then compacted.  The result is taken to be
    a slice of its own, sharing no storage with the argument. *)
Definition SliceDeDup (s : list string) : list string :=
  compact (ascending s).

(** Modelled from the spec: [sliceutil.Subtraction] is not part of the
    sources at hand; "party list minus self". *)
Definition Subtraction (a b : list string) : list string :=
  filter (λ x, x ∉ b) a.

End sliceutil.

(** ** Metadata storage records (package storage) *)
Module storage.

Record Table := {
  ProjectID : string;
  TableName : string;
  Owner : string;
  RefTable : string;
  DBType : string }.

Record ColumnMeta := { ColumnName : string; DType : string }.

Record TableMeta := { Table_ : Table; Columns : list ColumnMeta }.

Record ColumnPriv := {
  PrivProjectID : string;
  PrivTableName : string;
  PrivColumnName : string;
  DestParty : string;
  Priv : string }.

End storage.

(** ** Planner tables (package core) *)
Module core.

Record DbTable := { dbName : string; tableName : string; dbType : Z }.

Definition NewDbTable (db table : string) : DbTable :=
  {| dbName := db; tableName := table; dbType := 0 |}.
Definition GetDbName (t : DbTable) : string := dbName t.
Definition GetTableName (t : DbTable) : string := tableName t.
Definition SetDBType (t : DbTable) (ty : Z) : DbTable :=
  {| dbName := dbName t; tableName := tableName t; dbType := ty |}.

#[global] Instance DbTable_eq_dec : EqDecision DbTable.
Proof. solve_decision. Defined.

#[global] Instance DbTable_countable : Countable DbTable :=
  inj_countable'
    (λ t, (dbName t, tableName t, dbType t))
    (λ p, {| dbName := p.1.1; tableName := p.1.2; dbType := p.2 |})
    (λ t, match t with Build_DbTable _ _ _ => eq_refl end).

End core.

(** ** Schema model (packages model and infoschema) *)
Module model.

(** A case-insensitive identifier.  [String()] gives back the text it
    was made from; the case-folded form is read only inside package
    infoschema. *)
Record CIStr := { O : string }.
Definition NewCIStr (s : string) : CIStr := {| O := s |}.
Definition CIStr_String (c : CIStr) : string := O c.

Record ColumnInfo := {
  ID : Z;
  Name : CIStr;
  Offset : Z;
  DefaultValue : string;
  FieldType : string }.

Record TableInfo := {
  TblID : Z;
  TableId : string;
  TblName : CIStr;
  Columns : list ColumnInfo }.

End model.

Module infoschema.

(** The [InfoSchema] interface, with the one method the runner calls.
    [TableByName] answers with the table's [Meta()]. *)
Record InfoSchema := {
  TableByName : model.CIStr → model.CIStr → ext model.TableInfo }.

End infoschema.

(** ** Party and engine information (package translator) *)
Module translator.

Record Participant := {
  PartyCode : string;
  Endpoints : list string;
  PubKey : string }.

Record PartyInfo := { Participants : list Participant }.
Definition NewPartyInfo (ps : list Participant) : PartyInfo :=
  {| Participants := ps |}.

Record EnginesInfo := {
  partyInfo : PartyInfo;
  partyToTables : gmap string (list core.DbTable);
  tableToRefs : gmap core.DbTable core.DbTable }.

Definition NewEnginesInfo (p : PartyInfo)
    (party2Tables : gmap string (list core.DbTable)) : EnginesInfo :=
  {| partyInfo := p; partyToTables := party2Tables; tableToRefs := ∅ |}.

Definition UpdateTableToRefs (e : EnginesInfo)
    (refs : gmap core.DbTable core.DbTable) : EnginesInfo :=
  {| partyInfo := partyInfo e;
     partyToTables := partyToTables e;
     tableToRefs := refs ∪ tableToRefs e |}.

Definition GetTablesByParty (e : EnginesInfo) (party : string)
  : list core.DbTable :=
  default [] (partyToTables e !! party).

End translator.

(** ** The broker application (package application)

    The collaborators of the runner are objects whose methods are defined
    elsewhere; each is a record holding one function per method.  A method
    that talks to the outside world takes, as its first argument, the
    number of earlier calls made to it by the running operation, so that
    successive calls may be answered differently. *)
Module application.

Record Checksum := { TableSchema : list Byte.byte; CCL : list Byte.byte }.

Record Config := {
  PartyCode : string;
  ExchangeJobInfoRetryTimes : Z;
  ExchangeJobInfoRetryInterval : Z;
  SessionCheckInterval : Z;
  SessionExpireTime : Z;
  IntraServerProtocol : string;
  EngineProtocol : string;
  EngineContentType : string }.

Record PartyMgr_ := {
  GetBrokerUrlByParty : string → ext string;
  GetPubKeyByParty : string → ext string;
  GetPartyInfoByParties : list string → ext translator.PartyInfo }.

(** A metadata transaction.  The lookups answer with the values the Go
    methods return, error included. *)
Record MetaTransaction := {
  GetTableMetasByTableNames :
    string → list string →
    list storage.TableMeta * list string * option string;
  GetProjectMembers : string → ext (list string);
  ListColumnConstraints :
    string → list string → list string →
    list storage.ColumnPriv * option string;
  Commit : option string }.

(** Modelled from the spec: [MetaTransaction.Finish] is not part of the
    sources at hand.  The metadata store is an external collaborator, and
    a fatal error reaches the caller as the originating error: [Finish]
    hands a pending error back (after rolling back) and otherwise reports
    the outcome of the commit. *)
Definition Finish (txn : MetaTransaction) (err : option error)
  : option error :=
  match err with
  | Some e => Some e
  | None => ErrExternal <$> Commit txn
  end.

Record MetaManager := {
  CreateMetaTransaction : nat → MetaTransaction;
  InitGcLockIfNecessary : option string;
  HoldGcLock : nat → string → Z → option string;
  ClearExpiredResults : nat → Z → option string;
  CheckIdCanceled : nat → list string → ext (list string) }.

(** The inter-broker stub.  The Go method fills the response object it
    is handed and returns an error; here it answers with the error or
    with the content of the response after the call. *)
Record InterStub_ := {
  ExchangeJobInfo :
    nat → string → pb.ExchangeJobInfoRequest →
    ext pb.ExchangeJobInfoResponse }.

Record App := {
  Conf : Config;
  PartyMgr : PartyMgr_;
  MetaMgr : MetaManager;
  (** [common.AskProjectInfoFromParties(app, projectID, tables, ccls,
      parties)] *)
  AskProjectInfoFromParties :
    string → list string → list string → list string → option string }.

Record ExecutionInfo := {
  ProjectID : string;
  JobID : string;
  Issuer : pb.PartyId;
  Query : string;
  CompileOpts : string;
  DebugOpts : string;
  DataParties : list string;
  InterStub : InterStub_;
  EngineClient : string }.

Record Session := {
  ExecuteInfo : ExecutionInfo;
  App_ : App;
  AsyncMode : bool;
  CallBackHost : string;
  (** methods *)
  GetSelfPartyCode : string;
  GetLocalChecksum : string → ext Checksum;
  GetEndpoint : string → ext string;
  IsIssuer : bool;
  EngineEndpointForSelf : string }.

Definition set_AsyncMode (b : bool) (s : Session) : Session :=
  {| ExecuteInfo := ExecuteInfo s; App_ := App_ s; AsyncMode := b;
     CallBackHost := CallBackHost s;
     GetSelfPartyCode := GetSelfPartyCode s;
     GetLocalChecksum := GetLocalChecksum s;
     GetEndpoint := GetEndpoint s; IsIssuer := IsIssuer s;
     EngineEndpointForSelf := EngineEndpointForSelf s |}.

End application.

(** ** The engine executor (package executor) *)
Module executor.

Record EngineStub := {
  StubSessionId : string;
  CallbackProtocol : string;
  StubCallBackHost : string;
  CallbackPath : string;
  StubEngineClient : string;
  StubProtocol : string;
  StubContentType : string;
  StubPartyInfo : translator.PartyInfo }.

Definition NewEngineStub (sessionId cbProtocol cbHost cbPath client
    protocol contentType : string) (partyInfo : translator.PartyInfo)
  : EngineStub :=
  {| StubSessionId := sessionId; CallbackProtocol := cbProtocol;
     StubCallBackHost := cbHost; CallbackPath := cbPath;
     StubEngineClient := client; StubProtocol := protocol;
     StubContentType := contentType; StubPartyInfo := partyInfo |}.

Record Executor := {
  PlanReqs : gmap string pb.RunExecutionPlanRequest;
  OutputNames : list string;
  Stub : EngineStub;
  ExecId : string;
  ExecPartyInfo : translator.PartyInfo }.

(** Modelled from the spec: [executor.NewExecutor] is not part of the
    sources at hand.  The executor keeps the request map, the output
    names, the stub, the job id and the party roster it is built from;
    [Execute] reads the output names back as [executor.OutputNames]. *)
Definition NewExecutor (planReqs : gmap string pb.RunExecutionPlanRequest)
    (outputNames : list string) (stub : EngineStub) (id : string)
    (partyInfo : translator.PartyInfo) : result Executor :=
  Ok {| PlanReqs := planReqs; OutputNames := outputNames; Stub := stub;
        ExecId := id; ExecPartyInfo := partyInfo |}.

End executor.

(** ** Functions of other packages

    Pure helpers the runner calls and whose code lives in packages not at
    hand.  They are left open: every definition below works for any
    choice of them. *)
Class Lib := {
  (** [core.DbTable.String()], the canonical text of a table *)
  DbTable_String : core.DbTable → string;
  (** [core.NewDbTableFromString] and [core.ParseDBType] *)
  NewDbTableFromString : string → ext core.DbTable;
  ParseDBType : string → ext Z;
  (** [model.ColumnInfo.GetTypeDesc()] *)
  GetTypeDesc : model.ColumnInfo → string;
  (** [pb.SecurityConfig_ColumnControl_Visibility.String()] and the
      generated name-to-number table (0 for a name it does not hold) *)
  Visibility_String : Z → string;
  Visibility_value : string → Z;
  (** [strings.ToUpper], [strings.ToLower], [fmt.Sprint] on an index *)
  ToUpper : string → string;
  ToLower : string → string;
  Sprint : Z → string;
  (** [infoschema.TypeDefaultValue], [infoschema.TypeConversion],
      [infoschema.MockInfoSchema] *)
  TypeDefaultValue : string → ext string;
  TypeConversion : string → ext string;
  MockInfoSchema :
    gmap string (list model.TableInfo) → infoschema.InfoSchema;
  (** [constant.EngineCallbackPath] *)
  EngineCallbackPath : string }.

(** ** The query runner (pkg/broker/executor/query_runner.go) *)

Record QueryRunner := {
  session : application.Session;
  info : option translator.EnginesInfo;
  is_ : option infoschema.InfoSchema;
  ccls : list pb.SecurityConfig_ColumnControl;
  tables : list storage.TableMeta;
  prepareAgain : bool }.

Definition NewQueryRunner (s : application.Session) : QueryRunner :=
  {| session := s; info := None; is_ := None; ccls := []; tables := [];
     prepareAgain := false |}.

Definition set_info (v : option translator.EnginesInfo) (r : QueryRunner)
  : QueryRunner :=
  {| session := session r; info := v; is_ := is_ r; ccls := ccls r;
     tables := tables r; prepareAgain := prepareAgain r |}.
Definition set_is (v : option infoschema.InfoSchema) (r : QueryRunner)
  : QueryRunner :=
  {| session := session r; info := info r; is_ := v; ccls := ccls r;
     tables := tables r; prepareAgain := prepareAgain r |}.
Definition set_ccls (v : list pb.SecurityConfig_ColumnControl)
    (r : QueryRunner) : QueryRunner :=
  {| session := session r; info := info r; is_ := is_ r; ccls := v;
     tables := tables r; prepareAgain := prepareAgain r |}.
Definition set_tables (v : list storage.TableMeta) (r : QueryRunner)
  : QueryRunner :=
  {| session := session r; info := info r; is_ := is_ r; ccls := ccls r;
     tables := v; prepareAgain := prepareAgain r |}.
Definition set_session (v : application.Session) (r : QueryRunner)
  : QueryRunner :=
  {| session := v; info := info r; is_ := is_ r; ccls := ccls r;
     tables := tables r; prepareAgain := prepareAgain r |}.

Definition Clear (r : QueryRunner) : QueryRunner :=
  set_ccls [] (set_is None (set_info None r)).

Definition GetEnginesInfo (r : QueryRunner) : option translator.EnginesInfo :=
  info r.

Definition SetPrepareAgain (r : QueryRunner) : QueryRunner :=
  {| session := session r; info := info r; is_ := is_ r; ccls := ccls r;
     tables := tables r; prepareAgain := true |}.

Section runner.
Context `{!pb.Codes, !Lib}.

(** *** CreateChecksum

    A running hash is the byte string written to it so far; [Sum] hashes
    it.  The three sorts reorder slices that the engines info and the
    info schema also hold; a sorted slice sorts to itself, so the
    reordering is not carried in the state. *)

Definition Write (h : string) (p : string) : string := h +:+ p.

Definition tableLess (a b : core.DbTable) : bool :=
  str_lt (DbTable_String a) (DbTable_String b).

Definition columnLess (a b : model.ColumnInfo) : bool :=
  str_lt (model.CIStr_String (model.Name a))
         (model.CIStr_String (model.Name b)).

Definition cclKey (c : pb.SecurityConfig_ColumnControl) : string :=
  Join [pb.TableName c; pb.ColumnName c; pb.PartyCode c] " ".

Definition cclLess (a b : pb.SecurityConfig_ColumnControl) : bool :=
  str_lt (cclKey a) (cclKey b).

Definition cclOfTable (t : core.DbTable)
    (ccl : pb.SecurityConfig_ColumnControl) : bool :=
  bool_decide (pb.TableName ccl = core.GetTableName t)
  && bool_decide (pb.DatabaseName ccl = core.GetDbName t).

Definition writeColumn (h : string) (col : model.ColumnInfo) : string :=
  Write (Write h (model.CIStr_String (model.Name col))) (GetTypeDesc col).

Definition writeCcl (h : string) (ccl : pb.SecurityConfig_ColumnControl)
  : string :=
  Write (Write (Write h (pb.TableName ccl)) (pb.ColumnName ccl))
        (Visibility_String (pb.Visibility ccl)).

(** The body of [for _, t := range tables], lines 83 to 112, on the two
    running hashes.  [r.is] is an interface value: calling its method
    when it is nil faults. *)
Fixpoint checksumTables (sch : option infoschema.InfoSchema)
    (allCcls : list pb.SecurityConfig_ColumnControl)
    (ts : list core.DbTable) (tableSchemaCrypt cclCrypt : string)
  : result (string * string) :=
  match ts with
  | [] => Ok (tableSchemaCrypt, cclCrypt)
  | t :: rest =>
      let tableSchemaCrypt := Write tableSchemaCrypt (DbTable_String t) in
      match sch with
      | None => Err ErrNilDereference
      | Some isch =>
          match infoschema.TableByName isch
                  (model.NewCIStr (core.GetDbName t))
                  (model.NewCIStr (core.GetTableName t)) with
          | Failed err => Err (ErrExternal err)
          | Got tableSchema =>
              let columnInfos :=
                sort.Slice columnLess (model.Columns tableSchema) in
              let tableSchemaCrypt :=
                fold_left writeColumn columnInfos tableSchemaCrypt in
              let cclsForP := List.filter (cclOfTable t) allCcls in
              let cclsForP := sort.Slice cclLess cclsForP in
              let cclCrypt := fold_left writeCcl cclsForP cclCrypt in
              checksumTables sch allCcls rest tableSchemaCrypt cclCrypt
          end
      end
  end.

(** The body of [for _, p := range s.ExecuteInfo.DataParties]; [r.info]
    is a pointer, dereferenced by [GetTablesByParty]. *)
Fixpoint checksumParties (r : QueryRunner) (parties : list string)
    (checksumMap : gmap string application.Checksum)
  : result (gmap string application.Checksum) :=
  match parties with
  | [] => Ok checksumMap
  | p :: rest =>
      match info r with
      | None => Err ErrNilDereference
      | Some engines =>
          let tables :=
            sort.Slice tableLess (translator.GetTablesByParty engines p) in
          match checksumTables (is_ r) (ccls r) tables "" "" with
          | Err e => Err e
          | Ok (tableSchemaCrypt, cclCrypt) =>
              checksumParties r rest
                (<[p := {| application.TableSchema :=
                             Sha256.sum tableSchemaCrypt;
                           application.CCL := Sha256.sum cclCrypt |}]>
                   checksumMap)
          end
      end
  end.

Definition CreateChecksum (r : QueryRunner)
  : result (gmap string application.Checksum) :=
  checksumParties r
    (application.DataParties (application.ExecuteInfo (session r))) ∅.

(** *** ExchangeJobInfo

    What the call does to the outside world is recorded as a trace of
    events, oldest first. *)

Inductive event :=
  | EvExchange (url : string) (req : pb.ExchangeJobInfoRequest)
  | EvSleep (interval : Z).

Definition is_exchange (e : event) : bool :=
  match e with EvExchange _ _ => true | EvSleep _ => false end.
Definition is_sleep (e : event) : bool :=
  match e with EvSleep _ => true | EvExchange _ _ => false end.

Definition attempts (tr : list event) : nat :=
  length (List.filter is_exchange tr).
Definition sleeps (tr : list event) : nat :=
  length (List.filter is_sleep tr).

(** How the retry loop is left: by a [return] inside it, or by falling
    out of it ([break], or the loop condition failing) with the response
    object as the last call left it. *)
Inductive loop_exit :=
  | LoopReturn (ret : result pb.ExchangeJobInfoResponse)
  | LoopDone (response : pb.ExchangeJobInfoResponse).

(** [for i := 0; i < retryTimes; i++], lines 145 to 160.  [left] is the
    number of iterations the loop condition still allows, that is
    [retryTimes - i] when that is positive, else none. *)
Fixpoint exchangeLoop (session : application.Session) (url : string)
    (req : pb.ExchangeJobInfoRequest) (left : nat) (i : Z)
    (response : pb.ExchangeJobInfoResponse) (tr : list event)
  : loop_exit * list event :=
  let conf := application.Conf (application.App_ session) in
  match left with
  | O => (LoopDone response, tr)
  | S left' =>
      let tr := tr ++ [EvExchange url req] in
      match application.ExchangeJobInfo
              (application.InterStub (application.ExecuteInfo session))
              (Z.to_nat i) url req with
      | Failed err =>
          (LoopReturn (Err (ErrExchangeStub (ErrExternal err))), tr)
      | Got response =>
          if pb.GetCode (pb.GetStatus response)
             =? pb.Code_SESSION_NOT_FOUND then
            let tr :=
              if i <? application.ExchangeJobInfoRetryTimes conf - 1
              then tr ++ [EvSleep
                            (application.ExchangeJobInfoRetryInterval conf)]
              else tr in
            exchangeLoop session url req left' (i + 1) response tr
          else if pb.GetCode (pb.GetStatus response) =? 0 then
            (LoopReturn (Ok response), tr)
          else (LoopDone response, tr)
      end
  end.

(** Lines 119 to 137: the request, with the local checksum attached
    when the target is a data party. *)
Definition exchangeRequest (r : QueryRunner) (targetParty : string)
  : result pb.ExchangeJobInfoRequest :=
  let session := session r in
  let executionInfo := application.ExecuteInfo session in
  let selfCode := application.GetSelfPartyCode session in
  let req :=
    {| pb.ProjectId := application.ProjectID executionInfo;
       pb.JobId := application.JobID executionInfo;
       pb.ClientId := Some {| pb.Code := selfCode |};
       pb.ServerChecksum := None |} in
  if bool_decide (targetParty ∈ application.DataParties executionInfo)
  then
    match application.GetLocalChecksum session targetParty with
    | Failed err => Err (ErrLocalChecksum (ErrExternal err))
    | Got serverChecksum =>
        Ok {| pb.ProjectId := pb.ProjectId req;
              pb.JobId := pb.JobId req;
              pb.ClientId := pb.ClientId req;
              pb.ServerChecksum :=
                Some {| pb.TableSchema :=
                          application.TableSchema serverChecksum;
                        pb.Ccl := application.CCL serverChecksum |} |}
    end
  else Ok req.

Definition ExchangeJobInfo (r : QueryRunner) (targetParty : string)
  : result pb.ExchangeJobInfoResponse * list event :=
  let session := session r in
  match exchangeRequest r targetParty with
  | Err e => (Err e, [])
  | Ok req =>
      match application.GetBrokerUrlByParty
              (application.PartyMgr (application.App_ session))
              targetParty with
      | Failed err => (Err (ErrExchangeStub (ErrExternal err)), [])
      | Got url =>
          let response :=
            {| pb.RespStatus := None;
               pb.ExpectedServerChecksum := None |} in
          let retryTimes :=
            application.ExchangeJobInfoRetryTimes
              (application.Conf (application.App_ session)) in
          (* retry to make sure that peer broker has created session *)
          match exchangeLoop session url req (Z.to_nat retryTimes) 0
                  response [] with
          | (LoopReturn ret, tr) => (ret, tr)
          | (LoopDone response, tr) =>
              match pb.RespStatus response with
              | None => (Err (ErrResponse targetParty response), tr)
              | Some status =>
                  if pb.StatusCode status =? pb.Code_DATA_INCONSISTENCY
                  then (Ok response, tr)
                  else (Err (ErrExchangeFailed targetParty status), tr)
              end
          end
      end
  end.

(** *** prepareData and Prepare *)

(** What the loop of lines 207 to 227 builds. *)
Record collected := {
  parties : list string;
  party2Tables : gmap string (list core.DbTable);
  tableToRefs : gmap core.DbTable core.DbTable }.

Fixpoint collectTables (ts : list storage.TableMeta) (acc : collected)
  : result collected :=
  match ts with
  | [] => Ok acc
  | t :: rest =>
      let tbl := storage.Table_ t in
      let parties := parties acc ++ [storage.Owner tbl] in
      let party2Tables :=
        match party2Tables acc !! storage.Owner tbl with
        | Some _ => party2Tables acc
        | None => <[storage.Owner tbl := []]> (party2Tables acc)
        end in
      (* currently use project id as db name *)
      let dbTable :=
        core.NewDbTable (storage.ProjectID tbl) (storage.TableName tbl) in
      let party2Tables :=
        <[storage.Owner tbl :=
            default [] (party2Tables !! storage.Owner tbl) ++ [dbTable]]>
          party2Tables in
      match NewDbTableFromString (storage.RefTable tbl) with
      | Failed err => Err (ErrExternal err)
      | Got refDbTable =>
          match ParseDBType (storage.DBType tbl) with
          | Failed err => Err (ErrExternal err)
          | Got dbType =>
              let refDbTable := core.SetDBType refDbTable dbType in
              collectTables rest
                {| parties := parties; party2Tables := party2Tables;
                   tableToRefs :=
                     <[dbTable := refDbTable]> (tableToRefs acc) |}
          end
      end
  end.

Definition columnControl (columnPriv : storage.ColumnPriv)
  : pb.SecurityConfig_ColumnControl :=
  {| pb.PartyCode := storage.DestParty columnPriv;
     pb.Visibility := Visibility_value (ToUpper (storage.Priv columnPriv));
     pb.DatabaseName := storage.PrivProjectID columnPriv;
     pb.TableName := storage.PrivTableName columnPriv;
     pb.ColumnName := storage.PrivColumnName columnPriv |}.

(** The value of the three named results [(dataParties, workParties,
    err)] when the function returns. *)
Definition prepared : Type := list string * list string * option error.

(** Lines 204 to 248: the tables are resolved, [txn] is the transaction
    the deferred [Finish] will close. *)
Definition prepareParties (r : QueryRunner)
    (txn : application.MetaTransaction) (usedTableNames : list string)
  : QueryRunner * prepared :=
  let session := session r in
  let projectID :=
    application.ProjectID (application.ExecuteInfo session) in
  match collectTables (tables r)
          {| parties := []; party2Tables := ∅; tableToRefs := ∅ |} with
  | Err e => (r, ([], [], application.Finish txn (Some e)))
  | Ok c =>
      (* SliceDeDup sort parties and compact *)
      let dataParties := sliceutil.SliceDeDup (parties c) in
      let workParties :=
        sliceutil.SliceDeDup
          (dataParties ++
           [pb.Code (application.Issuer
                       (application.ExecuteInfo session))]) in
      match application.GetPartyInfoByParties
              (application.PartyMgr (application.App_ session))
              workParties with
      | Failed err =>
          (r, (dataParties, workParties,
               application.Finish txn (Some (ErrExternal err))))
      | Got partyInfo =>
          let r :=
            set_info
              (Some (translator.UpdateTableToRefs
                       (translator.NewEnginesInfo partyInfo
                          (party2Tables c))
                       (tableToRefs c))) r in
          (* get ccls *)
          let '(columnPrivs, err) :=
            application.ListColumnConstraints txn projectID
              usedTableNames workParties in
          let r := set_ccls (ccls r ++ (columnControl <$> columnPrivs)) r in
          (r, (dataParties, workParties,
               application.Finish txn (ErrExternal <$> err)))
      end
  end.

(** What [prepareData] does to the metadata store and to the peers,
    oldest first: the [n]-th transaction of the call is created, or
    finished (with nil by line 187, with the pending error by the
    deferred call of line 174, which closes the transaction [txn] names
    at the return), or the peers are asked what they know. *)
Inductive meta_event :=
  | MetaCreateTransaction (n : nat)
  | MetaFinish (n : nat)
  | AskProjectInfo (projectID : string) (tableNames cclNames : list string)
      (parties : list string).

Definition prepareData (r : QueryRunner) (usedTableNames : list string)
  : QueryRunner * prepared * list meta_event :=
  let session := session r in
  let app := application.App_ session in
  let projectID :=
    application.ProjectID (application.ExecuteInfo session) in
  let txn :=
    application.CreateMetaTransaction (application.MetaMgr app) 0 in
  let tr := [MetaCreateTransaction 0] in
  let '(tbls, notFoundTables, err) :=
    application.GetTableMetasByTableNames txn projectID usedTableNames in
  let r := set_tables tbls r in
  match err with
  | Some e =>
      (r, ([], [], application.Finish txn (Some (ErrExternal e))),
       tr ++ [MetaFinish 0])
  | None =>
      if bool_decide (0 < length notFoundTables)%nat
         && negb (prepareAgain r) then
        match application.GetProjectMembers txn projectID with
        | Failed e =>
            (r, ([], [], application.Finish txn (Some (ErrExternal e))),
             tr ++ [MetaFinish 0])
        | Got members =>
            (* finish old transaction *)
            let _ := application.Finish txn None in
            (* the peers are asked; a failure is only logged *)
            let parties :=
              sliceutil.Subtraction members
                [application.PartyCode (application.Conf app)] in
            let _ :=
              application.AskProjectInfoFromParties app projectID
                notFoundTables [] parties in
            (* use new transaction *)
            let txn :=
              application.CreateMetaTransaction
                (application.MetaMgr app) 1 in
            let tr :=
              tr ++ [MetaFinish 0;
                     AskProjectInfo projectID notFoundTables [] parties;
                     MetaCreateTransaction 1] in
            (* get tables schema again *)
            let '(tbls, notFoundTables, err) :=
              application.GetTableMetasByTableNames txn projectID
                usedTableNames in
            let r := set_tables tbls r in
            match err with
            | Some e =>
                (r, ([], [],
                     application.Finish txn (Some (ErrExternal e))),
                 tr ++ [MetaFinish 1])
            | None =>
                if bool_decide (0 < length notFoundTables)%nat then
                  (r, ([], [],
                       application.Finish txn
                         (Some (ErrTableNotFound notFoundTables))),
                   tr ++ [MetaFinish 1])
                else
                  (prepareParties r txn usedTableNames,
                   tr ++ [MetaFinish 1])
            end
        end
      else (prepareParties r txn usedTableNames, tr ++ [MetaFinish 0])
  end.

(** The inner loop of [CreateInfoSchema], lines 288 to 310. *)
Fixpoint columnInfos (cols : list storage.ColumnMeta) (i : Z)
    (acc : list model.ColumnInfo) : result (list model.ColumnInfo) :=
  match cols with
  | [] => Ok acc
  | col :: rest =>
      let colTyp := ToLower (storage.DType col) in
      match TypeDefaultValue colTyp with
      | Failed err => Err (ErrExternal err)
      | Got defaultVal =>
          match TypeConversion colTyp with
          | Failed err => Err (ErrExternal err)
          | Got fieldTp =>
              columnInfos rest (i + 1)
                (acc ++
                 [{| model.ID := i;
                     model.Name :=
                       model.NewCIStr (storage.ColumnName col);
                     model.Offset := i;
                     model.DefaultValue := defaultVal;
                     model.FieldType := fieldTp |}])
          end
      end
  end.

Fixpoint tableInfos (tbls : list storage.TableMeta) (i : Z)
    (acc : list model.TableInfo) : result (list model.TableInfo) :=
  match tbls with
  | [] => Ok acc
  | tbl :: rest =>
      match columnInfos (storage.Columns tbl) 0 [] with
      | Err e => Err e
      | Ok cols =>
          tableInfos rest (i + 1)
            (acc ++
             [{| model.TblID := i;
                 model.TableId := Sprint i;
                 model.TblName :=
                   model.NewCIStr
                     (storage.TableName (storage.Table_ tbl));
                 model.Columns := cols |}])
      end
  end.

Definition CreateInfoSchema (r : QueryRunner)
    (tbls : list storage.TableMeta) : result infoschema.InfoSchema :=
  match tableInfos tbls 0 [] with
  | Err e => Err e
  | Ok infos =>
      Ok (MockInfoSchema
            {[ application.ProjectID
                 (application.ExecuteInfo (session r)) := infos ]})
  end.

(** [Prepare] gives the runner it leaves and the three results; what
    the call does to the store and to the peers is what its call to
    [prepareData] does. *)
Definition Prepare (r : QueryRunner) (usedTables : list core.DbTable)
  : QueryRunner * prepared :=
  (* clear before preparing *)
  let r := Clear r in
  (* get data from storage *)
  let usedTableNames := core.GetTableName <$> usedTables in
  let '(r, (dataParties, workParties, err), _) :=
    prepareData r usedTableNames in
  match err with
  | Some e => (r, (dataParties, workParties, Some e))
  | None =>
      (* create info schema *)
      match CreateInfoSchema r (tables r) with
      | Err e => (set_is None r, (dataParties, workParties, Some e))
      | Ok sch => (set_is (Some sch) r, (dataParties, workParties, None))
      end
  end.

(** *** CreateExecutor *)

(** [for i, p := range plan.Parties], lines 371 to 387. *)
Fixpoint startParties (session : application.Session)
    (ps : list pb.PartyId) (i : Z)
    (acc : list pb.SessionStartParams_Party)
  : result (list pb.SessionStartParams_Party) :=
  match ps with
  | [] => Ok acc
  | p :: rest =>
      match application.GetEndpoint session (pb.Code p) with
      | Failed err => Err (ErrExternal err)
      | Got endpoint =>
          match application.GetPubKeyByParty
                  (application.PartyMgr (application.App_ session))
                  (pb.Code p) with
          | Failed err => Err (ErrExternal err)
          | Got pubKey =>
              startParties session rest (i + 1)
                (acc ++
                 [{| pb.PCode := pb.Code p;
                     pb.PName := pb.Code p;
                     pb.Rank := int32 i;
                     pb.Host := endpoint;
                     pb.PublicKey := pubKey |}])
          end
      end
  end.

Definition CreateExecutor (r : QueryRunner) (plan : pb.CompiledPlan)
  : result executor.Executor :=
  (* create SessionStartParams *)
  let session := session r in
  let conf := application.Conf (application.App_ session) in
  let jobID := application.JobID (application.ExecuteInfo session) in
  match startParties session (pb.Parties plan) 0 [] with
  | Err e => Err e
  | Ok parties =>
      let startParams :=
        {| pb.SPartyCode := application.PartyCode conf;
           pb.SessionId := jobID;
           pb.SpuRuntimeCfg := pb.SpuRuntimeConf plan;
           pb.SParties := parties |} in
      match pb.SubGraphs plan !! application.PartyCode conf with
      | None => Err ErrNoGraph
      | Some myGraph =>
          let req :=
            {| pb.SessionParams := startParams;
               pb.Graph := myGraph;
               pb.Async := false;
               pb.DebugOpts :=
                 application.DebugOpts
                   (application.ExecuteInfo session) |} in
          let planReqs : gmap string pb.RunExecutionPlanRequest :=
            {[ application.PartyCode conf := req ]} in
          (* create sync executor *)
          match application.GetPubKeyByParty
                  (application.PartyMgr (application.App_ session))
                  (application.PartyCode conf) with
          | Failed err => Err (ErrExternal err)
          | Got myPubKey =>
              let myself :=
                {| translator.PartyCode := application.PartyCode conf;
                   translator.Endpoints :=
                     [application.EngineEndpointForSelf session];
                   translator.PubKey := myPubKey |} in
              let partyInfo := translator.NewPartyInfo [myself] in
              let engineStub :=
                executor.NewEngineStub jobID
                  (application.IntraServerProtocol conf)
                  (application.CallBackHost session)
                  EngineCallbackPath
                  (application.EngineClient
                     (application.ExecuteInfo session))
                  (application.EngineProtocol conf)
                  (application.EngineContentType conf)
                  partyInfo in
              (* p2p: party code who is not issuer doesn't have output
                 tensors *)
              let outputNames :=
                if application.IsIssuer session
                then pb.Name <$> pb.GetColumns (pb.Schema plan)
                else [] in
              executor.NewExecutor planReqs outputNames engineStub jobID
                (translator.NewPartyInfo [myself])
          end
      end
  end.

End runner.

(** ** The garbage-collection loops (package application)

    Each loop waits on a ticker.  A run is followed for the ticks the
    ticker has delivered so far; what it has done is a trace of events,
    and its status tells whether it is blocked on the next tick or has
    returned. *)
Module gc.

Inductive gc_event :=
  | LogError (msg : string)
  | LogWarn (msg : string)
  | CallHoldGcLock (owner : string) (ttl : Z)
  | CallClearExpiredResults (expire : Z)
  | CallCheckIdCanceled (ids : list string)
  | CallDeleteSession (id : string).

(** How one pass through a loop body ends: at the next iteration
    ([continue], or the end of the body), or by leaving the function. *)
Inductive control := Next | Leave.

Inductive status := WaitingForTick | Returned.

(** The body of the loop of [StorageGc], lines 42 to 55, at tick [k]. *)
Definition StorageGc_body (app : application.App) (owner : string)
    (k : nat) : control * list gc_event :=
  let conf := application.Conf app in
  let ttl := application.SessionCheckInterval conf in
  (* hold lock or continue for retry *)
  match application.HoldGcLock (application.MetaMgr app) k owner ttl with
  | Some err => (Next, [CallHoldGcLock owner ttl])
  | None =>
      (* scan table to get all expired ids *)
      let expire := application.SessionExpireTime conf in
      match application.ClearExpiredResults
              (application.MetaMgr app) k expire with
      | Some err =>
          (Next, [CallHoldGcLock owner ttl;
                  CallClearExpiredResults expire; LogWarn "GC err"])
      | None =>
          (Next, [CallHoldGcLock owner ttl;
                  CallClearExpiredResults expire])
      end
  end.

(** [for { <-ticker.C; body }], fed the ticks numbered [k], [k+1], ...
    of which [n] have been delivered. *)
Fixpoint StorageGc_loop (app : application.App) (owner : string)
    (n k : nat) (tr : list gc_event) : status * nat * list gc_event :=
  match n with
  | O => (WaitingForTick, k, tr)
  | S n' =>
      match StorageGc_body app owner k with
      | (Next, evs) => StorageGc_loop app owner n' (S k) (tr ++ evs)
      | (Leave, evs) => (Returned, S k, tr ++ evs)
      end
  end.

(** [StorageGc], with the value of the environment variable HOSTNAME and
    the number of ticks delivered so far.  The answer holds the status,
    the number of ticks consumed and the trace. *)
Definition StorageGc (app : application.App) (HOSTNAME : string)
    (ticks : nat) : status * nat * list gc_event :=
  (* check locking info exists in table *)
  match application.InitGcLockIfNecessary (application.MetaMgr app) with
  | Some err => (Returned, O, [LogError "failed to check gc lock"])
  | None =>
      let owner := application.PartyCode (application.Conf app) in
      let '(owner, tr) :=
        if bool_decide (HOSTNAME ≠ "") then (HOSTNAME, [])
        else (owner,
              [LogWarn
                 "cannot find HOSTNAME env, using party code as owner"]) in
      StorageGc_loop app owner ticks O tr
  end.

(** Modelled from the spec: [App.DeleteSession] is not part of the
    sources at hand; it "deletes the in-memory state" of the session
    with the given id, and deleting an absent id changes nothing. *)
Definition DeleteSession (id : string)
    (sessions : gmap string application.Session)
  : gmap string application.Session :=
  delete id sessions.

(** The body of the loop of [SessionGc], lines 65 to 78, at tick [k], on
    the in-memory registry. [Items()] is a snapshot of the registry. *)
Definition SessionGc_body (app : application.App) (k : nat)
    (sessions : gmap string application.Session)
  : control * gmap string application.Session * list gc_event :=
  let items := sessions in
  let ids := (map_to_list items).*1 in
  match application.CheckIdCanceled (application.MetaMgr app) k ids with
  | Failed err =>
      (Next, sessions,
       [CallCheckIdCanceled ids;
        LogError "check canceled session failed"])
  | Got canceledIds =>
      (Next,
       foldl (λ reg id, DeleteSession id reg) sessions canceledIds,
       CallCheckIdCanceled ids :: (CallDeleteSession <$> canceledIds))
  end.

(** [SessionGc] for the ticks delivered so far.  Between two ticks the
    sessions' coordinators run: [others k] is what they did to the
    registry before tick [k]. *)
Fixpoint SessionGc_loop (app : application.App)
    (others : nat → gmap string application.Session →
              gmap string application.Session)
    (n k : nat) (sessions : gmap string application.Session)
    (tr : list gc_event)
  : status * nat * gmap string application.Session * list gc_event :=
  match n with
  | O => (WaitingForTick, k, sessions, tr)
  | S n' =>
      match SessionGc_body app k (others k sessions) with
      | (Next, sessions', evs) =>
          SessionGc_loop app others n' (S k) sessions' (tr ++ evs)
      | (Leave, sessions', evs) => (Returned, S k, sessions', tr ++ evs)
      end
  end.

Definition SessionGc (app : application.App)
    (others : nat → gmap string application.Session →
              gmap string application.Session)
    (sessions : gmap string application.Session) (ticks : nat)
  : status * nat * gmap string application.Session * list gc_event :=
  SessionGc_loop app others ticks O sessions [].

End gc.

(** ** The rest of the runner: compile requests, checksum checks, dry run
    and execution *)

(** Further messages of package pb. *)
Module pbmsg.

Record TableEntry_Column := { ColName : string; ColType : string }.

Record TableEntry := {
  TableName : string;
  IsView : bool;
  RefTable : string;
  DbType : string;
  Owner : option pb.PartyId;
  Columns : list TableEntry_Column }.

Record Catalog := { Tables : list TableEntry }.

Record SecurityConfig := {
  ColumnControlList : list pb.SecurityConfig_ColumnControl }.

Record CompileQueryRequest := {
  Query : string;
  DbName : string;
  Issuer : pb.PartyId;
  IssuerAsParticipant : bool;
  SecurityConf : option SecurityConfig;
  Catalog_ : option Catalog;
  CompileOpts : string }.

Record RunExecutionPlanResponse := {
  RunStatus : option pb.Status;
  RunOutColumns : list string;
  RunAffectedRows : Z }.

Record SQLWarning := { Reason : string }.

Record QueryResponse := {
  Status : option pb.Status;
  OutColumns : list string;
  AffectedRows : Z;
  CostTimeS : string;
  Warnings : list SQLWarning }.

(** The nil-safe getter of the response's status. *)
Definition GetStatus (ret : option RunExecutionPlanResponse)
  : option pb.Status :=
  match ret with Some r => RunStatus r | None => None end.

End pbmsg.

(** The inner loop of [buildCatalog], lines 348 to 356. *)
Definition catalogColumns (cols : list storage.ColumnMeta)
  : list pbmsg.TableEntry_Column :=
  fold_left
    (λ acc col,
       acc ++ [{| pbmsg.ColName := storage.ColumnName col;
                  pbmsg.ColType := storage.DType col |}])
    cols [].

Definition buildCatalog (tbls : list storage.TableMeta) : pbmsg.Catalog :=
  {| pbmsg.Tables :=
       fold_left
         (λ acc tbl,
            let t := storage.Table_ tbl in
            acc ++
            [{| pbmsg.TableName :=
                  storage.ProjectID t +:+ "." +:+ storage.TableName t;
                (* TODO: support view *)
                pbmsg.IsView := false;
                pbmsg.RefTable := storage.RefTable t;
                pbmsg.DbType := storage.DBType t;
                pbmsg.Owner := Some {| pb.Code := storage.Owner t |};
                pbmsg.Columns := catalogColumns (storage.Columns tbl) |}])
         tbls [] |}.

Definition buildCompileQueryRequest (r : QueryRunner)
  : pbmsg.CompileQueryRequest :=
  let s := session r in
  let catalog := buildCatalog (tables r) in
  {| pbmsg.Query := application.Query (application.ExecuteInfo s);
     pbmsg.DbName := application.ProjectID (application.ExecuteInfo s);
     pbmsg.Issuer := application.Issuer (application.ExecuteInfo s);
     (* In p2p, `IssuerAsParticipant` is always true. *)
     pbmsg.IssuerAsParticipant := true;
     pbmsg.SecurityConf :=
       Some {| pbmsg.ColumnControlList := ccls r |};
     pbmsg.Catalog_ := Some catalog;
     pbmsg.CompileOpts :=
       application.CompileOpts (application.ExecuteInfo s) |}.

(** The errors of the functions below: the runner's errors passed on, a
    collaborator's error passed on, and the four errors made here. *)
Inductive exec_error :=
  | ExRunner (e : error)
  | ExExternal (msg : string)
  | ExChecksumNotEqual (party : string)
      (** "checksum not equal with party %s" *)
  | ExCompile (msg : string)
      (** "failed to compile query to plan: %w" *)
  | ExDryCompile (msg : string)
      (** "failed to compile query: %w" *)
  | ExPersist (msg : string)
      (** "runQuery persist session info err: %v" *)
  | ExStatus (ret : option pbmsg.RunExecutionPlanResponse)
      (** "status: %s" *).

Section coordinator.
Context `{!pb.Codes, !Lib}.

(** The part of the session that these functions write: the checksum
    store [ExecuteInfo.Checksums], of a type [S] left open, the output
    names and the warning of the plan.  The warning is a pointer: [None]
    is nil, [Some flag] a warning whose MayAffectedByGroupThreshold is
    [flag]. *)
Context {S : Type}.

Record SessionState := {
  Checksums : S;
  OutputNames : list string;
  Warning : option bool }.

(** What the interpreter returns when it returns no error: the plan,
    taken to be set then, and whether the Warning pointer of the plan is
    set; when it is, its flag is the plan's
    [pb.MayAffectedByGroupThreshold]. *)
Record Compiled := {
  Plan : pb.CompiledPlan;
  HasWarning : bool }.

Definition GetWarning (c : Compiled) : option bool :=
  if HasWarning c then Some (pb.MayAffectedByGroupThreshold (Plan c))
  else None.

(** The collaborators: the checksum store's methods, the order in which
    [range] lists a map, the interpreter, the persistence of the session,
    the engine, and the clock. *)
Record Collaborators := {
  (** [pb.ChecksumCompareResult_EQUAL] *)
  ChecksumCompareResult_EQUAL : Z;
  (** [Checksums.CompareChecksumFor(p)] *)
  CompareChecksumFor : S → string → ext Z;
  (** [session.SaveLocalChecksum(code, checksum)] *)
  SaveLocalChecksum : S → string → application.Checksum → S;
  (** [session.SaveRemoteChecksum(p, checksum)] *)
  SaveRemoteChecksum : S → string → option pb.Checksum → ext S;
  (** [for code, checksum := range localChecksums]: the order in which
      the loop visits the entries of the map, each of them once *)
  RangeOrder :
    gmap string application.Checksum →
    list (string * application.Checksum);
  RangeOrder_each_once : ∀ m, RangeOrder m ≡ₚ map_to_list m;
  (** [interpreter.NewInterpreter().Compile(ctx, req)] *)
  Compile : pbmsg.CompileQueryRequest → ext Compiled;
  (** [s.App.PersistSessionInfo(s)] *)
  PersistSessionInfo : SessionState → option string;
  (** [executor.RunExecutionPlan(s.Ctx, asyncMode)]; the response is a
      pointer *)
  RunExecutionPlan :
    executor.Executor → bool →
    ext (option pbmsg.RunExecutionPlanResponse);
  (** [time.Since(s.CreatedAt).Seconds()] *)
  SinceCreatedAt : string }.

Definition set_Checksums (c : S) (st : SessionState) : SessionState :=
  {| Checksums := c; OutputNames := OutputNames st;
     Warning := Warning st |}.

(** What the functions do besides computing, oldest first. *)
Inductive step :=
  | DoCompare (party : string)
  | DoExchange (party : string) (tr : list event)
  | DoSaveRemoteChecksum (party : string) (checksum : option pb.Checksum)
  | DoSaveLocalChecksum (code : string) (checksum : application.Checksum)
  | DoCompile (req : pbmsg.CompileQueryRequest)
  | DoPersist (st : SessionState)
  | DoRunExecutionPlan (ex : executor.Executor) (asyncMode : bool)
  | DoSetResult (result : pbmsg.QueryResponse).

(** [checkChecksum]: the loop over the data parties, lines 444 to 455. *)
Fixpoint checkChecksumLoop (env : Collaborators) (self : string) (c : S)
    (ps : list string) : option exec_error * list step :=
  match ps with
  | [] => (None, [])
  | p :: rest =>
      if bool_decide (p = self) then checkChecksumLoop env self c rest
      else
        match CompareChecksumFor env c p with
        | Failed err => (Some (ExExternal err), [DoCompare p])
        | Got compareResult =>
            if negb (compareResult =? ChecksumCompareResult_EQUAL env)
            then (Some (ExChecksumNotEqual p), [DoCompare p])
            else
              let '(err, tr) := checkChecksumLoop env self c rest in
              (err, DoCompare p :: tr)
        end
  end.

Definition checkChecksum (env : Collaborators) (r : QueryRunner)
    (st : SessionState) : option exec_error * list step :=
  checkChecksumLoop env (application.GetSelfPartyCode (session r))
    (Checksums st)
    (application.DataParties (application.ExecuteInfo (session r))).

(** [GetChecksumFromOtherParties]: the loop of lines 535 to 547. *)
Fixpoint otherPartiesLoop (env : Collaborators) (r : QueryRunner)
    (issuerParty : string) (c : S) (ps : list string)
  : S * option exec_error * list step :=
  match ps with
  | [] => (c, None, [])
  | p :: rest =>
      if bool_decide (p = issuerParty)
         || bool_decide (p = application.GetSelfPartyCode (session r))
      then otherPartiesLoop env r issuerParty c rest
      else
        match ExchangeJobInfo r p with
        | (Err err, tr) => (c, Some (ExRunner err), [DoExchange p tr])
        | (Ok response, tr) =>
            let checksum := pb.ExpectedServerChecksum response in
            match SaveRemoteChecksum env c p checksum with
            | Failed err =>
                (c, Some (ExExternal err),
                 [DoExchange p tr; DoSaveRemoteChecksum p checksum])
            | Got c' =>
                let '(c'', err, steps) :=
                  otherPartiesLoop env r issuerParty c' rest in
                (c'', err,
                 DoExchange p tr :: DoSaveRemoteChecksum p checksum :: steps)
            end
        end
  end.

Definition GetChecksumFromOtherParties (env : Collaborators)
    (r : QueryRunner) (st : SessionState) (issuerParty : string)
  : SessionState * option exec_error * list step :=
  let '(c, err, steps) :=
    otherPartiesLoop env r issuerParty (Checksums st)
      (application.DataParties (application.ExecuteInfo (session r))) in
  (set_Checksums c st, err, steps).

Definition DryRun (env : Collaborators) (r : QueryRunner)
    (st : SessionState) (usedTables : list core.DbTable)
  : option exec_error * list step :=
  (* 1. check data consistency *)
  match checkChecksum env r st with
  | (Some err, tr) => (Some err, tr)
  | (None, tr) =>
      (* 2. try compile query *)
      let compileReq := buildCompileQueryRequest r in
      match Compile env compileReq with
      | Failed err => (Some (ExDryCompile err), tr ++ [DoCompile compileReq])
      | Got _ => (None, tr ++ [DoCompile compileReq])
      end
  end.

(** [Execute], lines 461 to 478: the work done when the PrepareAgain flag
    is set.  The local checksums are saved in the order in which [range]
    lists the map. *)
Definition prepareAgainPath (env : Collaborators) (r : QueryRunner)
    (st : SessionState) (usedTables : list core.DbTable)
  : QueryRunner * SessionState * option exec_error * list step :=
  let '(r, (_, _, err)) := Prepare r usedTables in
  match err with
  | Some e => (r, st, Some (ExRunner e), [])
  | None =>
      match CreateChecksum r with
      | Err e => (r, st, Some (ExRunner e), [])
      | Ok localChecksums =>
          let saved := RangeOrder env localChecksums in
          let c :=
            fold_left (λ c kv, SaveLocalChecksum env c kv.1 kv.2) saved
              (Checksums st) in
          let st := set_Checksums c st in
          let tr := (λ kv, DoSaveLocalChecksum kv.1 kv.2) <$> saved in
          (* check checksum again *)
          let '(err, tr') := checkChecksum env r st in
          (r, st, err, tr ++ tr')
      end
  end.

Definition groupThresholdReason : string :=
  "for safety, we filter the results for groups which contain less than 4 items.".

(** [Execute], lines 480 to 529.  Reading a field of a nil response or of
    a nil warning faults. *)
Definition compileAndRun (env : Collaborators) (r : QueryRunner)
    (st : SessionState)
  : SessionState * option exec_error * list step :=
  let s := session r in
  let compileReq := buildCompileQueryRequest r in
  let tr := [DoCompile compileReq] in
  match Compile env compileReq with
  | Failed err => (st, Some (ExCompile err), tr)
  | Got compiledPlan =>
      match CreateExecutor r (Plan compiledPlan) with
      | Err err => (st, Some (ExRunner err), tr)
      | Ok exec =>
          let st :=
            {| Checksums := Checksums st;
               OutputNames := executor.OutputNames exec;
               Warning := GetWarning compiledPlan |} in
          let persisted :=
            if application.IsIssuer s then
              (* we must persist session info before executing to avoid
                 engine reporting failure *)
              (PersistSessionInfo env st, [DoPersist st])
            else (None, []) in
          match persisted with
          | (Some err, tr') => (st, Some (ExPersist err), tr ++ tr')
          | (None, tr') =>
              let tr :=
                tr ++ tr' ++
                [DoRunExecutionPlan exec (application.AsyncMode s)] in
              match RunExecutionPlan env exec (application.AsyncMode s) with
              | Failed err => (st, Some (ExExternal err), tr)
              | Got ret =>
                  if negb (pb.GetCode (pbmsg.GetStatus ret) =? 0) then
                    (st, Some (ExStatus ret), tr)
                  else if negb (application.AsyncMode s) then
                    (* store result to session when engines run in sync
                       mode *)
                    match ret, GetWarning compiledPlan with
                    | None, _ | _, None =>
                        (st, Some (ExRunner ErrNilDereference), tr)
                    | Some ret, Some mayAffectedByGroupThreshold =>
                        let result :=
                          {| pbmsg.Status := pbmsg.RunStatus ret;
                             pbmsg.OutColumns := pbmsg.RunOutColumns ret;
                             pbmsg.AffectedRows := pbmsg.RunAffectedRows ret;
                             pbmsg.CostTimeS := SinceCreatedAt env;
                             pbmsg.Warnings :=
                               if mayAffectedByGroupThreshold
                               then [{| pbmsg.Reason :=
                                          groupThresholdReason |}]
                               else [] |} in
                        (st, None, tr ++ [DoSetResult result])
                    end
                  else (st, None, tr)
              end
          end
      end
  end.

Definition Execute (env : Collaborators) (r : QueryRunner)
    (st : SessionState) (usedTables : list core.DbTable)
  : QueryRunner * SessionState * option exec_error * list step :=
  if prepareAgain r then
    match prepareAgainPath env r st usedTables with
    | (r, st, Some err, tr) => (r, st, Some err, tr)
    | (r, st, None, tr) =>
        let '(st, err, tr') := compileAndRun env r st in
        (r, st, err, tr ++ tr')
    end
  else
    let '(st, err, tr) := compileAndRun env r st in
    (r, st, err, tr).

End coordinator.

Arguments SessionState : clear implicits.
Arguments Collaborators : clear implicits.
Arguments step : clear implicits.

(** ** Vocabulary of the properties *)

(** Entries of [l] that share a sort key are one and the same entry. *)
Definition key_determines {A} (key : A → string) (l : list A) : Prop :=
  ∀ x y, x ∈ l → y ∈ l → key x = key y → x = y.

(** Two answers of the info schema for one table: the same failure, or
    tables holding the same columns in some order. *)
Definition same_columns (a b : ext model.TableInfo) : Prop :=
  match a, b with
  | Got t1, Got t2 => model.Columns t1 ≡ₚ model.Columns t2
  | Failed e1, Failed e2 => e1 = e2
  | _, _ => False
  end.

Section vocabulary.
Context `{!Lib}.

(** Two runners hold the same tables per data party, the same columns
    per table and the same CCL entries, each possibly in another
    order. *)
Definition same_up_to_order (r1 r2 : QueryRunner) : Prop :=
  let dataParties :=
    application.DataParties (application.ExecuteInfo (session r1)) in
  application.DataParties (application.ExecuteInfo (session r2))
    = dataParties
  ∧ option_Forall2
      (λ e1 e2, ∀ p, p ∈ dataParties →
         translator.GetTablesByParty e1 p
           ≡ₚ translator.GetTablesByParty e2 p)
      (info r1) (info r2)
  ∧ option_Forall2
      (λ s1 s2, ∀ db tbl,
         same_columns (infoschema.TableByName s1 db tbl)
                      (infoschema.TableByName s2 db tbl))
      (is_ r1) (is_ r2)
  ∧ ccls r1 ≡ₚ ccls r2.

(** No two different tables of a data party have the same canonical
    text, no two different columns of a table the same name, no two
    different CCL entries of a table the same sort key. *)
Definition sort_keys_distinct (r : QueryRunner) : Prop :=
  (∀ e p, info r = Some e →
     p ∈ application.DataParties (application.ExecuteInfo (session r)) →
     key_determines DbTable_String (translator.GetTablesByParty e p))
  ∧ (∀ s db tbl ti, is_ r = Some s →
       infoschema.TableByName s db tbl = Got ti →
       key_determines (λ c, model.CIStr_String (model.Name c))
         (model.Columns ti))
  ∧ (∀ t, key_determines cclKey (List.filter (cclOfTable t) (ccls r))).

End vocabulary.

(** The owners of a list of tables, in the order of the tables. *)
Definition owners (ts : list storage.TableMeta) : list string :=
  (λ t, storage.Owner (storage.Table_ t)) <$> ts.

(** A sorted set of strings: strictly ascending in the byte order. *)
Definition sorted_set (l : list string) : Prop :=
  StronglySorted (λ a b, str_lt a b = true) l.

(** The table names [Prepare] hands to the metadata store, and the
    answer of the store to the [n]-th transaction of the call. *)
Definition usedNames (usedTables : list core.DbTable) : list string :=
  core.GetTableName <$> usedTables.

Definition resolution (r : QueryRunner) (n : nat)
    (usedTables : list core.DbTable)
  : list storage.TableMeta * list string * option string :=
  application.GetTableMetasByTableNames
    (application.CreateMetaTransaction
       (application.MetaMgr (application.App_ (session r))) n)
    (application.ProjectID (application.ExecuteInfo (session r)))
    (usedNames usedTables).

(** The tables the store resolved for the call: those of the second
    lookup when the first one missed some names and the PrepareAgain
    flag is not set, those of the first lookup otherwise. *)
Definition asks_peers (r : QueryRunner) (usedTables : list core.DbTable)
  : bool :=
  bool_decide ((resolution r 0 usedTables).1.2 ≠ [])
  && negb (prepareAgain r).

Definition resolved (r : QueryRunner) (usedTables : list core.DbTable)
  : list storage.TableMeta :=
  if asks_peers r usedTables then (resolution r 1 usedTables).1.1
  else (resolution r 0 usedTables).1.1.

Section vocabulary_prepare.
Context `{!Lib}.

(** What a call to [Prepare] does to the metadata store and to the
    peers: what its call to [prepareData] does. *)
Definition prepare_effects (r : QueryRunner)
    (usedTables : list core.DbTable) : list meta_event :=
  (prepareData (Clear r) (usedNames usedTables)).2.

End vocabulary_prepare.

(** ** Vocabulary of the further properties *)

Section vocabulary_exchange.
Context `{!pb.Codes}.

(** What [ExchangeJobInfo] makes of the first answer that is not
    SESSION_NOT_FOUND. *)
Definition verdict (targetParty : string)
    (answer : ext pb.ExchangeJobInfoResponse)
  : result pb.ExchangeJobInfoResponse :=
  match answer with
  | Failed msg => Err (ErrExchangeStub (ErrExternal msg))
  | Got rsp =>
      match pb.RespStatus rsp with
      | None => Ok rsp
      | Some st =>
          if pb.StatusCode st =? 0 then Ok rsp
          else if pb.StatusCode st =? pb.Code_DATA_INCONSISTENCY then Ok rsp
          else Err (ErrExchangeFailed targetParty st)
      end
  end.

End vocabulary_exchange.

(** The trace of [n] calls answered SESSION_NOT_FOUND, each followed by a
    sleep, and one more call. *)
Definition retried (url : string) (req : pb.ExchangeJobInfoRequest)
    (interval : Z) (n : nat) : list event :=
  concat (replicate n [EvExchange url req; EvSleep interval])
  ++ [EvExchange url req].

(** The planner tables [prepareData] files under party [p]: one per
    resolved table that [p] owns, in the order of the resolved tables. *)
Definition tablesOwnedBy (p : string) (ts : list storage.TableMeta)
  : list core.DbTable :=
  (λ t, core.NewDbTable (storage.ProjectID (storage.Table_ t))
                        (storage.TableName (storage.Table_ t)))
  <$> List.filter (λ t, bool_decide (storage.Owner (storage.Table_ t) = p))
        ts.

Section vocabulary_types.
Context `{!Lib}.

(** A column type that both type helpers accept, after lower-casing. *)
Definition type_accepted (dtype : string) : Prop :=
  (∃ v, TypeDefaultValue (ToLower dtype) = Got v)
  ∧ (∃ t, TypeConversion (ToLower dtype) = Got t).

End vocabulary_types.

(** A party that is not this party. *)
Definition other_than (self : string) (p : string) : bool :=
  negb (bool_decide (p = self)).

(** The parties of the steps that working through the data parties
    leaves behind. *)
Definition compared {S} (tr : list (step S)) : list string :=
  omap (λ st, match st with DoCompare p => Some p | _ => None end) tr.

Definition exchanged {S} (tr : list (step S)) : list string :=
  omap (λ st, match st with DoExchange p _ => Some p | _ => None end) tr.

Definition saved_remote {S} (tr : list (step S)) : list string :=
  omap (λ st, match st with DoSaveRemoteChecksum p _ => Some p | _ => None end)
       tr.

Definition saved_local {S} (tr : list (step S))
  : list (string * application.Checksum) :=
  omap (λ st, match st with
              | DoSaveLocalChecksum code checksum => Some (code, checksum)
              | _ => None
              end) tr.

(** The checksum store answers EQUAL for every data party other than
    this party. *)
Definition all_equal {S} (env : Collaborators S) (r : QueryRunner)
    (st : SessionState S) : Prop :=
  ∀ p,
    p ∈ application.DataParties (application.ExecuteInfo (session r)) →
    p ≠ application.GetSelfPartyCode (session r) →
    CompareChecksumFor env (Checksums st) p
    = Got (ChecksumCompareResult_EQUAL env).

(** The steps of the first part of [Execute], up to the second checksum
    check, and those of the second part, from compilation on. *)
Definition is_check_step {S} (s : step S) : bool :=
  match s with
  | DoSaveLocalChecksum _ _ | DoCompare _ => true
  | _ => false
  end.

Definition is_run_step {S} (s : step S) : bool :=
  match s with
  | DoCompile _ | DoPersist _ | DoRunExecutionPlan _ _ | DoSetResult _ =>
      true
  | _ => false
  end.

(** The data parties [GetChecksumFromOtherParties] has to ask: all but
    the issuer and this party. *)
Definition others (r : QueryRunner) (issuerParty : string) : list string :=
  List.filter
    (λ p, negb (bool_decide (p = issuerParty)
                || bool_decide
                     (p = application.GetSelfPartyCode (session r))))
    (application.DataParties (application.ExecuteInfo (session r))).

(** The ticks among the first [n] at which the lease was obtained. *)
Definition lease_held (app : application.App) (owner : string) (n : nat)
  : list nat :=
  List.filter
    (λ k, bool_decide
            (application.HoldGcLock (application.MetaMgr app) k owner
               (application.SessionCheckInterval (application.Conf app))
             = None))
    (seq 0 n).

Definition is_clear (e : gc.gc_event) : bool :=
  match e with gc.CallClearExpiredResults _ => true | _ => false end.
Definition is_hold (e : gc.gc_event) : bool :=
  match e with gc.CallHoldGcLock _ _ => true | _ => false end.
Definition is_check (e : gc.gc_event) : bool :=
  match e with gc.CallCheckIdCanceled _ => true | _ => false end.

(** ** Concrete inputs

    A choice of the open helpers and a small project with two parties,
    on which the definitions above can be run. *)
Module Sample.

Definition codes : pb.Codes :=
  {| pb.Code_SESSION_NOT_FOUND := 320;
     pb.Code_DATA_INCONSISTENCY := 340 |}.

Definition findTable (name : string) (infos : list model.TableInfo)
  : ext model.TableInfo :=
  match List.find
          (λ ti, bool_decide (model.O (model.TblName ti) = name))
          infos with
  | Some ti => Got ti
  | None => Failed "table does not exist"
  end.

Definition lib : Lib :=
  {| DbTable_String t := core.dbName t +:+ "." +:+ core.tableName t;
     NewDbTableFromString s := Got (core.NewDbTable "" s);
     ParseDBType s :=
       if bool_decide (s = "mysql") then Got 1 else Failed "unknown db type";
     GetTypeDesc c := model.FieldType c;
     Visibility_String v :=
       if v =? 1 then "PLAINTEXT" else
       if v =? 2 then "ENCRYPTED_ONLY" else "UNKNOWN";
     Visibility_value s :=
       if bool_decide (s = "PLAINTEXT") then 1 else
       if bool_decide (s = "ENCRYPTED_ONLY") then 2 else 0;
     ToUpper s := s;
     ToLower s := s;
     Sprint i := "";
     TypeDefaultValue s := Got "";
     TypeConversion s := Got s;
     MockInfoSchema m :=
       {| infoschema.TableByName db tbl :=
            match m !! model.O db with
            | Some infos => findTable (model.O tbl) infos
            | None => Failed "database does not exist"
            end |};
     EngineCallbackPath := "/cb" |}.

Definition conf (self : string) (retryTimes : Z) : application.Config :=
  {| application.PartyCode := self;
     application.ExchangeJobInfoRetryTimes := retryTimes;
     application.ExchangeJobInfoRetryInterval := 200;
     application.SessionCheckInterval := 60;
     application.SessionExpireTime := 3600;
     application.IntraServerProtocol := "http";
     application.EngineProtocol := "http";
     application.EngineContentType := "application/json" |}.

Definition partyMgr : application.PartyMgr_ :=
  {| application.GetBrokerUrlByParty p := Got ("broker." +:+ p);
     application.GetPubKeyByParty p := Got ("key." +:+ p);
     application.GetPartyInfoByParties ps :=
       Got (translator.NewPartyInfo
              ((λ p, {| translator.PartyCode := p;
                        translator.Endpoints := ["engine." +:+ p];
                        translator.PubKey := "key." +:+ p |}) <$> ps)) |}.

Definition column (name ty : string) : storage.ColumnMeta :=
  {| storage.ColumnName := name; storage.DType := ty |}.

Definition tableMeta (name owner : string)
    (cols : list storage.ColumnMeta) : storage.TableMeta :=
  {| storage.Table_ :=
       {| storage.ProjectID := "demo"; storage.TableName := name;
          storage.Owner := owner; storage.RefTable := "db." +:+ name;
          storage.DBType := "mysql" |};
     storage.Columns := cols |}.

Definition ta : storage.TableMeta :=
  tableMeta "ta" "alice" [column "id" "int"; column "income" "float"].
Definition tb : storage.TableMeta :=
  tableMeta "tb" "bob" [column "id" "int"; column "debt" "float"].
Definition tc : storage.TableMeta :=
  tableMeta "tc" "bob" [column "id" "int"].

(** A store that knows the tables in [known] and no others, whatever
    the peers are asked. *)
Definition resolve (known : list storage.TableMeta) (names : list string)
  : list storage.TableMeta * list string * option string :=
  (List.filter
     (λ t, bool_decide (storage.TableName (storage.Table_ t) ∈ names))
     known,
   List.filter
     (λ n, bool_decide
             (n ∉ (λ t, storage.TableName (storage.Table_ t)) <$> known))
     names,
   None).

Definition priv (table col dest p : string) : storage.ColumnPriv :=
  {| storage.PrivProjectID := "demo"; storage.PrivTableName := table;
     storage.PrivColumnName := col; storage.DestParty := dest;
     storage.Priv := p |}.

Definition txn (known : list storage.TableMeta)
  : application.MetaTransaction :=
  {| application.GetTableMetasByTableNames _ names := resolve known names;
     application.GetProjectMembers _ := Got ["alice"; "bob"];
     application.ListColumnConstraints _ _ _ :=
       ([priv "ta" "id" "bob" "PLAINTEXT";
         priv "tb" "id" "alice" "ENCRYPTED_ONLY"], None);
     application.Commit := None |}.

Definition metaMgr (known : list storage.TableMeta)
    (initGc : option string) : application.MetaManager :=
  {| application.CreateMetaTransaction _ := txn known;
     application.InitGcLockIfNecessary := initGc;
     application.HoldGcLock k _ _ :=
       if Nat.even k then None else Some "lock held by another replica";
     application.ClearExpiredResults k _ :=
       if (k =? 2)%nat then Some "scan failed" else None;
     application.CheckIdCanceled k ids :=
       if (k =? 1)%nat then Failed "store unreachable"
       else Got (List.filter (λ id, bool_decide (id = "job2")) ids) |}.

Definition app (self : string) (retryTimes : Z)
    (known : list storage.TableMeta) (initGc : option string)
  : application.App :=
  {| application.Conf := conf self retryTimes;
     application.PartyMgr := partyMgr;
     application.MetaMgr := metaMgr known initGc;
     application.AskProjectInfoFromParties _ _ _ _ := None |}.

Definition status (code : Z) : option pb.Status :=
  Some {| pb.StatusCode := code; pb.Message := "" |}.

Definition response (st : option pb.Status) : pb.ExchangeJobInfoResponse :=
  {| pb.RespStatus := st; pb.ExpectedServerChecksum := None |}.

Definition newSession (self issuer : string) (parties : list string)
    (a : application.App) (stub : nat → ext pb.ExchangeJobInfoResponse)
  : application.Session :=
  {| application.ExecuteInfo :=
       {| application.ProjectID := "demo";
          application.JobID := "job1";
          application.Issuer := {| pb.Code := issuer |};
          application.Query := "select 1";
          application.CompileOpts := "";
          application.DebugOpts := "";
          application.DataParties := parties;
          application.InterStub :=
            {| application.ExchangeJobInfo k _ _ := stub k |};
          application.EngineClient := "" |};
     application.App_ := a;
     application.AsyncMode := true;
     application.CallBackHost := "broker." +:+ self;
     application.GetSelfPartyCode := self;
     application.GetLocalChecksum _ :=
       Got {| application.TableSchema := []; application.CCL := [] |};
     application.GetEndpoint p := Got ("engine." +:+ p);
     application.IsIssuer := bool_decide (self = issuer);
     application.EngineEndpointForSelf := "engine." +:+ self |}.

(** The peer has no session yet on the first two calls and answers
    with success on the third. *)
Definition stub_late (k : nat) : ext pb.ExchangeJobInfoResponse :=
  if (k <? 2)%nat then Got (response (status 320))
  else Got (response (status 0)).

(** The peer answers without a status object. *)
Definition stub_no_status (k : nat) : ext pb.ExchangeJobInfoResponse :=
  Got (response None).

Definition alice (retryTimes : Z) (known : list storage.TableMeta)
    (stub : nat → ext pb.ExchangeJobInfoResponse) : QueryRunner :=
  NewQueryRunner
    (newSession "alice" "alice" ["alice"; "bob"]
       (app "alice" retryTimes known None) stub).

Definition carol (known : list storage.TableMeta) : QueryRunner :=
  NewQueryRunner
    (newSession "carol" "carol" ["alice"; "bob"]
       (app "carol" 3 known None) stub_late).

(** Runners for [CreateChecksum]: alice owns the table [demo.ta]. *)
Definition columnInfo (i : Z) (name ty : string) : model.ColumnInfo :=
  {| model.ID := i; model.Name := model.NewCIStr name; model.Offset := i;
     model.DefaultValue := ""; model.FieldType := ty |}.

Definition schemaOf (cols : list model.ColumnInfo)
  : infoschema.InfoSchema :=
  @MockInfoSchema lib
    {[ "demo" := [ {| model.TblID := 0; model.TableId := "0";
                      model.TblName := model.NewCIStr "ta";
                      model.Columns := cols |} ] ]}.

Definition ccl (col party : string) (vis : Z)
  : pb.SecurityConfig_ColumnControl :=
  {| pb.PartyCode := party; pb.Visibility := vis;
     pb.DatabaseName := "demo"; pb.TableName := "ta";
     pb.ColumnName := col |}.

Definition checksumRunner (cols : list model.ColumnInfo)
    (cs : list pb.SecurityConfig_ColumnControl) : QueryRunner :=
  {| session :=
       newSession "alice" "alice" ["alice"]
         (app "alice" 3 [ta] None) stub_late;
     info :=
       Some {| translator.partyInfo := translator.NewPartyInfo [];
               translator.partyToTables :=
                 {[ "alice" := [core.NewDbTable "demo" "ta"] ]};
               translator.tableToRefs := ∅ |};
     is_ := Some (schemaOf cols);
     ccls := cs;
     tables := [ta];
     prepareAgain := false |}.

Definition idCol : model.ColumnInfo := columnInfo 0 "id" "int".
Definition incomeCol : model.ColumnInfo := columnInfo 1 "income" "float".

(** Two orders of the same columns and CCL entries, all with different
    sort keys. *)
Definition ordered1 : QueryRunner :=
  checksumRunner [idCol; incomeCol]
    [ccl "id" "bob" 1; ccl "income" "bob" 2].
Definition ordered2 : QueryRunner :=
  checksumRunner [incomeCol; idCol]
    [ccl "income" "bob" 2; ccl "id" "bob" 1].

(** Two CCL entries of [demo.ta], for different columns and different
    parties, whose sort keys are both "ta amount usd bank". *)
Definition tied1 : QueryRunner :=
  checksumRunner [idCol]
    [ccl "amount" "usd bank" 1; ccl "amount usd" "bank" 1].
Definition tied2 : QueryRunner :=
  checksumRunner [idCol]
    [ccl "amount usd" "bank" 1; ccl "amount" "usd bank" 1].

(** A compiled plan for alice and bob. *)
Definition plan : pb.CompiledPlan :=
  {| pb.Parties := [ {| pb.Code := "alice" |}; {| pb.Code := "bob" |} ];
     pb.SubGraphs := {[ "alice" := "graph-a"; "bob" := "graph-b" ]};
     pb.SpuRuntimeConf := "semi2k";
     pb.Schema :=
       Some {| pb.Columns := [ {| pb.Name := "id" |};
                               {| pb.Name := "total" |} ] |};
     pb.MayAffectedByGroupThreshold := false |}.

Definition bob : QueryRunner :=
  NewQueryRunner
    (newSession "bob" "alice" ["alice"; "bob"]
       (app "bob" 3 [ta; tb] None) stub_late).

(** The in-memory registry with two sessions. *)
Definition registry : gmap string application.Session :=
  {[ "job1" := session (alice 3 [ta; tb] stub_late);
     "job2" := session bob ]}.

(** The tables a query names. *)
Definition used (names : list string) : list core.DbTable :=
  core.NewDbTable "demo" <$> names.

End Sample.

(** ** Further concrete inputs

    Peers, collaborators of [Execute] and a session state to run the
    rest of the runner on. *)
Module Scenario.

(** The peer has no session on the first call and reports inconsistent
    data on the second. *)
Definition stub_inconsistent (k : nat) : ext pb.ExchangeJobInfoResponse :=
  if (k <? 1)%nat then Got (Sample.response (Sample.status 320))
  else Got (Sample.response (Sample.status 340)).

(** The peer never has the session. *)
Definition stub_never (k : nat) : ext pb.ExchangeJobInfoResponse :=
  Got (Sample.response (Sample.status 320)).

(** The peer cannot be reached. *)
Definition stub_down (k : nat) : ext pb.ExchangeJobInfoResponse :=
  Failed "connection refused".

(** The request alice sends to a data party. *)
Definition request : pb.ExchangeJobInfoRequest :=
  {| pb.ProjectId := "demo"; pb.JobId := "job1";
     pb.ClientId := Some {| pb.Code := "alice" |};
     pb.ServerChecksum := Some {| pb.TableSchema := []; pb.Ccl := [] |} |}.

(** A CCL entry of a table that no party of the sample project owns. *)
Definition foreign : pb.SecurityConfig_ColumnControl :=
  {| pb.PartyCode := "bob"; pb.Visibility := 1;
     pb.DatabaseName := "demo"; pb.TableName := "tz";
     pb.ColumnName := "id" |}.

(** The checksum store keeps the codes it was handed, oldest first; the
    parties in [unequal] compare as not equal. *)
Definition store : Type := list string.

Definition env (unequal : list string) (compiled : ext Compiled)
    (persisted : option string)
    (ran : ext (option pbmsg.RunExecutionPlanResponse))
  : Collaborators store :=
  {| ChecksumCompareResult_EQUAL := 0;
     CompareChecksumFor c p :=
       if bool_decide (p ∈ unequal) then Got 1 else Got 0;
     SaveLocalChecksum c code checksum := c ++ [code];
     SaveRemoteChecksum c p checksum := Got (c ++ [p]);
     RangeOrder m := map_to_list m;
     RangeOrder_each_once m := reflexivity (map_to_list m);
     Compile req := compiled;
     PersistSessionInfo st := persisted;
     RunExecutionPlan ex asyncMode := ran;
     SinceCreatedAt := "0.5" |}.

Definition compiled : Compiled :=
  {| Plan := Sample.plan; HasWarning := true |}.

Definition engineOk : pbmsg.RunExecutionPlanResponse :=
  {| pbmsg.RunStatus := Sample.status 0;
     pbmsg.RunOutColumns := ["id"; "total"];
     pbmsg.RunAffectedRows := 2 |}.

(** Everything goes well. *)
Definition fine : Collaborators store :=
  env [] (Got compiled) None (Got (Some engineOk)).

Definition st0 : SessionState store :=
  {| Checksums := []; OutputNames := []; Warning := None |}.

(** The runner with the session switched to sync mode. *)
Definition sync (r : QueryRunner) : QueryRunner :=
  set_session (application.set_AsyncMode false (session r)) r.

Definition alice : QueryRunner :=
  Sample.alice 3 [Sample.ta; Sample.tb] Sample.stub_late.

(** A store that learns of table [tb] when the peers are asked: the
    first transaction of a call knows [ta] alone, the later ones know
    both tables. *)
Definition learningApp : application.App :=
  let m := Sample.metaMgr [] None in
  {| application.Conf := Sample.conf "alice" 3;
     application.PartyMgr := Sample.partyMgr;
     application.MetaMgr :=
       {| application.CreateMetaTransaction n :=
            Sample.txn (if (n =? 0)%nat then [Sample.ta]
                        else [Sample.ta; Sample.tb]);
          application.InitGcLockIfNecessary :=
            application.InitGcLockIfNecessary m;
          application.HoldGcLock := application.HoldGcLock m;
          application.ClearExpiredResults :=
            application.ClearExpiredResults m;
          application.CheckIdCanceled := application.CheckIdCanceled m |};
     application.AskProjectInfoFromParties _ _ _ _ := None |}.

Definition learner : QueryRunner :=
  NewQueryRunner
    (Sample.newSession "alice" "alice" ["alice"; "bob"] learningApp
       Sample.stub_late).

End Scenario.

(** * Properties *)

(** ** The hash on the standard test messages *)

Example sha256_abc :
  Sha256.sum "abc" =
  Sha256.to_byte <$>
    [0xba;0x78;0x16;0xbf;0x8f;0x01;0xcf;0xea;0x41;0x41;0x40;0xde;0x5d;0xae;0x22;0x23;
     0xb0;0x03;0x61;0xa3;0x96;0x17;0x7a;0x9c;0xb4;0x10;0xff;0x61;0xf2;0x00;0x15;0xad].
Proof. vm_compute. reflexivity. Qed.

Example sha256_empty :
  Sha256.sum "" =
  Sha256.to_byte <$>
    [0xe3;0xb0;0xc4;0x42;0x98;0xfc;0x1c;0x14;0x9a;0xfb;0xf4;0xc8;0x99;0x6f;0xb9;0x24;
     0x27;0xae;0x41;0xe4;0x64;0x9b;0x93;0x4c;0xa4;0x95;0x99;0x1b;0x78;0x52;0xb8;0x55].
Proof. vm_compute. reflexivity. Qed.

Example sha256_two_blocks :
  Sha256.sum "abcdbcdecdefdefgefghfghighijhijkijkljklmklmnlmnomnopnopq" =
  Sha256.to_byte <$>
    [0x24;0x8d;0x6a;0x61;0xd2;0x06;0x38;0xb8;0xe5;0xc0;0x26;0x93;0x0c;0x3e;0x60;0x39;
     0xa3;0x3c;0xe4;0x59;0x64;0xff;0x21;0x67;0xf6;0xec;0xed;0xd4;0x19;0xdb;0x06;0xc1].
Proof. vm_compute. reflexivity. Qed.

(** ** Sorting by a string key *)

Lemma str_lt_le a b : str_lt a b = true → String.le a b.
Proof.
  unfold str_lt, String.ltb, String.le, String.leb.
  destruct (String.compare a b); done.
Qed.

Lemma str_lt_false_le a b : str_lt a b = false → String.le b a.
Proof.
  unfold str_lt, String.ltb, String.le, String.leb.
  rewrite (String.compare_antisym a b).
  destruct (String.compare b a); done.
Qed.

Lemma str_lt_irrefl a : str_lt a a = false.
Proof.
  destruct (str_lt a a) eqn:E; [|done].
  unfold str_lt, String.ltb in E.
  pose proof (String.compare_antisym a a) as Ha.
  destruct (String.compare a a); done.
Qed.

Lemma str_lt_iff a b : str_lt a b = true ↔ String.le a b ∧ a ≠ b.
Proof.
  split.
  - intros Hlt. split; [by apply str_lt_le|].
    intros ->. by rewrite str_lt_irrefl in Hlt.
  - intros [Hle Hne]. destruct (str_lt a b) eqn:E; [done|].
    apply str_lt_false_le in E. destruct Hne. by apply (anti_symm String.le).
Qed.

Section sort_by_key.
Context {A : Type} (key : A → string).

Let less (a b : A) : bool := str_lt (key a) (key b).
Let ge (a b : A) : Prop := String.le (key b) (key a).

Lemma sort_insert_perm x l : sort.insert less x l ≡ₚ x :: l.
Proof.
  induction l as [|y l IH]; simpl; [done|].
  destruct (less x y); [|done].
  rewrite IH. apply Permutation_swap.
Qed.

Lemma sort_fold_perm l acc :
  fold_left (λ rprefix e, sort.insert less e rprefix) l acc ≡ₚ l ++ acc.
Proof.
  revert acc. induction l as [|x l IH]; intros acc; simpl; [done|].
  rewrite IH, sort_insert_perm. by rewrite Permutation_middle.
Qed.

Lemma sort_Slice_perm l : sort.Slice less l ≡ₚ l.
Proof.
  unfold sort.Slice. rewrite <-Permutation_rev.
  rewrite sort_fold_perm. by rewrite app_nil_r.
Qed.

Lemma sort_insert_sorted x l :
  StronglySorted ge l → StronglySorted ge (sort.insert less x l).
Proof.
  induction 1 as [|y l Hl IH Hy]; simpl.
  - repeat constructor.
  - destruct (less x y) eqn:E.
    + constructor; [done|].
      rewrite sort_insert_perm. constructor; [|done].
      by apply str_lt_le.
    + apply str_lt_false_le in E.
      constructor; [by constructor|].
      constructor; [done|].
      eapply Forall_impl; [exact Hy|].
      intros z Hz. unfold ge in *. by etrans.
Qed.

Lemma sort_fold_sorted l acc :
  StronglySorted ge acc →
  StronglySorted ge
    (fold_left (λ rprefix e, sort.insert less e rprefix) l acc).
Proof.
  revert acc. induction l as [|x l IH]; intros acc Hacc; simpl; [done|].
  by apply IH, sort_insert_sorted.
Qed.

Lemma StronglySorted_rev_flip (R : relation A) l :
  StronglySorted R l → StronglySorted (flip R) (rev l).
Proof.
  induction 1 as [|x l Hl IH Hx]; simpl; [constructor|].
  apply StronglySorted_app. split_and!.
  - intros a b Ha Hb. apply list_elem_of_singleton in Hb as ->.
    rewrite Forall_forall in Hx. apply Hx.
    by apply list_elem_of_In, in_rev, list_elem_of_In.
  - done.
  - repeat constructor.
Qed.

Lemma sort_Slice_sorted l :
  StronglySorted (λ a b, String.le (key a) (key b)) (sort.Slice less l).
Proof.
  unfold sort.Slice.
  apply (StronglySorted_rev_flip ge), sort_fold_sorted. constructor.
Qed.

(** Where entries that share a key are equal, the sorted slice does not
    depend on the order of the input. *)
Lemma sort_Slice_perm_eq l1 l2 :
  (∀ x y, x ∈ l1 → y ∈ l1 → key x = key y → x = y) →
  l1 ≡ₚ l2 →
  sort.Slice less l1 = sort.Slice less l2.
Proof.
  intros Hinj Hperm.
  eapply StronglySorted_unique_strong;
    [|apply sort_Slice_sorted|apply sort_Slice_sorted|].
  - intros x y Hx Hy Hxy Hyx.
    rewrite sort_Slice_perm in Hx. rewrite sort_Slice_perm, <-Hperm in Hy.
    apply Hinj; [done..|]. by apply (anti_symm String.le).
  - by rewrite !sort_Slice_perm.
Qed.

(** Where entries that share a key are equal, every way of putting the
    slice in order gives the slice [sort.Slice] gives. *)
Lemma sort_Slice_unique l l' :
  (∀ x y, x ∈ l → y ∈ l → key x = key y → x = y) →
  l' ≡ₚ l →
  StronglySorted (λ a b, String.le (key a) (key b)) l' →
  l' = sort.Slice less l.
Proof.
  intros Hinj Hperm Hsorted.
  eapply StronglySorted_unique_strong;
    [|exact Hsorted|apply sort_Slice_sorted|].
  - intros x y Hx Hy Hxy Hyx.
    rewrite Hperm in Hx. rewrite sort_Slice_perm in Hy.
    apply Hinj; [done..|]. by apply (anti_symm String.le).
  - by rewrite sort_Slice_perm.
Qed.

(** A slice that is already in order is left as it is, so sorting in
    place a slice that was sorted before changes nothing. *)
Lemma sort_fold_sorted_input l acc :
  StronglySorted (λ a b, String.le (key a) (key b)) l →
  (∀ a b, a ∈ acc → b ∈ l → String.le (key a) (key b)) →
  fold_left (λ rprefix e, sort.insert less e rprefix) l acc = rev l ++ acc.
Proof.
  intros Hl. revert acc.
  induction Hl as [|x l Hl IH Hx]; intros acc Hacc; simpl; [done|].
  assert (sort.insert less x acc = x :: acc) as ->.
  { destruct acc as [|y acc]; simpl; [done|].
    destruct (less x y) eqn:E; [|done].
    apply str_lt_iff in E as [Hxy Hne]. destruct Hne.
    apply (anti_symm String.le); [done|].
    apply Hacc; by left. }
  rewrite IH, <-app_assoc; [done|].
  rewrite Forall_forall in Hx.
  intros a b [->|Ha]%elem_of_cons Hb; [by apply Hx|].
  apply Hacc; [done|by right].
Qed.

Lemma sort_Slice_sorted_input l :
  StronglySorted (λ a b, String.le (key a) (key b)) l →
  sort.Slice less l = l.
Proof.
  intros Hl. unfold sort.Slice.
  rewrite sort_fold_sorted_input, app_nil_r, rev_involutive; [done..|].
  intros a b Ha. inversion Ha.
Qed.

Lemma sort_Slice_idempotent l :
  sort.Slice less (sort.Slice less l) = sort.Slice less l.
Proof. apply sort_Slice_sorted_input, sort_Slice_sorted. Qed.

End sort_by_key.

Lemma filter_Permutation {A} (f : A → bool) (l1 l2 : list A) :
  l1 ≡ₚ l2 → List.filter f l1 ≡ₚ List.filter f l2.
Proof.
  induction 1 as [|x l1 l2 _ IH|x y l|l1 l2 l3 _ IH1 _ IH2]; simpl.
  - done.
  - destruct (f x); by rewrite IH.
  - destruct (f x), (f y); try done. apply Permutation_swap.
  - by etrans.
Qed.

(** ** CreateChecksum *)

Section checksum_props.
Context `{!Lib}.

Lemma checksumTables_same_up_to_order s1 s2 ccls1 ccls2 ts h c :
  option_Forall2
    (λ s1 s2, ∀ db tbl,
       same_columns (infoschema.TableByName s1 db tbl)
                    (infoschema.TableByName s2 db tbl)) s1 s2 →
  ccls1 ≡ₚ ccls2 →
  (∀ s db tbl ti, s1 = Some s →
     infoschema.TableByName s db tbl = Got ti →
     key_determines (λ c, model.CIStr_String (model.Name c))
       (model.Columns ti)) →
  (∀ t, key_determines cclKey (List.filter (cclOfTable t) ccls1)) →
  checksumTables s1 ccls1 ts h c = checksumTables s2 ccls2 ts h c.
Proof.
  intros Hs Hccls Hcols Hkeys. revert h c.
  induction ts as [|t ts IH]; intros h c; simpl; [done|].
  destruct Hs as [sch1 sch2 Hsch|]; [|done].
  specialize (Hsch (model.NewCIStr (core.GetDbName t))
                   (model.NewCIStr (core.GetTableName t))).
  specialize (Hcols sch1 (model.NewCIStr (core.GetDbName t))
                    (model.NewCIStr (core.GetTableName t))).
  destruct (infoschema.TableByName sch1 _ _) as [ti1|e1],
           (infoschema.TableByName sch2 _ _) as [ti2|e2];
    simpl in Hsch; try done; [|by subst].
  unfold columnLess, cclLess.
  rewrite (sort_Slice_perm_eq
             (λ c, model.CIStr_String (model.Name c))
             (model.Columns ti1) (model.Columns ti2));
    [|by eapply Hcols|done].
  rewrite (sort_Slice_perm_eq cclKey
             (List.filter (cclOfTable t) ccls1)
             (List.filter (cclOfTable t) ccls2));
    [|by apply Hkeys|by apply filter_Permutation].
  apply IH.
Qed.

Lemma checksumParties_same_up_to_order r1 r2 ps m :
  option_Forall2
    (λ e1 e2, ∀ p, p ∈ ps →
       translator.GetTablesByParty e1 p
         ≡ₚ translator.GetTablesByParty e2 p)
    (info r1) (info r2) →
  option_Forall2
    (λ s1 s2, ∀ db tbl,
       same_columns (infoschema.TableByName s1 db tbl)
                    (infoschema.TableByName s2 db tbl))
    (is_ r1) (is_ r2) →
  ccls r1 ≡ₚ ccls r2 →
  (∀ e p, info r1 = Some e → p ∈ ps →
     key_determines DbTable_String (translator.GetTablesByParty e p)) →
  (∀ s db tbl ti, is_ r1 = Some s →
     infoschema.TableByName s db tbl = Got ti →
     key_determines (λ c, model.CIStr_String (model.Name c))
       (model.Columns ti)) →
  (∀ t, key_determines cclKey (List.filter (cclOfTable t) (ccls r1))) →
  checksumParties r1 ps m = checksumParties r2 ps m.
Proof.
  intros Hinfo His Hccls Htbl Hcols Hkeys. revert m.
  induction ps as [|p ps IH]; intros m; simpl; [done|].
  destruct Hinfo as [e1 e2 He|]; [|done].
  unfold tableLess.
  rewrite (sort_Slice_perm_eq DbTable_String
             (translator.GetTablesByParty e1 p)
             (translator.GetTablesByParty e2 p));
    [|apply Htbl; [done|by left]|apply He; by left].
  rewrite (checksumTables_same_up_to_order (is_ r1) (is_ r2)
             (ccls r1) (ccls r2)) by done.
  destruct (checksumTables (is_ r2) (ccls r2) _ "" "") as [[sc cc]|e];
    [|done].
  apply IH.
  - constructor. intros q Hq. apply He. by right.
  - intros e q [= <-] Hq. apply Htbl; [done|by right].
Qed.

End checksum_props.

(** X30.  For every data party, [CreateChecksum] gives the same schema
    and CCL fingerprints on two inputs that hold the same tables,
    columns and CCL entries in different orders, provided that the
    entries that are sorted together have different sort keys: the
    tables of a party different canonical texts, the columns of a table
    different names, the CCL entries of a table different space-joined
    (table, column, party) keys.  The whole result, failure included, is
    the same. *)
Theorem CreateChecksum_order_independent `{!Lib} (r1 r2 : QueryRunner) :
  same_up_to_order r1 r2 →
  sort_keys_distinct r1 →
  CreateChecksum r1 = CreateChecksum r2.
Proof.
  intros (Hparties & Hinfo & His & Hccls) (Htbl & Hcols & Hkeys).
  unfold CreateChecksum. rewrite Hparties.
  by apply checksumParties_same_up_to_order.
Qed.

Lemma CreateChecksum_order_independent_witness :
  same_up_to_order Sample.ordered1 Sample.ordered2
  ∧ @sort_keys_distinct Sample.lib Sample.ordered1
  ∧ @CreateChecksum Sample.lib Sample.ordered1
    = @CreateChecksum Sample.lib Sample.ordered2.
Proof.
  assert (same_up_to_order Sample.ordered1 Sample.ordered2) as Hsame.
  { split_and!.
    - reflexivity.
    - constructor. intros p _. reflexivity.
    - constructor. intros db tbl. simpl.
      destruct (decide (model.O db = "demo")) as [->|Hne];
        [rewrite !lookup_singleton_eq
        |rewrite !lookup_singleton_ne by done; exact eq_refl].
      unfold Sample.findTable. simpl.
      destruct (bool_decide _); simpl; [|exact eq_refl].
      apply Permutation_swap.
    - apply Permutation_swap. }
  assert (@sort_keys_distinct Sample.lib Sample.ordered1) as Hkeys.
  { split_and!.
    - intros e p [= <-] _ x y. unfold translator.GetTablesByParty. simpl.
      destruct (_ !! p) as [ts|] eqn:Hp; simpl.
      + apply lookup_singleton_Some in Hp as [_ <-].
        intros ->%list_elem_of_singleton ->%list_elem_of_singleton _.
        reflexivity.
      + intros Hx. inversion Hx.
    - intros s db tbl ti [= <-]. simpl.
      destruct (_ !! model.O db) as [infos|] eqn:Hdb; [|discriminate].
      apply lookup_singleton_Some in Hdb as [_ <-].
      unfold Sample.findTable. simpl.
      destruct (bool_decide _); [|discriminate].
      intros [= <-] x y Hx Hy Hk. simpl in Hx, Hy.
      apply list_elem_of_In in Hx, Hy. simpl in Hx, Hy.
      destruct Hx as [<-|[<-|[]]], Hy as [<-|[<-|[]]];
        first [reflexivity | discriminate Hk].
    - intros t x y Hx Hy Hk.
      apply list_elem_of_In, filter_In in Hx as [Hx _].
      apply list_elem_of_In, filter_In in Hy as [Hy _].
      simpl in Hx, Hy.
      destruct Hx as [<-|[<-|[]]], Hy as [<-|[<-|[]]];
        first [reflexivity | discriminate Hk]. }
  split_and!; [exact Hsame|exact Hkeys|].
  exact (@CreateChecksum_order_independent Sample.lib _ _ Hsame Hkeys).
Defined.

(** C1 fails on the code.  The sort of lines 103 to 106 is written to
    put the CCL entries of a table in the order of their table, column
    and party, but it compares the three joined by a space, and two
    different triples can join to the same text: column "amount" with
    party "usd bank" and column "amount usd" with party "bank" both give
    "ta amount usd bank".  The sort leaves such a pair in the order it
    arrived in, the two entries are hashed in that order, and the CCL
    fingerprint of alice differs between two inputs that hold the same
    tables, columns and CCL entries in different orders. *)
Lemma CreateChecksum_tied_keys_order_dependent :
  same_up_to_order Sample.tied1 Sample.tied2
  ∧ NoDup ((λ c, (pb.TableName c, pb.ColumnName c, pb.PartyCode c))
             <$> ccls Sample.tied1)
  ∧ ∃ m1 m2 c1 c2,
      @CreateChecksum Sample.lib Sample.tied1 = Ok m1
      ∧ @CreateChecksum Sample.lib Sample.tied2 = Ok m2
      ∧ m1 !! "alice" = Some c1 ∧ m2 !! "alice" = Some c2
      ∧ application.CCL c1 ≠ application.CCL c2.
Proof.
  split_and!.
  - split_and!.
    + reflexivity.
    + constructor. intros p _. reflexivity.
    + constructor. intros db tbl. simpl.
      destruct (decide (model.O db = "demo")) as [->|Hne];
        [rewrite !lookup_singleton_eq
        |rewrite !lookup_singleton_ne by done; exact eq_refl].
      unfold Sample.findTable. simpl.
      destruct (bool_decide _); simpl; [reflexivity|exact eq_refl].
    + apply Permutation_swap.
  - apply (bool_decide_unpack _). vm_compute. exact I.
  - eexists _, _, _, _. split_and!.
    + vm_compute. reflexivity.
    + vm_compute. reflexivity.
    + vm_compute. reflexivity.
    + vm_compute. reflexivity.
    + vm_compute. discriminate.
Qed.

(** ** ExchangeJobInfo *)

Lemma attempts_app tr1 tr2 : attempts (tr1 ++ tr2) = (attempts tr1 + attempts tr2)%nat.
Proof. unfold attempts. by rewrite List.filter_app, length_app. Qed.

Lemma sleeps_app tr1 tr2 : sleeps (tr1 ++ tr2) = (sleeps tr1 + sleeps tr2)%nat.
Proof. unfold sleeps. by rewrite List.filter_app, length_app. Qed.

Section exchange_props.
Context `{!pb.Codes}.

(** What the retry loop adds to the trace: at most [left] calls, all
    with the same address and request, each but the last answered with
    SESSION_NOT_FOUND. *)
Lemma exchangeLoop_trace s url req left i rsp tr :
  0 ≤ i →
  ∃ evs,
    (exchangeLoop s url req left i rsp tr).2 = tr ++ evs
    ∧ (attempts evs ≤ left)%nat
    ∧ (∀ e, e ∈ evs → is_exchange e = true → e = EvExchange url req)
    ∧ (∀ j, (S j < attempts evs)%nat →
         ∃ rsp',
           application.ExchangeJobInfo
             (application.InterStub (application.ExecuteInfo s))
             (Z.to_nat i + j) url req = Got rsp'
           ∧ pb.GetCode (pb.GetStatus rsp') = pb.Code_SESSION_NOT_FOUND).
Proof.
  revert i rsp tr.
  induction left as [|left IH]; intros i rsp tr Hi; simpl.
  { exists []. rewrite app_nil_r. split_and!; [done|done|set_solver|].
    intros j Hj. unfold attempts in Hj. simpl in Hj. lia. }
  assert (∀ evs : list event,
            evs = [EvExchange url req] →
            (attempts evs ≤ S left)%nat
            ∧ (∀ e, e ∈ evs → is_exchange e = true → e = EvExchange url req)
            ∧ (∀ j, (S j < attempts evs)%nat →
                 ∃ rsp',
                   application.ExchangeJobInfo
                     (application.InterStub (application.ExecuteInfo s))
                     (Z.to_nat i + j) url req = Got rsp'
                   ∧ pb.GetCode (pb.GetStatus rsp')
                     = pb.Code_SESSION_NOT_FOUND)) as Hone.
  { intros evs ->. split_and!.
    - unfold attempts. simpl. lia.
    - by intros e ->%list_elem_of_singleton _.
    - intros j Hj. unfold attempts in Hj. simpl in Hj. lia. }
  destruct (application.ExchangeJobInfo _ (Z.to_nat i) url req)
    as [rsp'|msg] eqn:Hstub.
  2: { exists [EvExchange url req]. split; [done|]. by apply Hone. }
  destruct (pb.GetCode (pb.GetStatus rsp') =? pb.Code_SESSION_NOT_FOUND)
    eqn:Hcode.
  2: { destruct (pb.GetCode (pb.GetStatus rsp') =? 0);
         exists [EvExchange url req]; (split; [done|]); by apply Hone. }
  apply Z.eqb_eq in Hcode.
  set (tr' := if i <? _ then _ else _).
  destruct (IH (i + 1) rsp' tr' ltac:(lia))
    as (evs & -> & Hle & Hsame & Hsnf).
  assert (∃ sl, tr' = (tr ++ [EvExchange url req]) ++ sl
                ∧ attempts sl = O
                ∧ ∀ e, e ∈ sl → is_exchange e = false) as (sl & -> & Hsl & Hsl').
  { subst tr'. destruct (i <? _).
    - eexists [_]. split_and!; [done..|].
      by intros e ->%list_elem_of_singleton.
    - exists []. rewrite app_nil_r. split_and!; [done..|].
      intros e He. inversion He. }
  exists ([EvExchange url req] ++ sl ++ evs).
  split; [by rewrite <-!app_assoc|].
  rewrite !attempts_app, Hsl.
  change (attempts [EvExchange url req]) with 1%nat. split_and!.
  - lia.
  - intros e. rewrite !elem_of_app.
    intros [->%list_elem_of_singleton|[He|He]] Hex; [done| |by apply Hsame].
    apply Hsl' in He. congruence.
  - intros [|j] Hj.
    + exists rsp'. by rewrite Nat.add_0_r.
    + destruct (Hsnf j) as (rsp'' & Hstub' & Hcode'); [lia|].
      exists rsp''. split; [|done].
      rewrite <-Hstub'. f_equal. lia.
Qed.

Lemma ExchangeJobInfo_trace (r : QueryRunner) (targetParty : string) :
  ∃ url req,
    (attempts (ExchangeJobInfo r targetParty).2
     ≤ Z.to_nat (application.ExchangeJobInfoRetryTimes
                   (application.Conf (application.App_ (session r)))))%nat
    ∧ (∀ e, e ∈ (ExchangeJobInfo r targetParty).2 →
         is_exchange e = true → e = EvExchange url req)
    ∧ (∀ j, (S j < attempts (ExchangeJobInfo r targetParty).2)%nat →
         ∃ rsp,
           application.ExchangeJobInfo
             (application.InterStub
                (application.ExecuteInfo (session r)))
             j url req = Got rsp
           ∧ pb.GetCode (pb.GetStatus rsp) = pb.Code_SESSION_NOT_FOUND).
Proof.
  unfold ExchangeJobInfo.
  destruct (exchangeRequest r targetParty) as [req|e].
  2: { exists "", {| pb.ProjectId := ""; pb.JobId := ""; pb.ClientId := None; pb.ServerChecksum := None |}. unfold attempts. simpl. split_and!; [lia|set_solver|lia]. }
  destruct (application.GetBrokerUrlByParty _ targetParty) as [url|msg].
  2: { exists "", req. unfold attempts. simpl. split_and!; [lia|set_solver|lia]. }
  exists url, req.
  destruct (exchangeLoop_trace (session r) url req
              (Z.to_nat (application.ExchangeJobInfoRetryTimes
                 (application.Conf (application.App_ (session r)))))
              0 {| pb.RespStatus := None;
                   pb.ExpectedServerChecksum := None |} [] ltac:(lia))
    as (evs & Htr & Hle & Hsame & Hsnf).
  simpl in Htr.
  destruct (exchangeLoop _ _ _ _ _ _ _) as [[ret|rsp] tr]; simpl in Htr;
    subst tr.
  - done.
  - destruct (pb.RespStatus rsp) as [st|]; [|done].
    by destruct (pb.StatusCode st =? pb.Code_DATA_INCONSISTENCY).
Qed.

End exchange_props.

Example ExchangeJobInfo_late_peer :
  (@ExchangeJobInfo Sample.codes
     (Sample.alice 3 [] Sample.stub_late) "bob").2
  = let req :=
      {| pb.ProjectId := "demo"; pb.JobId := "job1";
         pb.ClientId := Some {| pb.Code := "alice" |};
         pb.ServerChecksum := Some {| pb.TableSchema := []; pb.Ccl := [] |} |}
    in
    [EvExchange "broker.bob" req; EvSleep 200;
     EvExchange "broker.bob" req; EvSleep 200;
     EvExchange "broker.bob" req].
Proof. reflexivity. Qed.

(** With two attempts allowed and a peer that has no session yet, the
    second answer is not followed by a sleep and the call fails. *)
Example ExchangeJobInfo_budget_exhausted :
  @ExchangeJobInfo Sample.codes (Sample.alice 2 [] Sample.stub_late) "carol"
  = let req :=
      {| pb.ProjectId := "demo"; pb.JobId := "job1";
         pb.ClientId := Some {| pb.Code := "alice" |};
         pb.ServerChecksum := None |} in
    (Err (ErrExchangeFailed "carol"
            {| pb.StatusCode := 320; pb.Message := "" |}),
     [EvExchange "broker.carol" req; EvSleep 200;
      EvExchange "broker.carol" req]).
Proof. reflexivity. Qed.

(** C2.  [ExchangeJobInfo] calls the peer at most the configured number
    of times; every call but the last was answered with
    SESSION_NOT_FOUND, so a call answered by a failure or by any other
    status is the last one.  When three attempts are allowed, the first
    two answers are SESSION_NOT_FOUND and the third is a success, the
    caller receives the third response, after three calls and exactly two
    sleeps. *)
Theorem ExchangeJobInfo_retry `{!pb.Codes} (r : QueryRunner)
    (targetParty : string) :
  let conf := application.Conf (application.App_ (session r)) in
  let stub :=
    application.ExchangeJobInfo
      (application.InterStub (application.ExecuteInfo (session r))) in
  let out := ExchangeJobInfo r targetParty in
  (attempts out.2
     ≤ Z.to_nat (application.ExchangeJobInfoRetryTimes conf))%nat
  ∧ (∀ j, (S j < attempts out.2)%nat →
       ∃ url req rsp,
         EvExchange url req ∈ out.2
         ∧ stub j url req = Got rsp
         ∧ pb.GetCode (pb.GetStatus rsp) = pb.Code_SESSION_NOT_FOUND)
  ∧ (∀ j url req,
       EvExchange url req ∈ out.2 →
       (j < attempts out.2)%nat →
       (∀ rsp, stub j url req = Got rsp →
          pb.GetCode (pb.GetStatus rsp) ≠ pb.Code_SESSION_NOT_FOUND) →
       attempts out.2 = S j)
  ∧ (∀ url req rsp0 rsp1 rsp2,
       pb.Code_SESSION_NOT_FOUND ≠ 0 →
       application.ExchangeJobInfoRetryTimes conf = 3 →
       exchangeRequest r targetParty = Ok req →
       application.GetBrokerUrlByParty
         (application.PartyMgr (application.App_ (session r)))
         targetParty = Got url →
       stub 0%nat url req = Got rsp0 →
       pb.GetCode (pb.GetStatus rsp0) = pb.Code_SESSION_NOT_FOUND →
       stub 1%nat url req = Got rsp1 →
       pb.GetCode (pb.GetStatus rsp1) = pb.Code_SESSION_NOT_FOUND →
       stub 2%nat url req = Got rsp2 →
       pb.GetCode (pb.GetStatus rsp2) = 0 →
       out.1 = Ok rsp2 ∧ attempts out.2 = 3%nat ∧ sleeps out.2 = 2%nat).
Proof.
  intros conf stub out.
  destruct (ExchangeJobInfo_trace r targetParty)
    as (url & req & Hle & Hsame & Hsnf).
  fold out in Hle, Hsame, Hsnf. fold stub in Hsnf.
  assert (∀ u q, EvExchange u q ∈ out.2 → u = url ∧ q = req) as Huniq.
  { intros u q Hin. by injection (Hsame _ Hin eq_refl). }
  assert (∀ n : nat, (0 < attempts out.2)%nat → EvExchange url req ∈ out.2)
    as Hin.
  { intros _ Hpos. unfold attempts in Hpos.
    destruct (List.filter is_exchange out.2) as [|e l] eqn:Hf;
      [simpl in Hpos; lia|].
    assert (In e (List.filter is_exchange out.2)) as He
      by (rewrite Hf; by left).
    apply filter_In in He as [He Hex].
    apply list_elem_of_In in He.
    by rewrite <-(Hsame e He Hex). }
  split_and!.
  - exact Hle.
  - intros j Hj. destruct (Hsnf j Hj) as (rsp & Hstub & Hcode).
    exists url, req, rsp. split_and!; [|done..].
    apply (Hin 0%nat). lia.
  - intros j u q Hev Hj Hother.
    destruct (decide (attempts out.2 = S j)) as [|Hne]; [done|].
    destruct (Hsnf j ltac:(lia)) as (rsp & Hstub & Hcode).
    destruct (Huniq u q Hev) as [-> ->].
    by destruct (Hother rsp Hstub).
  - intros u q rsp0 rsp1 rsp2 Hsnf0 Hretry Hreq Hurl H0 Hc0 H1 Hc1 H2 Hc2.
    subst out stub conf. unfold ExchangeJobInfo.
    rewrite Hreq, Hurl, Hretry.
    change (Z.to_nat 3) with 3%nat. cbn [exchangeLoop].
    rewrite Hretry.
    change (Z.to_nat 0) with 0%nat. rewrite H0, Hc0, Z.eqb_refl.
    change (Z.to_nat (0 + 1)) with 1%nat. rewrite H1, Hc1, Z.eqb_refl.
    change (Z.to_nat (0 + 1 + 1)) with 2%nat. rewrite H2, Hc2.
    destruct (0 =? pb.Code_SESSION_NOT_FOUND) eqn:E;
      [apply Z.eqb_eq in E; congruence|].
    done.
Qed.

Lemma ExchangeJobInfo_retry_witness :
  let r := Sample.alice 3 [] Sample.stub_late in
  application.ExchangeJobInfoRetryTimes
    (application.Conf (application.App_ (session r))) = 3
  ∧ (@ExchangeJobInfo Sample.codes r "bob").1
    = Ok (Sample.response (Sample.status 0))
  ∧ attempts (@ExchangeJobInfo Sample.codes r "bob").2 = 3%nat
  ∧ sleeps (@ExchangeJobInfo Sample.codes r "bob").2 = 2%nat.
Proof.
  intros r. split; [reflexivity|].
  refine (proj2 (proj2 (proj2
            (@ExchangeJobInfo_retry Sample.codes r "bob")))
          "broker.bob" _ (Sample.response (Sample.status 320))
          (Sample.response (Sample.status 320))
          (Sample.response (Sample.status 0))
          _ _ _ _ _ _ _ _ _ _);
    first [reflexivity | discriminate].
Defined.

(** C3 fails on the code.  A response that carries no status object and
    arrives on the first call is handed to the caller as a success: the
    nil-safe getters read its code as 0, and line 157 returns before the
    nil check of line 161 is reached. *)
Theorem ExchangeJobInfo_absent_status_succeeds `{!pb.Codes}
    (r : QueryRunner) (targetParty url : string)
    (req : pb.ExchangeJobInfoRequest) (rsp : pb.ExchangeJobInfoResponse) :
  pb.Code_SESSION_NOT_FOUND ≠ 0 →
  1 ≤ application.ExchangeJobInfoRetryTimes
        (application.Conf (application.App_ (session r))) →
  exchangeRequest r targetParty = Ok req →
  application.GetBrokerUrlByParty
    (application.PartyMgr (application.App_ (session r)))
    targetParty = Got url →
  application.ExchangeJobInfo
    (application.InterStub (application.ExecuteInfo (session r)))
    0%nat url req = Got rsp →
  pb.RespStatus rsp = None →
  ExchangeJobInfo r targetParty = (Ok rsp, [EvExchange url req]).
Proof.
  intros Hsnf Hretry Hreq Hurl Hstub Hnil.
  unfold ExchangeJobInfo. rewrite Hreq, Hurl.
  destruct (Z.to_nat _) as [|n] eqn:Hn; [lia|].
  cbn [exchangeLoop]. change (Z.to_nat 0) with 0%nat. rewrite Hstub.
  unfold pb.GetStatus. rewrite Hnil. cbn [pb.GetCode].
  destruct (0 =? pb.Code_SESSION_NOT_FOUND) eqn:E;
    [apply Z.eqb_eq in E; congruence|].
  done.
Qed.

Lemma ExchangeJobInfo_absent_status_succeeds_witness :
  let r := Sample.alice 1 [] Sample.stub_no_status in
  pb.RespStatus (Sample.response None) = None
  ∧ (@ExchangeJobInfo Sample.codes r "bob").1
    = Ok (Sample.response None).
Proof.
  intros r. split; [reflexivity|].
  refine (f_equal fst
            (@ExchangeJobInfo_absent_status_succeeds Sample.codes r "bob"
               "broker.bob" _ (Sample.response None) _ _ _ _ _ _));
    first [reflexivity | discriminate | by vm_compute].
Defined.

(** ** SliceDeDup *)

Lemma compact_elem_of (x : string) l : x ∈ sliceutil.compact l ↔ x ∈ l.
Proof.
  induction l as [|a l IH]; [done|].
  destruct l as [|b l]; [done|].
  change (sliceutil.compact (a :: b :: l))
    with (if decide (a = b) then sliceutil.compact (b :: l)
          else a :: sliceutil.compact (b :: l)).
  destruct (decide (a = b)) as [->|Hne].
  - rewrite IH, !elem_of_cons. tauto.
  - rewrite !elem_of_cons, IH, !elem_of_cons. tauto.
Qed.

Lemma compact_sorted l :
  StronglySorted String.le l → sorted_set (sliceutil.compact l).
Proof.
  unfold sorted_set.
  induction 1 as [|a l Hl IH Ha]; [constructor|].
  destruct l as [|b l]; [repeat constructor|].
  change (sliceutil.compact (a :: b :: l))
    with (if decide (a = b) then sliceutil.compact (b :: l)
          else a :: sliceutil.compact (b :: l)).
  destruct (decide (a = b)) as [->|Hne]; [exact IH|].
  constructor; [exact IH|].
  apply Forall_forall. intros z Hz.
  apply (proj1 (compact_elem_of _ _)) in Hz.
  rewrite Forall_forall in Ha.
  apply str_lt_iff. split; [exact (Ha z Hz)|].
  intros ->. apply Hne.
  apply (anti_symm String.le); [apply Ha; by left|].
  apply StronglySorted_inv in Hl as [_ Hb]. rewrite Forall_forall in Hb.
  apply elem_of_cons in Hz as [->|Hz]; [done|exact (Hb z Hz)].
Qed.

Lemma ascending_sorted l : StronglySorted String.le (sliceutil.ascending l).
Proof. apply (sort_Slice_sorted id). Qed.

Lemma ascending_perm l : sliceutil.ascending l ≡ₚ l.
Proof. apply (sort_Slice_perm id). Qed.

Lemma sorted_set_NoDup l : sorted_set l → NoDup l.
Proof.
  induction 1 as [|a l Hl IH Ha]; constructor; [|done].
  intros Hin. rewrite Forall_forall in Ha.
  specialize (Ha a Hin). by rewrite str_lt_irrefl in Ha.
Qed.

Lemma SliceDeDup_sorted l : sorted_set (sliceutil.SliceDeDup l).
Proof. apply compact_sorted, ascending_sorted. Qed.

Lemma SliceDeDup_elem_of x l : x ∈ sliceutil.SliceDeDup l ↔ x ∈ l.
Proof. unfold sliceutil.SliceDeDup. by rewrite compact_elem_of, ascending_perm. Qed.

Lemma SliceDeDup_perm l1 l2 :
  l1 ≡ₚ l2 → sliceutil.SliceDeDup l1 = sliceutil.SliceDeDup l2.
Proof.
  intros Hp. unfold sliceutil.SliceDeDup, sliceutil.ascending. f_equal.
  by apply (sort_Slice_perm_eq id).
Qed.

(** ** prepareData and Prepare *)

Section prepare_props.
Context `{!Lib}.

Lemma collectTables_parties ts acc c :
  collectTables ts acc = Ok c → parties c = parties acc ++ owners ts.
Proof.
  revert acc. induction ts as [|t ts IH]; intros acc; simpl.
  - intros [= <-]. by rewrite app_nil_r.
  - destruct (NewDbTableFromString _); [|done].
    destruct (ParseDBType _); [|done].
    intros ->%IH. simpl. by rewrite <-app_assoc.
Qed.

Lemma collectTables_error ts acc e :
  collectTables ts acc = Err e → ∃ msg, e = ErrExternal msg.
Proof.
  revert acc. induction ts as [|t ts IH]; intros acc; simpl; [done|].
  destruct (NewDbTableFromString _); [|intros [= <-]; eauto].
  destruct (ParseDBType _); [|intros [= <-]; eauto].
  apply IH.
Qed.

Lemma columnInfos_error cols i acc e :
  columnInfos cols i acc = Err e → ∃ msg, e = ErrExternal msg.
Proof.
  revert i acc. induction cols as [|c cols IH]; intros i acc; simpl;
    [done|].
  destruct (TypeDefaultValue _); [|intros [= <-]; eauto].
  destruct (TypeConversion _); [|intros [= <-]; eauto].
  apply IH.
Qed.

Lemma tableInfos_error ts i acc e :
  tableInfos ts i acc = Err e → ∃ msg, e = ErrExternal msg.
Proof.
  revert i acc. induction ts as [|t ts IH]; intros i acc; simpl; [done|].
  destruct (columnInfos _ 0 []) eqn:Hc;
    [apply IH|intros [= <-]; by eapply columnInfos_error].
Qed.

Lemma Finish_external txn msg nf :
  application.Finish txn (ErrExternal <$> msg)
    ≠ Some (ErrTableNotFound nf).
Proof. destruct msg; simpl; [done|]. by destruct (application.Commit txn). Qed.

(** Lines 204 to 248 touch neither the tables nor the info schema, never
    fail with "table not found", and on success return the two party
    lists computed from the owners of the resolved tables. *)
Lemma prepareParties_spec r txn names r' dp wp err :
  prepareParties r txn names = (r', (dp, wp, err)) →
  session r' = session r ∧ tables r' = tables r
  ∧ prepareAgain r' = prepareAgain r ∧ is_ r' = is_ r
  ∧ (∀ nf, err ≠ Some (ErrTableNotFound nf))
  ∧ (err = None →
       dp = sliceutil.SliceDeDup (owners (tables r))
       ∧ wp = sliceutil.SliceDeDup
                (dp ++ [pb.Code (application.Issuer
                                   (application.ExecuteInfo
                                      (session r)))])).
Proof.
  unfold prepareParties.
  destruct (collectTables _ _) as [c|e] eqn:Hc.
  2: { intros [= <- <- <- <-]. apply collectTables_error in Hc as [msg ->].
       by split_and!. }
  apply collectTables_parties in Hc. simpl in Hc. rewrite Hc.
  destruct (application.GetPartyInfoByParties _ _) as [pi|msg].
  2: { intros [= <- <- <- <-]. by split_and!. }
  destruct (application.ListColumnConstraints _ _ _ _) as [privs e].
  intros [= <- <- <- <-]. split_and!; try done.
  apply Finish_external.
Qed.

Lemma prepareData_spec r names r' dp wp err :
  (prepareData r names).1 = (r', (dp, wp, err)) →
  let second :=
    application.GetTableMetasByTableNames
      (application.CreateMetaTransaction
         (application.MetaMgr (application.App_ (session r))) 1)
      (application.ProjectID (application.ExecuteInfo (session r)))
      names in
  session r' = session r
  ∧ prepareAgain r' = prepareAgain r ∧ is_ r' = is_ r
  ∧ (err = None →
       dp = sliceutil.SliceDeDup (owners (tables r'))
       ∧ wp = sliceutil.SliceDeDup
                (dp ++ [pb.Code (application.Issuer
                                   (application.ExecuteInfo
                                      (session r)))]))
  ∧ (∀ nf, err = Some (ErrTableNotFound nf) →
       prepareAgain r = false
       ∧ info r' = info r ∧ ccls r' = ccls r
       ∧ dp = [] ∧ wp = []
       ∧ tables r' = second.1.1 ∧ nf = second.1.2 ∧ nf ≠ []).
Proof.
  intros Hrun second. revert Hrun. unfold prepareData.
  change (application.GetTableMetasByTableNames
            (application.CreateMetaTransaction
               (application.MetaMgr (application.App_ (session r))) 1)
            (application.ProjectID (application.ExecuteInfo (session r)))
            names) with second.
  destruct (application.GetTableMetasByTableNames
              (application.CreateMetaTransaction _ 0) _ names)
    as [[tbls0 nf0] [e0|]]; cbv beta iota zeta; cbn [fst].
  { intros [= <- <- <- <-]. by split_and!. }
  assert (∀ r0 txn,
            prepareParties r0 txn names = (r', (dp, wp, err)) →
            session r0 = session r → prepareAgain r0 = prepareAgain r →
            is_ r0 = is_ r →
            session r' = session r
            ∧ prepareAgain r' = prepareAgain r ∧ is_ r' = is_ r
            ∧ (err = None →
                 dp = sliceutil.SliceDeDup (owners (tables r'))
                 ∧ wp = sliceutil.SliceDeDup
                          (dp ++ [pb.Code (application.Issuer
                                             (application.ExecuteInfo
                                                (session r)))]))
            ∧ (∀ nf, err = Some (ErrTableNotFound nf) →
                 prepareAgain r = false
                 ∧ info r' = info r ∧ ccls r' = ccls r
                 ∧ dp = [] ∧ wp = []
                 ∧ tables r' = second.1.1 ∧ nf = second.1.2 ∧ nf ≠ []))
    as Hrest.
  { intros r0 txn (Hs & Ht & Hp & Hi & Hnf & Hok)%prepareParties_spec
      Hs0 Hp0 Hi0.
    rewrite Ht, <-Hs0. split_and!; [congruence..|done|].
    intros nf Herr. by destruct (Hnf nf). }
  change (prepareAgain (set_tables tbls0 r)) with (prepareAgain r).
  destruct (bool_decide (0 < length nf0)%nat && negb (prepareAgain r))
    eqn:Hask; cbn [fst]; [|intros Hrun; by eapply Hrest].
  apply andb_prop in Hask as [_ Hflag%negb_true_iff]. simpl in Hflag.
  destruct (application.GetProjectMembers _ _) as [members|msg];
    cbn [fst].
  2: { intros [= <- <- <- <-]. by split_and!. }
  destruct second as [[tbls1 nf1] [e1|]] eqn:Hsecond; cbv beta iota zeta;
    cbn [fst].
  { intros [= <- <- <- <-]. by split_and!. }
  case_bool_decide as Hnf1; cbn [fst]; [|intros Hrun; by eapply Hrest].
  simpl. intros [= <- <- <- <-]. split_and!; try done.
  intros nf [= <-]. split_and!; try done.
  intros ->. simpl in Hnf1. lia.
Qed.

Lemma length_pos_nonempty {A} (l : list A) :
  bool_decide (0 < length l)%nat = bool_decide (l ≠ []).
Proof.
  destruct l; repeat case_bool_decide; simpl in *; try done; lia.
Qed.

Lemma prepareParties_tables r txn names :
  tables (prepareParties r txn names).1 = tables r.
Proof.
  destruct (prepareParties r txn names) as [r' [[dp wp] err]] eqn:Hrun.
  by apply prepareParties_spec in Hrun as (_ & Ht & _).
Qed.

(** The tables a successful [prepareData] leaves are those of the lookup
    it made last: the second one when the first one missed some names
    and the flag is not set, the first one otherwise. *)
Lemma prepareData_resolved r names r' dp wp :
  (prepareData r names).1 = (r', (dp, wp, None)) →
  let lookup n :=
    application.GetTableMetasByTableNames
      (application.CreateMetaTransaction
         (application.MetaMgr (application.App_ (session r))) n)
      (application.ProjectID (application.ExecuteInfo (session r)))
      names in
  tables r'
  = if bool_decide ((lookup 0%nat).1.2 ≠ []) && negb (prepareAgain r)
    then (lookup 1%nat).1.1 else (lookup 0%nat).1.1.
Proof.
  cbv zeta. unfold prepareData.
  destruct (application.GetTableMetasByTableNames
              (application.CreateMetaTransaction _ 0) _ names)
    as [[tbls0 nf0] [e0|]]; cbv beta iota zeta; cbn [fst snd]; [done|].
  change (prepareAgain (set_tables tbls0 r)) with (prepareAgain r).
  rewrite length_pos_nonempty.
  destruct (bool_decide (nf0 ≠ []) && negb (prepareAgain r)); cbn [fst].
  2: { intros Hrun. apply (f_equal fst) in Hrun. cbn [fst] in Hrun.
       by rewrite <-Hrun, prepareParties_tables. }
  destruct (application.GetProjectMembers _ _) as [members|msg];
    cbn [fst]; [|done].
  destruct (application.GetTableMetasByTableNames
              (application.CreateMetaTransaction _ 1) _ names)
    as [[tbls1 nf1] [e1|]]; cbv beta iota zeta; cbn [fst snd]; [done|].
  case_bool_decide; cbn [fst]; [done|].
  intros Hrun. apply (f_equal fst) in Hrun. cbn [fst] in Hrun.
  by rewrite <-Hrun, prepareParties_tables.
Qed.

(** With the flag set, [prepareData] works in its first transaction
    alone and asks nobody; the tables it leaves are those of that
    transaction's lookup. *)
Lemma prepareData_flagged r names :
  prepareAgain r = true →
  (prepareData r names).2 = [MetaCreateTransaction 0; MetaFinish 0]
  ∧ tables (prepareData r names).1.1
    = (application.GetTableMetasByTableNames
         (application.CreateMetaTransaction
            (application.MetaMgr (application.App_ (session r))) 0)
         (application.ProjectID (application.ExecuteInfo (session r)))
         names).1.1.
Proof.
  intros Hflag. unfold prepareData.
  destruct (application.GetTableMetasByTableNames
              (application.CreateMetaTransaction _ 0) _ names)
    as [[tbls0 nf0] [e0|]]; cbv beta iota zeta; cbn [fst snd]; [done|].
  change (prepareAgain (set_tables tbls0 r)) with (prepareAgain r).
  rewrite Hflag, andb_false_r. cbn [fst snd].
  split; [done|]. by rewrite prepareParties_tables.
Qed.

End prepare_props.

Section prepare_claims.
Context `{!Lib}.

(** [Prepare] is [Clear], then [prepareData], then, when that succeeded,
    the construction of the info schema, which can only fail with an
    error of the type helpers. *)
Lemma Prepare_spec r usedTables r' dp wp err :
  Prepare r usedTables = (r', (dp, wp, err)) →
  ∃ r0 err0,
    (prepareData (Clear r) (usedNames usedTables)).1 = (r0, (dp, wp, err0))
    ∧ session r' = session r0 ∧ tables r' = tables r0
    ∧ info r' = info r0 ∧ ccls r' = ccls r0
    ∧ prepareAgain r' = prepareAgain r0
    ∧ match err0 with
      | Some e => err = Some e ∧ is_ r' = is_ r0
      | None => err = None ∨ ∃ msg, err = Some (ErrExternal msg)
      end.
Proof.
  unfold Prepare. fold (usedNames usedTables).
  destruct (prepareData (Clear r) (usedNames usedTables))
    as [[r0 [[dp0 wp0] [e|]]] tr0].
  - intros [= <- <- <- <-]. exists r0, (Some e). by split_and!.
  - destruct (CreateInfoSchema r0 (tables r0)) as [sch|e] eqn:Hsch;
      intros [= <- <- <- <-]; exists r0, None; split_and!; try done.
    + by left.
    + right. unfold CreateInfoSchema in Hsch.
      destruct (tableInfos _ 0 []) eqn:Hti; [done|].
      injection Hsch as <-.
      apply tableInfos_error in Hti as [msg ->]. by exists msg.
Qed.

Lemma Prepare_resolved r usedTables r' dp wp :
  Prepare r usedTables = (r', (dp, wp, None)) →
  tables r' = resolved r usedTables.
Proof.
  intros (r0 & err0 & Hdata & _ & Ht & _ & _ & _ & Herr)%Prepare_spec.
  destruct err0 as [e|]; [by destruct Herr|].
  apply prepareData_resolved in Hdata. by rewrite Ht, Hdata.
Qed.

Lemma Prepare_tables r usedTables :
  tables (Prepare r usedTables).1
  = tables (prepareData (Clear r) (usedNames usedTables)).1.1.
Proof.
  unfold Prepare. fold (usedNames usedTables).
  destruct (prepareData (Clear r) (usedNames usedTables))
    as [[r0 [[dp0 wp0] [e|]]] tr0]; [done|].
  by destruct (CreateInfoSchema r0 (tables r0)).
Qed.

(** C4 (amended).  In a call to [Prepare] made while the PrepareAgain
    flag is not set, if some table names are missing after the first
    lookup and some are still missing after the peers were asked and the
    lookup was repeated, [Prepare] fails with the "table not found"
    error naming the tables the second lookup missed; it has then
    finished its first transaction, asked the other project members for
    the names the first lookup missed, and made the second lookup in a
    new transaction.  A call made with the flag set never fails with
    that error and performs no peer-ask retry: it works in its first
    transaction alone, asks nobody, and goes on with the tables the one
    lookup resolved. *)
Theorem Prepare_unresolved_tables (r : QueryRunner)
    (usedTables : list core.DbTable) :
  (prepareAgain r = false →
   ∀ tbls0 nf0 members tbls1 nf1,
     resolution r 0 usedTables = (tbls0, nf0, None) →
     nf0 ≠ [] →
     application.GetProjectMembers
       (application.CreateMetaTransaction
          (application.MetaMgr (application.App_ (session r))) 0)
       (application.ProjectID (application.ExecuteInfo (session r)))
       = Got members →
     resolution r 1 usedTables = (tbls1, nf1, None) →
     nf1 ≠ [] →
     (Prepare r usedTables).2 = ([], [], Some (ErrTableNotFound nf1))
     ∧ prepare_effects r usedTables
       = [MetaCreateTransaction 0; MetaFinish 0;
          AskProjectInfo
            (application.ProjectID (application.ExecuteInfo (session r)))
            nf0 []
            (sliceutil.Subtraction members
               [application.PartyCode
                  (application.Conf (application.App_ (session r)))]);
          MetaCreateTransaction 1; MetaFinish 1])
  ∧ (prepareAgain r = true →
     (∀ nf, (Prepare r usedTables).2.2 ≠ Some (ErrTableNotFound nf))
     ∧ prepare_effects r usedTables
       = [MetaCreateTransaction 0; MetaFinish 0]
     ∧ tables (Prepare r usedTables).1
       = (resolution r 0 usedTables).1.1).
Proof.
  split.
  - intros Hflag tbls0 nf0 members tbls1 nf1 H0 Hnf0 Hmem H1 Hnf1.
    unfold resolution in H0, H1.
    unfold prepare_effects, Prepare, prepareData.
    fold (usedNames usedTables).
    change (session (Clear r)) with (session r).
    rewrite H0. cbv beta iota zeta.
    change (prepareAgain (set_tables tbls0 (Clear r)))
      with (prepareAgain r).
    rewrite Hflag, Hmem, H1. cbv beta iota zeta.
    rewrite !bool_decide_eq_true_2
      by (by destruct nf0, nf1; simpl; try lia).
    split; reflexivity.
  - intros Hflag. split_and!.
    + intros nf Herr.
      destruct (Prepare r usedTables) as [r' [[dp wp] err]] eqn:Hrun.
      simpl in Herr. subst err.
      apply Prepare_spec in Hrun
        as (r0 & err0 & Hdata & _ & _ & _ & _ & _ & Herr).
      destruct err0 as [e|]; [|by destruct Herr as [|[? ?]]].
      destruct Herr as [[= <-] _].
      apply prepareData_spec in Hdata as (_ & _ & _ & _ & Hnf).
      destruct (Hnf nf eq_refl) as (Hoff & _). simpl in Hoff. congruence.
    + unfold prepare_effects.
      by apply (prepareData_flagged (Clear r) (usedNames usedTables)).
    + rewrite Prepare_tables.
      by apply (prepareData_flagged (Clear r) (usedNames usedTables)).
Qed.

(** C5 (amended).  When [Prepare] fails with "table not found", the
    runner's EnginesInfo, info schema and ccls are empty, as [Clear]
    left them at the start of the call: the failing call commits no
    partial EnginesInfo or ccls.  The cached tables are those the second
    lookup resolved, the error names the tables it missed, and the
    session and the PrepareAgain flag are as before. *)
Theorem Prepare_table_not_found_state (r r' : QueryRunner)
    (usedTables : list core.DbTable) (dp wp nf : list string) :
  Prepare r usedTables = (r', (dp, wp, Some (ErrTableNotFound nf))) →
  info r' = None ∧ is_ r' = None ∧ ccls r' = []
  ∧ tables r' = (resolution r 1 usedTables).1.1
  ∧ nf = (resolution r 1 usedTables).1.2
  ∧ session r' = session r ∧ prepareAgain r' = prepareAgain r
  ∧ dp = [] ∧ wp = [].
Proof.
  intros (r0 & err0 & Hdata & Hs & Ht & Hi & Hc & Hp & Herr)%Prepare_spec.
  destruct err0 as [e|]; [|by destruct Herr as [|[? ?]]].
  destruct Herr as [[= <-] His].
  apply prepareData_spec in Hdata as (Hs0 & Hp0 & His0 & _ & Hnf).
  destruct (Hnf nf eq_refl) as (_ & Hi0 & Hc0 & -> & -> & Ht0 & -> & _).
  rewrite Hi, Hi0, His, His0, Hc, Hc0, Ht, Ht0, Hs, Hs0, Hp, Hp0.
  by split_and!.
Qed.

(** C6.  After a successful [Prepare], whatever the order of the
    resolved tables: the tables the runner holds are the ones the store
    resolved in the last lookup of the call; the data parties are
    exactly the owners of those tables, without repetition; the work
    parties are exactly the data parties and the issuer, as a sorted
    set; the data parties are among the work parties, and so is the
    issuer.  Both lists are the same for any other order of the resolved
    tables. *)
Theorem Prepare_parties (r r' : QueryRunner)
    (usedTables : list core.DbTable) (dp wp : list string) :
  Prepare r usedTables = (r', (dp, wp, None)) →
  let issuer :=
    pb.Code (application.Issuer (application.ExecuteInfo (session r))) in
  let resolvedTables := resolved r usedTables in
  tables r' = resolvedTables
  ∧ (∀ p, p ∈ dp ↔ p ∈ owners resolvedTables)
  ∧ NoDup dp ∧ sorted_set dp
  ∧ (∀ p, p ∈ wp ↔ p ∈ dp ∨ p = issuer)
  ∧ NoDup wp ∧ sorted_set wp
  ∧ dp ⊆ wp
  ∧ issuer ∈ wp
  ∧ (∀ ts, ts ≡ₚ resolvedTables →
       dp = sliceutil.SliceDeDup (owners ts)
       ∧ wp = sliceutil.SliceDeDup
                (sliceutil.SliceDeDup (owners ts) ++ [issuer])).
Proof.
  intros Hrun issuer resolvedTables.
  pose proof (Prepare_resolved _ _ _ _ _ Hrun) as Hres.
  fold resolvedTables in Hres.
  apply Prepare_spec in Hrun
    as (r0 & err0 & Hdata & Hs & Ht & _ & _ & _ & Herr).
  destruct err0 as [e|]; [by destruct Herr|].
  apply prepareData_spec in Hdata as (_ & _ & _ & Hok & _).
  destruct (Hok eq_refl) as [Hdp Hwp]. rewrite <-Ht, Hres in Hdp.
  change (session (Clear r)) with (session r) in Hwp. fold issuer in Hwp.
  assert (∀ p, p ∈ wp ↔ p ∈ dp ∨ p = issuer) as Hwp_elem.
  { intros p. rewrite Hwp, SliceDeDup_elem_of, elem_of_app,
      list_elem_of_singleton. done. }
  split_and!.
  - exact Hres.
  - intros p. by rewrite Hdp, SliceDeDup_elem_of.
  - rewrite Hdp. apply sorted_set_NoDup, SliceDeDup_sorted.
  - rewrite Hdp. apply SliceDeDup_sorted.
  - exact Hwp_elem.
  - rewrite Hwp. apply sorted_set_NoDup, SliceDeDup_sorted.
  - rewrite Hwp. apply SliceDeDup_sorted.
  - intros p Hp. apply Hwp_elem. by left.
  - apply Hwp_elem. by right.
  - intros ts Hts.
    assert (dp = sliceutil.SliceDeDup (owners ts)) as Hdp'.
    { rewrite Hdp. apply SliceDeDup_perm. unfold owners. by rewrite Hts. }
    split; [done|]. by rewrite <-Hdp'.
Qed.

End prepare_claims.

Lemma Prepare_unresolved_tables_witness :
  let r := Sample.alice 3 [Sample.ta] Sample.stub_late in
  prepareAgain r = false
  ∧ resolution r 1 (Sample.used ["ta"; "tb"]) = ([Sample.ta], ["tb"], None)
  ∧ (@Prepare Sample.lib r (Sample.used ["ta"; "tb"])).2
    = ([], [], Some (ErrTableNotFound ["tb"]))
  ∧ @prepare_effects Sample.lib r (Sample.used ["ta"; "tb"])
    = [MetaCreateTransaction 0; MetaFinish 0;
       AskProjectInfo "demo" ["tb"] [] ["bob"];
       MetaCreateTransaction 1; MetaFinish 1]
  ∧ @prepare_effects Sample.lib (SetPrepareAgain r)
      (Sample.used ["ta"; "tb"])
    = [MetaCreateTransaction 0; MetaFinish 0]
  ∧ tables (@Prepare Sample.lib (SetPrepareAgain r)
              (Sample.used ["ta"; "tb"])).1
    = [Sample.ta].
Proof.
  intros r. split_and!; [reflexivity..| | | |].
  - refine (proj1 (proj1 (@Prepare_unresolved_tables Sample.lib r
                            (Sample.used ["ta"; "tb"]))
                     _ [Sample.ta] ["tb"] ["alice"; "bob"] [Sample.ta] ["tb"]
                     _ _ _ _ _));
      first [reflexivity | discriminate].
  - refine (proj2 (proj1 (@Prepare_unresolved_tables Sample.lib r
                            (Sample.used ["ta"; "tb"]))
                     _ [Sample.ta] ["tb"] ["alice"; "bob"] [Sample.ta] ["tb"]
                     _ _ _ _ _));
      first [reflexivity | discriminate].
  - exact (proj1 (proj2 (proj2 (@Prepare_unresolved_tables Sample.lib
                                  (SetPrepareAgain r)
                                  (Sample.used ["ta"; "tb"]))
                           eq_refl))).
  - exact (proj2 (proj2 (proj2 (@Prepare_unresolved_tables Sample.lib
                                  (SetPrepareAgain r)
                                  (Sample.used ["ta"; "tb"]))
                           eq_refl))).
Defined.

(** C4, as stated, fails for calls made after the PrepareAgain flag was
    set: the store knows table "ta" only, the query names "ta" and "tb",
    and [Prepare] succeeds with the one table it resolved. *)
Lemma Prepare_again_proceeds_with_subset :
  let r := SetPrepareAgain
             (Sample.alice 3 [Sample.ta] Sample.stub_late) in
  let out := @Prepare Sample.lib r (Sample.used ["ta"; "tb"]) in
  prepareAgain r = true
  ∧ (resolution r 0 (Sample.used ["ta"; "tb"])).1.2 = ["tb"]
  ∧ out.2 = (["alice"], ["alice"], None)
  ∧ tables out.1 = [Sample.ta].
Proof. vm_compute. by split_and!. Qed.

Lemma Prepare_table_not_found_state_witness :
  let r := Sample.alice 3 [Sample.ta] Sample.stub_late in
  let out := @Prepare Sample.lib r (Sample.used ["ta"; "tb"]) in
  out.2 = ([], [], Some (ErrTableNotFound ["tb"]))
  ∧ info out.1 = None ∧ is_ out.1 = None ∧ ccls out.1 = []
  ∧ tables out.1 = [Sample.ta].
Proof.
  intros r out.
  assert (out = (out.1, ([], [], Some (ErrTableNotFound ["tb"])))) as Hout
    by reflexivity.
  split; [reflexivity|].
  destruct (@Prepare_table_not_found_state Sample.lib r out.1
              (Sample.used ["ta"; "tb"]) [] [] ["tb"] Hout)
    as (Hi & His & Hc & Ht & _).
  by split_and!.
Defined.

(** C5, as stated, fails: on a fresh runner whose store knows "ta" but
    not "tb", the failing call leaves the resolved table in the cache,
    which was empty before; on a runner that held an EnginesInfo, an info
    schema and ccls, the failing call leaves none of them. *)
Lemma Prepare_table_not_found_changes_state :
  let r := Sample.alice 3 [Sample.ta] Sample.stub_late in
  let out := @Prepare Sample.lib r (Sample.used ["ta"; "tb"]) in
  let out' :=
    @Prepare Sample.lib Sample.ordered1 (Sample.used ["ta"; "tb"]) in
  (out.2 = ([], [], Some (ErrTableNotFound ["tb"]))
   ∧ tables r = [] ∧ tables out.1 = [Sample.ta])
  ∧ (out'.2 = ([], [], Some (ErrTableNotFound ["tb"]))
     ∧ is_Some (info Sample.ordered1) ∧ info out'.1 = None
     ∧ length (ccls Sample.ordered1) = 2%nat ∧ ccls out'.1 = []).
Proof. vm_compute. split_and!; by eauto. Qed.

Lemma Prepare_parties_witness :
  let r := Scenario.learner in
  let used := Sample.used ["tb"; "ta"] in
  let out := @Prepare Sample.lib r used in
  out.2 = (["alice"; "bob"], ["alice"; "bob"], None)
  ∧ (resolution r 0 used).1 = ([Sample.ta], ["tb"])
  ∧ (resolution r 1 used).1 = ([Sample.ta; Sample.tb], [])
  ∧ tables out.1 = [Sample.ta; Sample.tb]
  ∧ ["alice"; "bob"] ⊆ ["alice"; "bob"]
  ∧ "alice" ∈ ["alice"; "bob"].
Proof.
  intros r used out.
  assert (out = (out.1, (["alice"; "bob"], ["alice"; "bob"], None)))
    as Hout by reflexivity.
  split_and!; [reflexivity..| | |].
  - exact (proj1 (@Prepare_parties Sample.lib r out.1 used _ _ Hout)).
  - exact (proj1 (proj2 (proj2 (proj2 (proj2 (proj2 (proj2 (proj2
             (@Prepare_parties Sample.lib r out.1 used _ _ Hout))))))))).
  - exact (proj1 (proj2 (proj2 (proj2 (proj2 (proj2 (proj2 (proj2 (proj2
             (@Prepare_parties Sample.lib r out.1 used _ _ Hout)))))))))).
Defined.

(** ** CreateExecutor *)

Section executor_props.
Context `{!Lib}.

(** What a successful [CreateExecutor] returns: one request, under this
    party's code, and the output names chosen by [IsIssuer]. *)
Lemma CreateExecutor_spec (r : QueryRunner) (plan : pb.CompiledPlan)
    (ex : executor.Executor) :
  CreateExecutor r plan = Ok ex →
  ∃ req,
    executor.PlanReqs ex
      = {[ application.PartyCode
             (application.Conf (application.App_ (session r))) := req ]}
    ∧ pb.Async req = false
    ∧ executor.OutputNames ex
      = (if application.IsIssuer (session r)
         then pb.Name <$> pb.GetColumns (pb.Schema plan) else []).
Proof.
  unfold CreateExecutor.
  destruct (startParties _ _ 0 []) as [ps|]; [|done].
  destruct (pb.SubGraphs plan !! _) as [g|]; [|done].
  destruct (application.GetPubKeyByParty _ _) as [k|]; [|done].
  unfold executor.NewExecutor. intros [= <-]. eexists. by split_and!.
Qed.

(** C7.  The executor that [CreateExecutor] returns holds, as output
    names, the names of the columns of the plan's schema when this party
    is the issuer, and no name when it is not. *)
Theorem CreateExecutor_output_names (r : QueryRunner)
    (plan : pb.CompiledPlan) (ex : executor.Executor) :
  CreateExecutor r plan = Ok ex →
  (application.IsIssuer (session r) = true →
   executor.OutputNames ex = pb.Name <$> pb.GetColumns (pb.Schema plan))
  ∧ (application.IsIssuer (session r) = false →
     executor.OutputNames ex = []).
Proof.
  intros (req & _ & _ & Hnames)%CreateExecutor_spec.
  rewrite Hnames. split; by intros ->.
Qed.

Lemma startParties_AsyncMode mode s ps i acc :
  startParties (application.set_AsyncMode mode s) ps i acc
  = startParties s ps i acc.
Proof.
  revert i acc. induction ps as [|p ps IH]; intros i acc; simpl; [done|].
  destruct (application.GetEndpoint s _); [|done].
  destruct (application.GetPubKeyByParty _ _); [|done].
  apply IH.
Qed.

(** C10.  The request that [CreateExecutor] files under this party's
    code, the only one it builds, has [Async] false; and the session's
    async-mode flag has no part in it: with the flag set either way,
    [CreateExecutor] returns the same executor. *)
Theorem CreateExecutor_request_not_async (r : QueryRunner)
    (plan : pb.CompiledPlan) (ex : executor.Executor) :
  CreateExecutor r plan = Ok ex →
  (∃ req,
     executor.PlanReqs ex
       !! application.PartyCode
            (application.Conf (application.App_ (session r)))
     = Some req)
  ∧ (∀ party req,
       executor.PlanReqs ex !! party = Some req → pb.Async req = false)
  ∧ (∀ mode,
       CreateExecutor
         (set_session (application.set_AsyncMode mode (session r)) r)
         plan = Ok ex).
Proof.
  intros Hrun. pose proof Hrun as (req & Hreqs & Hasync & _)%CreateExecutor_spec.
  split_and!.
  - exists req. rewrite Hreqs. apply lookup_singleton_eq.
  - intros party req'. rewrite Hreqs.
    by intros [_ <-]%lookup_singleton_Some.
  - intros mode. rewrite <-Hrun. unfold CreateExecutor.
    change (session (set_session (application.set_AsyncMode mode (session r)) r))
      with (application.set_AsyncMode mode (session r)).
    by rewrite startParties_AsyncMode.
Qed.

End executor_props.

Lemma CreateExecutor_output_names_witness :
  let issuer := Sample.alice 3 [] Sample.stub_late in
  (∃ ex, @CreateExecutor Sample.lib issuer Sample.plan = Ok ex
         ∧ executor.OutputNames ex = ["id"; "total"])
  ∧ (∃ ex, @CreateExecutor Sample.lib Sample.bob Sample.plan = Ok ex
           ∧ executor.OutputNames ex = []).
Proof.
  intros issuer. split; eexists; (split; [reflexivity|]).
  - exact (proj1 (@CreateExecutor_output_names Sample.lib issuer
                    Sample.plan _ eq_refl) eq_refl).
  - exact (proj2 (@CreateExecutor_output_names Sample.lib Sample.bob
                    Sample.plan _ eq_refl) eq_refl).
Defined.

Lemma CreateExecutor_request_not_async_witness :
  let r := Sample.alice 3 [] Sample.stub_late in
  application.AsyncMode (session r) = true
  ∧ ∃ ex req,
      @CreateExecutor Sample.lib r Sample.plan = Ok ex
      ∧ executor.PlanReqs ex !! "alice" = Some req
      ∧ pb.Async req = false.
Proof.
  intros r. split; [reflexivity|].
  eexists _, _. split; [reflexivity|]. split; [reflexivity|].
  eapply (proj1 (proj2 (@CreateExecutor_request_not_async Sample.lib r
                          Sample.plan _ eq_refl)) "alice").
  reflexivity.
Defined.

(** ** The garbage-collection loops *)

Lemma StorageGc_body_next app owner k : (gc.StorageGc_body app owner k).1 = gc.Next.
Proof.
  unfold gc.StorageGc_body.
  destruct (application.HoldGcLock _ _ _ _); [done|].
  by destruct (application.ClearExpiredResults _ _ _).
Qed.

Lemma StorageGc_loop_waits app owner n k tr :
  (gc.StorageGc_loop app owner n k tr).1 = (gc.WaitingForTick, (k + n)%nat).
Proof.
  revert k tr. induction n as [|n IH]; intros k tr; simpl.
  - by rewrite Nat.add_0_r.
  - pose proof (StorageGc_body_next app owner k) as Hnext.
    destruct (gc.StorageGc_body app owner k) as [c evs].
    simpl in Hnext. subst c. rewrite IH. f_equal. lia.
Qed.

Lemma SessionGc_body_next app k sessions :
  (gc.SessionGc_body app k sessions).1.1 = gc.Next.
Proof.
  unfold gc.SessionGc_body.
  by destruct (application.CheckIdCanceled _ _ _).
Qed.

Lemma SessionGc_loop_waits app others n k sessions tr :
  (gc.SessionGc_loop app others n k sessions tr).1.1
  = (gc.WaitingForTick, (k + n)%nat).
Proof.
  revert k sessions tr. induction n as [|n IH]; intros k sessions tr; simpl.
  - by rewrite Nat.add_0_r.
  - pose proof (SessionGc_body_next app k (others k sessions)) as Hnext.
    destruct (gc.SessionGc_body app k (others k sessions)) as [[c s'] evs].
    simpl in Hnext. subst c. rewrite IH. f_equal. lia.
Qed.

Example StorageGc_four_ticks :
  gc.StorageGc (Sample.app "alice" 3 [] None) "host1" 4
  = (gc.WaitingForTick, 4%nat,
     [gc.CallHoldGcLock "host1" 60; gc.CallClearExpiredResults 3600;
      gc.CallHoldGcLock "host1" 60;
      gc.CallHoldGcLock "host1" 60; gc.CallClearExpiredResults 3600;
      gc.LogWarn "GC err";
      gc.CallHoldGcLock "host1" 60]).
Proof. reflexivity. Qed.

Example SessionGc_three_ticks :
  let out := gc.SessionGc (Sample.app "alice" 3 [] None) (λ _ reg, reg)
               Sample.registry 3 in
  out.1.1 = (gc.WaitingForTick, 3%nat)
  ∧ dom out.1.2 = {[ "job1" ]}
  ∧ out.2 = [gc.CallCheckIdCanceled ["job1"; "job2"];
             gc.CallDeleteSession "job2";
             gc.CallCheckIdCanceled ["job1"];
             gc.LogError "check canceled session failed";
             gc.CallCheckIdCanceled ["job1"]].
Proof. vm_compute. by split_and!. Qed.

(** C8 (amended).  [SessionGc] never returns: whatever the metadata layer
    answers, after any number of ticks it has consumed them all and waits
    for the next one.  So does [StorageGc] once [InitGcLockIfNecessary]
    has succeeded.  When that first check fails, [StorageGc] logs the
    failure and returns before its first tick. *)
Theorem gc_loops_keep_running (app : application.App) (HOSTNAME : string)
    (others : nat → gmap string application.Session →
              gmap string application.Session)
    (sessions : gmap string application.Session) (ticks : nat) :
  (application.InitGcLockIfNecessary (application.MetaMgr app) = None →
   (gc.StorageGc app HOSTNAME ticks).1 = (gc.WaitingForTick, ticks))
  ∧ (is_Some (application.InitGcLockIfNecessary (application.MetaMgr app)) →
     gc.StorageGc app HOSTNAME ticks
     = (gc.Returned, O, [gc.LogError "failed to check gc lock"]))
  ∧ (gc.SessionGc app others sessions ticks).1.1
    = (gc.WaitingForTick, ticks).
Proof.
  split_and!.
  - intros Hinit. unfold gc.StorageGc. rewrite Hinit.
    destruct (bool_decide (HOSTNAME ≠ "")); apply StorageGc_loop_waits.
  - intros [msg Hinit]. unfold gc.StorageGc. by rewrite Hinit.
  - apply SessionGc_loop_waits.
Qed.

Lemma gc_loops_keep_running_witness :
  let app := Sample.app "alice" 3 [] None in
  application.InitGcLockIfNecessary (application.MetaMgr app) = None
  ∧ (gc.StorageGc app "host1" 4).1 = (gc.WaitingForTick, 4%nat)
  ∧ (gc.SessionGc app (λ _ reg, reg) Sample.registry 3).1.1
    = (gc.WaitingForTick, 3%nat).
Proof.
  intros app. split_and!.
  - reflexivity.
  - exact (proj1 (gc_loops_keep_running app "host1" (λ _ reg, reg)
                    Sample.registry 4) eq_refl).
  - exact (proj2 (proj2 (gc_loops_keep_running app "host1" (λ _ reg, reg)
                           Sample.registry 3))).
Defined.

(** C8, as stated, fails for [StorageGc]: when the metadata layer answers
    the first check with an error, the function returns, with no tick
    consumed, however many the ticker delivers. *)
Lemma StorageGc_returns_when_init_fails :
  let app := Sample.app "alice" 3 [] (Some "gc lock table missing") in
  gc.StorageGc app "host1" 4
  = (gc.Returned, O, [gc.LogError "failed to check gc lock"]).
Proof. reflexivity. Qed.

Lemma foldl_DeleteSession_lookup (ids : list string)
    (sessions : gmap string application.Session) (id : string) :
  foldl (λ reg i, gc.DeleteSession i reg) sessions ids !! id
  = if decide (id ∈ ids) then None else sessions !! id.
Proof.
  revert sessions. induction ids as [|i ids IH]; intros sessions.
  - destruct (decide (id ∈ [])) as [Hin|_]; [inversion Hin|done].
  - change (foldl (λ reg i0, gc.DeleteSession i0 reg) sessions (i :: ids))
      with (foldl (λ reg i0, gc.DeleteSession i0 reg)
              (gc.DeleteSession i sessions) ids).
    rewrite IH. unfold gc.DeleteSession.
    destruct (decide (id ∈ ids)) as [Hin|Hnin],
             (decide (id ∈ i :: ids)) as [Hin'|Hnin'].
    + done.
    + destruct Hnin'. by right.
    + apply elem_of_cons in Hin' as [->|?]; [|done].
      apply lookup_delete_eq.
    + apply lookup_delete_ne. intros ->. apply Hnin'. by left.
Qed.

(** One pass through the body of the loop of [SessionGc]. *)
Lemma SessionGc_body_deletes (app : application.App)
    (k : nat) (sessions : gmap string application.Session) :
  let ids := (map_to_list sessions).*1 in
  let sessions' := (gc.SessionGc_body app k sessions).1.2 in
  match application.CheckIdCanceled (application.MetaMgr app) k ids with
  | Got canceledIds =>
      (∀ id, id ∈ canceledIds → sessions' !! id = None)
      ∧ (∀ id, id ∉ canceledIds → sessions' !! id = sessions !! id)
      ∧ dom sessions ∖ dom sessions'
        = dom sessions ∩ list_to_set canceledIds
  | Failed _ => sessions' = sessions
  end.
Proof.
  intros ids sessions'. subst sessions'. unfold gc.SessionGc_body.
  fold ids.
  destruct (application.CheckIdCanceled _ k ids) as [canceledIds|msg];
    simpl; [|done].
  assert (∀ id, id ∈ canceledIds →
            foldl (λ reg i, gc.DeleteSession i reg) sessions canceledIds
              !! id = None) as Hgone.
  { intros id Hin. by rewrite foldl_DeleteSession_lookup, decide_True. }
  assert (∀ id, id ∉ canceledIds →
            foldl (λ reg i, gc.DeleteSession i reg) sessions canceledIds
              !! id = sessions !! id) as Hkept.
  { intros id Hnin. by rewrite foldl_DeleteSession_lookup, decide_False. }
  split_and!; [done..|].
  apply set_eq. intros id.
  rewrite elem_of_difference, elem_of_intersection, elem_of_list_to_set,
    !elem_of_dom.
  destruct (decide (id ∈ canceledIds)) as [Hin|Hnin].
  - rewrite (Hgone id Hin). split; [by intros [? _]|].
    intros [? _]. split; [done|]. by intros [? ?].
  - rewrite (Hkept id Hnin). split; [by intros [? []]|by intros [_ ?]].
Qed.

(** A run of [SessionGc] for one more tick is the run so far followed by
    one pass through the body, on the registry as the tick finds it. *)
Lemma SessionGc_loop_last app others n k sessions tr :
  gc.SessionGc_loop app others (S n) k sessions tr
  = let out := gc.SessionGc_loop app others n k sessions tr in
    let pass :=
      gc.SessionGc_body app (k + n) (others (k + n)%nat out.1.2) in
    (gc.WaitingForTick, S (k + n), pass.1.2, out.2 ++ pass.2).
Proof.
  revert k sessions tr. induction n as [|n IH]; intros k sessions tr.
  - cbn [gc.SessionGc_loop]. cbv zeta. cbn [fst snd].
    rewrite Nat.add_0_r.
    pose proof (SessionGc_body_next app k (others k sessions)) as Hnext.
    destruct (gc.SessionGc_body app k (others k sessions))
      as [[c s'] evs].
    simpl in Hnext. by subst c.
  - change (gc.SessionGc_loop app others (S (S n)) k sessions tr)
      with (match gc.SessionGc_body app k (others k sessions) with
            | (gc.Next, sessions', evs) =>
                gc.SessionGc_loop app others (S n) (S k) sessions'
                  (tr ++ evs)
            | (gc.Leave, sessions', evs) =>
                (gc.Returned, S k, sessions', tr ++ evs)
            end).
    change (gc.SessionGc_loop app others (S n) k sessions tr)
      with (match gc.SessionGc_body app k (others k sessions) with
            | (gc.Next, sessions', evs) =>
                gc.SessionGc_loop app others n (S k) sessions' (tr ++ evs)
            | (gc.Leave, sessions', evs) =>
                (gc.Returned, S k, sessions', tr ++ evs)
            end).
    pose proof (SessionGc_body_next app k (others k sessions)) as Hnext.
    destruct (gc.SessionGc_body app k (others k sessions))
      as [[c s'] evs].
    simpl in Hnext. subst c. rewrite IH. cbv zeta.
    by replace (S k + n)%nat with (k + S n)%nat by lia.
Qed.

(** C9.  Every tick of [SessionGc]: the function takes a snapshot of the
    registry as the tick finds it (what the earlier ticks left, after
    what the sessions' coordinators did to it since), asks the metadata
    layer once which of the snapshot's ids are canceled, and, when the
    layer answers, deletes the reported ids, each by one call: every
    reported id is absent from the registry afterwards and every other
    id maps to what it mapped to before, so the sessions deleted are
    exactly the registered ones that were reported.  When the question
    fails, the failure is logged and the registry is left as it was. *)
Theorem SessionGc_deletes_exactly_canceled (app : application.App)
    (others : nat → gmap string application.Session →
              gmap string application.Session)
    (sessions : gmap string application.Session) (n : nat) :
  let sofar := gc.SessionGc app others sessions n in
  let out := gc.SessionGc app others sessions (S n) in
  let before := others n sofar.1.2 in
  let after := out.1.2 in
  let ids := (map_to_list before).*1 in
  match application.CheckIdCanceled (application.MetaMgr app) n ids with
  | Got canceledIds =>
      (∀ id, id ∈ canceledIds → after !! id = None)
      ∧ (∀ id, id ∉ canceledIds → after !! id = before !! id)
      ∧ dom before ∖ dom after
        = dom before ∩ list_to_set canceledIds
      ∧ out.2
        = sofar.2 ++ gc.CallCheckIdCanceled ids
                     :: (gc.CallDeleteSession <$> canceledIds)
  | Failed _ =>
      after = before
      ∧ out.2
        = sofar.2 ++ [gc.CallCheckIdCanceled ids;
                      gc.LogError "check canceled session failed"]
  end.
Proof.
  intros sofar out before after ids. subst out after.
  unfold gc.SessionGc. rewrite SessionGc_loop_last. cbv zeta.
  cbn [fst snd]. change (0 + n)%nat with n.
  fold (gc.SessionGc app others sessions n). fold sofar. fold before.
  pose proof (SessionGc_body_deletes app n before) as Hbody.
  cbv zeta in Hbody. fold ids in Hbody.
  unfold gc.SessionGc_body in *. fold ids in Hbody |- *.
  destruct (application.CheckIdCanceled _ n ids) as [canceledIds|msg];
    cbn [fst snd] in *.
  - destruct Hbody as (Hgone & Hkept & Hdom). by split_and!.
  - done.
Qed.

(** * Further properties of the code *)

(** ** ExchangeJobInfo: the retry loop *)

Section exchange_more.
Context `{!pb.Codes}.

Lemma sleeps_retried url req d n : sleeps (retried url req d n) = n.
Proof.
  unfold retried. rewrite sleeps_app. unfold sleeps at 2. simpl.
  rewrite Nat.add_0_r. induction n as [|n IH]; [done|].
  simpl. unfold sleeps in *. simpl. by rewrite IH.
Qed.

Lemma attempts_retried url req d n : attempts (retried url req d n) = S n.
Proof.
  unfold retried. rewrite attempts_app. unfold attempts at 2. simpl.
  rewrite Nat.add_1_r. f_equal. induction n as [|n IH]; [done|].
  simpl. unfold attempts in *. simpl. by rewrite IH.
Qed.

(** The loop, when the first [n] answers are SESSION_NOT_FOUND and the
    next one is not, with the budget allowing for it. *)
Lemma exchangeLoop_decided s url req left i rsp0 tr n answer :
  0 ≤ i →
  Z.of_nat left
  = application.ExchangeJobInfoRetryTimes
      (application.Conf (application.App_ s)) - i →
  (n < left)%nat →
  (∀ k, (k < n)%nat →
     ∃ rk, application.ExchangeJobInfo
             (application.InterStub (application.ExecuteInfo s))
             (Z.to_nat i + k) url req = Got rk
           ∧ pb.GetCode (pb.GetStatus rk) = pb.Code_SESSION_NOT_FOUND) →
  application.ExchangeJobInfo
    (application.InterStub (application.ExecuteInfo s))
    (Z.to_nat i + n) url req = answer →
  (∀ rsp, answer = Got rsp →
     pb.GetCode (pb.GetStatus rsp) ≠ pb.Code_SESSION_NOT_FOUND) →
  exchangeLoop s url req left i rsp0 tr
  = (match answer with
     | Failed msg => LoopReturn (Err (ErrExchangeStub (ErrExternal msg)))
     | Got rsp =>
         if pb.GetCode (pb.GetStatus rsp) =? 0 then LoopReturn (Ok rsp)
         else LoopDone rsp
     end,
     tr ++ retried url req
             (application.ExchangeJobInfoRetryInterval
                (application.Conf (application.App_ s))) n).
Proof.
  revert left i rsp0 tr.
  induction n as [|n IH]; intros left i rsp0 tr Hi Hleft Hn Hsnf Hans Hother.
  - destruct left as [|left]; [lia|]. cbn [exchangeLoop].
    rewrite Nat.add_0_r in Hans. rewrite Hans.
    destruct answer as [rsp|msg]; [|done].
    specialize (Hother rsp eq_refl).
    destruct (pb.GetCode (pb.GetStatus rsp) =? pb.Code_SESSION_NOT_FOUND)
      eqn:E; [by apply Z.eqb_eq in E|].
    by destruct (pb.GetCode (pb.GetStatus rsp) =? 0).
  - destruct left as [|left]; [lia|]. cbn [exchangeLoop].
    destruct (Hsnf 0%nat ltac:(lia)) as (r0 & Hr0 & Hc0).
    rewrite Nat.add_0_r in Hr0. rewrite Hr0, Hc0, Z.eqb_refl.
    assert ((i <? application.ExchangeJobInfoRetryTimes
                    (application.Conf (application.App_ s)) - 1) = true)
      as -> by (apply Z.ltb_lt; lia).
    rewrite (IH left (i + 1) r0); try lia.
    + f_equal. unfold retried. simpl. by rewrite <-!app_assoc.
    + intros k Hk. destruct (Hsnf (S k) ltac:(lia)) as (rk & Hrk & Hck).
      exists rk. split; [|done]. rewrite <-Hrk. f_equal. lia.
    + rewrite <-Hans. f_equal. lia.
    + done.
Qed.

(** The loop under the invariant of the call: [left] is what the budget
    leaves after [i] calls.  One sleep separates two calls. *)
Lemma exchangeLoop_sleeps s url req left i rsp0 tr :
  left = O
  ∨ Z.of_nat left
    = application.ExchangeJobInfoRetryTimes
        (application.Conf (application.App_ s)) - i →
  ∃ evs,
    (exchangeLoop s url req left i rsp0 tr).2 = tr ++ evs
    ∧ sleeps evs = (attempts evs - 1)%nat
    ∧ (left ≠ O → attempts evs ≠ O)
    ∧ (∀ e, e ∈ evs → is_sleep e = true →
         e = EvSleep (application.ExchangeJobInfoRetryInterval
                        (application.Conf (application.App_ s)))).
Proof.
  revert i rsp0 tr. induction left as [|left IH]; intros i rsp0 tr Hinv.
  { exists []. simpl. rewrite app_nil_r. split_and!; [done..|].
    intros e He. inversion He. }
  destruct Hinv as [|Hinv]; [done|]. cbn [exchangeLoop].
  assert (∀ evs : list event,
            evs = [EvExchange url req] →
            sleeps evs = (attempts evs - 1)%nat
            ∧ (S left ≠ O → attempts evs ≠ O)
            ∧ (∀ e, e ∈ evs → is_sleep e = true →
                 e = EvSleep (application.ExchangeJobInfoRetryInterval
                                (application.Conf (application.App_ s)))))
    as Hone.
  { intros evs ->. split_and!; [done|done|].
    by intros e ->%list_elem_of_singleton. }
  destruct (application.ExchangeJobInfo _ (Z.to_nat i) url req)
    as [rsp|msg].
  2: { exists [EvExchange url req]. split; [done|]. by apply Hone. }
  destruct (pb.GetCode (pb.GetStatus rsp) =? pb.Code_SESSION_NOT_FOUND).
  2: { destruct (pb.GetCode (pb.GetStatus rsp) =? 0);
         exists [EvExchange url req]; (split; [done|]); by apply Hone. }
  destruct (i <? _) eqn:Hlt.
  - apply Z.ltb_lt in Hlt.
    destruct (IH (i + 1) rsp
                ((tr ++ [EvExchange url req]) ++
                 [EvSleep (application.ExchangeJobInfoRetryInterval
                             (application.Conf (application.App_ s)))]))
      as (evs & -> & Hsl & Hpos & Hint); [right; lia|].
    exists ([EvExchange url req] ++
            [EvSleep (application.ExchangeJobInfoRetryInterval
                        (application.Conf (application.App_ s)))] ++ evs).
    split; [by rewrite <-!app_assoc|].
    rewrite !sleeps_app, !attempts_app.
    change (sleeps [EvExchange url req]) with 0%nat.
    change (attempts [EvExchange url req]) with 1%nat.
    change (sleeps [EvSleep _]) with 1%nat.
    change (attempts [EvSleep _]) with 0%nat.
    specialize (Hpos ltac:(lia)).
    split_and!; [lia|lia|].
    intros e. rewrite !elem_of_app.
    intros [->%list_elem_of_singleton|[->%list_elem_of_singleton|He]] Hs;
      [done|done|by apply Hint].
  - apply Z.ltb_ge in Hlt. assert (left = O) as -> by lia.
    exists [EvExchange url req]. simpl. split; [done|]. by apply Hone.
Qed.

(** X2.  In every run of [ExchangeJobInfo] the number of sleeps is the
    number of calls less one (none when no call is made): one sleep
    separates two calls and none follows the last.  Every sleep lasts the
    configured interval. *)
Theorem ExchangeJobInfo_sleeps (r : QueryRunner) (targetParty : string) :
  let conf := application.Conf (application.App_ (session r)) in
  let tr := (ExchangeJobInfo r targetParty).2 in
  sleeps tr = (attempts tr - 1)%nat
  ∧ (∀ e, e ∈ tr → is_sleep e = true →
       e = EvSleep (application.ExchangeJobInfoRetryInterval conf)).
Proof.
  intros conf tr. subst tr. unfold ExchangeJobInfo.
  destruct (exchangeRequest r targetParty) as [req|e].
  2: { simpl. split; [done|]. intros e' He'. inversion He'. }
  destruct (application.GetBrokerUrlByParty _ targetParty) as [url|msg].
  2: { simpl. split; [done|]. intros e' He'. inversion He'. }
  destruct (exchangeLoop_sleeps (session r) url req
              (Z.to_nat (application.ExchangeJobInfoRetryTimes conf)) 0
              {| pb.RespStatus := None; pb.ExpectedServerChecksum := None |}
              [])
    as (evs & Htr & Hsl & _ & Hint).
  { destruct (Z.to_nat _) eqn:E; [by left|right]. rewrite <-E. subst conf. lia. }
  simpl in Htr. subst conf.
  destruct (exchangeLoop _ _ _ _ _ _ _) as [[ret|rsp] tr]; simpl in Htr;
    subst tr.
  - done.
  - destruct (pb.RespStatus rsp) as [st|]; [|done].
    by destruct (pb.StatusCode st =? pb.Code_DATA_INCONSISTENCY).
Qed.

Lemma exchangeLoop_exhausted s url req left i rsp0 tr :
  0 ≤ i →
  (∀ k, (k < left)%nat →
     ∃ rk, application.ExchangeJobInfo
             (application.InterStub (application.ExecuteInfo s))
             (Z.to_nat i + k) url req = Got rk
           ∧ pb.GetCode (pb.GetStatus rk) = pb.Code_SESSION_NOT_FOUND) →
  ∃ rsp evs,
    exchangeLoop s url req left i rsp0 tr = (LoopDone rsp, tr ++ evs)
    ∧ attempts evs = left
    ∧ (left ≠ O →
       pb.GetCode (pb.GetStatus rsp) = pb.Code_SESSION_NOT_FOUND).
Proof.
  revert i rsp0 tr. induction left as [|left IH]; intros i rsp0 tr Hi Hsnf.
  { exists rsp0, []. by rewrite app_nil_r. }
  cbn [exchangeLoop].
  destruct (Hsnf 0%nat ltac:(lia)) as (r0 & Hr0 & Hc0).
  rewrite Nat.add_0_r in Hr0. rewrite Hr0, Hc0, Z.eqb_refl.
  set (tr' := if i <? _ then _ else _).
  destruct (IH (i + 1) r0 tr' ltac:(lia)) as (rsp & evs & Hrun & Hatt & Hcode).
  { intros k Hk. destruct (Hsnf (S k) ltac:(lia)) as (rk & Hrk & Hck).
    exists rk. split; [|done]. rewrite <-Hrk. f_equal. lia. }
  assert (∃ sl, tr' = (tr ++ [EvExchange url req]) ++ sl ∧ attempts sl = O)
    as (sl & Htr' & Hsl).
  { subst tr'. destruct (i <? _); [by eexists [_]|exists []].
    by rewrite app_nil_r. }
  exists rsp, ([EvExchange url req] ++ sl ++ evs).
  rewrite Hrun, Htr', <-!app_assoc. split; [done|].
  rewrite !attempts_app, Hsl, Hatt.
  change (attempts [EvExchange url req]) with 1%nat.
  split; [lia|]. intros _.
  destruct left as [|left]; [|by apply Hcode].
  simpl in Hrun. by injection Hrun as <- _.
Qed.

Lemma exchangeLoop_exit s url req left i rsp0 tr :
  match (exchangeLoop s url req left i rsp0 tr).1 with
  | LoopReturn (Ok rsp) =>
      pb.GetCode (pb.GetStatus rsp) = 0
      ∧ ∃ k, application.ExchangeJobInfo
               (application.InterStub (application.ExecuteInfo s))
               k url req = Got rsp
  | LoopReturn (Err e) => ∃ msg, e = ErrExchangeStub (ErrExternal msg)
  | LoopDone rsp =>
      (left = O ∧ rsp = rsp0)
      ∨ ((∃ k, application.ExchangeJobInfo
                 (application.InterStub (application.ExecuteInfo s))
                 k url req = Got rsp)
         ∧ (pb.GetCode (pb.GetStatus rsp) = pb.Code_SESSION_NOT_FOUND
            ∨ pb.GetCode (pb.GetStatus rsp) ≠ 0))
  end.
Proof.
  revert i rsp0 tr. induction left as [|left IH]; intros i rsp0 tr.
  { simpl. by left. }
  cbn [exchangeLoop].
  destruct (application.ExchangeJobInfo _ (Z.to_nat i) url req)
    as [rsp|msg] eqn:Hstub; [|simpl; eauto].
  destruct (pb.GetCode (pb.GetStatus rsp) =? pb.Code_SESSION_NOT_FOUND)
    eqn:Hsnf.
  - apply Z.eqb_eq in Hsnf.
    set (tr' := if i <? _ then _ else _).
    specialize (IH (i + 1) rsp tr').
    destruct (exchangeLoop s url req left (i + 1) rsp tr').1
      as [[r'|e]|r']; [done..|].
    destruct IH as [[_ ->]|IH]; [|by right].
    right. eauto.
  - destruct (pb.GetCode (pb.GetStatus rsp) =? 0) eqn:Hzero; simpl.
    + apply Z.eqb_eq in Hzero. eauto.
    + apply Z.eqb_neq in Hzero. right. eauto.
Qed.

(** X5.  The first answer that is not SESSION_NOT_FOUND decides the call.
    If the first [n] calls are answered SESSION_NOT_FOUND, the budget
    allows one more, and that one is answered by a failure or by another
    status, then [ExchangeJobInfo] makes exactly [n + 1] calls with [n]
    sleeps between them and returns: the failure wrapped; the response,
    when its status is absent, 0 or DATA_INCONSISTENCY; an error carrying
    the status otherwise. *)
Theorem ExchangeJobInfo_first_other_answer (r : QueryRunner)
    (targetParty url : string) (req : pb.ExchangeJobInfoRequest)
    (n : nat) (answer : ext pb.ExchangeJobInfoResponse) :
  let conf := application.Conf (application.App_ (session r)) in
  let stub :=
    application.ExchangeJobInfo
      (application.InterStub (application.ExecuteInfo (session r))) in
  exchangeRequest r targetParty = Ok req →
  application.GetBrokerUrlByParty
    (application.PartyMgr (application.App_ (session r)))
    targetParty = Got url →
  Z.of_nat n < application.ExchangeJobInfoRetryTimes conf →
  (∀ k, (k < n)%nat →
     ∃ rk, stub k url req = Got rk
           ∧ pb.GetCode (pb.GetStatus rk) = pb.Code_SESSION_NOT_FOUND) →
  stub n url req = answer →
  (∀ rsp, answer = Got rsp →
     pb.GetCode (pb.GetStatus rsp) ≠ pb.Code_SESSION_NOT_FOUND) →
  ExchangeJobInfo r targetParty
  = (verdict targetParty answer,
     retried url req (application.ExchangeJobInfoRetryInterval conf) n).
Proof.
  intros conf stub Hreq Hurl Hn Hsnf Hans Hother.
  unfold ExchangeJobInfo. rewrite Hreq, Hurl.
  rewrite (exchangeLoop_decided (session r) url req _ 0 _ [] n answer);
    [|lia|fold conf; lia|fold conf; lia|done..].
  simpl. unfold verdict. destruct answer as [rsp|msg]; [|done].
  unfold pb.GetStatus. destruct (pb.RespStatus rsp) as [st|] eqn:Hst; simpl.
  - destruct (pb.StatusCode st =? 0); [done|]. rewrite Hst.
    by destruct (pb.StatusCode st =? pb.Code_DATA_INCONSISTENCY).
  - done.
Qed.

(** X4.  When every call the budget allows is answered
    SESSION_NOT_FOUND, [ExchangeJobInfo] uses the whole budget, sleeps
    between the calls but not after the last, and fails with the error
    that carries the last status. *)
Theorem ExchangeJobInfo_budget_used_up (r : QueryRunner)
    (targetParty url : string) (req : pb.ExchangeJobInfoRequest) :
  let conf := application.Conf (application.App_ (session r)) in
  let retryTimes := Z.to_nat (application.ExchangeJobInfoRetryTimes conf) in
  let stub :=
    application.ExchangeJobInfo
      (application.InterStub (application.ExecuteInfo (session r))) in
  pb.Code_SESSION_NOT_FOUND ≠ 0 →
  pb.Code_SESSION_NOT_FOUND ≠ pb.Code_DATA_INCONSISTENCY →
  1 ≤ application.ExchangeJobInfoRetryTimes conf →
  exchangeRequest r targetParty = Ok req →
  application.GetBrokerUrlByParty
    (application.PartyMgr (application.App_ (session r)))
    targetParty = Got url →
  (∀ k, (k < retryTimes)%nat →
     ∃ rk, stub k url req = Got rk
           ∧ pb.GetCode (pb.GetStatus rk) = pb.Code_SESSION_NOT_FOUND) →
  ∃ st,
    (ExchangeJobInfo r targetParty).1
      = Err (ErrExchangeFailed targetParty st)
    ∧ pb.StatusCode st = pb.Code_SESSION_NOT_FOUND
    ∧ attempts (ExchangeJobInfo r targetParty).2 = retryTimes
    ∧ sleeps (ExchangeJobInfo r targetParty).2 = (retryTimes - 1)%nat.
Proof.
  intros conf retryTimes stub Hsnf0 Hdi Hretry Hreq Hurl Hall.
  unfold ExchangeJobInfo. rewrite Hreq, Hurl.
  destruct (exchangeLoop_exhausted (session r) url req retryTimes 0
              {| pb.RespStatus := None; pb.ExpectedServerChecksum := None |}
              [] ltac:(lia) Hall)
    as (rsp & evs & Hrun & Hatt & Hcode).
  destruct (exchangeLoop_sleeps (session r) url req retryTimes 0
              {| pb.RespStatus := None; pb.ExpectedServerChecksum := None |}
              [])
    as (evs' & Htr & Hsl & _); [right; subst retryTimes conf; lia|].
  rewrite Hrun in Htr. simpl in Htr. subst evs'.
  fold conf. fold retryTimes. rewrite Hrun. simpl.
  specialize (Hcode ltac:(subst retryTimes; lia)).
  unfold pb.GetStatus in Hcode.
  destruct (pb.RespStatus rsp) as [st|]; simpl in Hcode; [|congruence].
  exists st. rewrite Hcode.
  destruct (pb.Code_SESSION_NOT_FOUND =? pb.Code_DATA_INCONSISTENCY) eqn:E;
    [by apply Z.eqb_eq in E|].
  simpl. by rewrite Hsl, Hatt.
Qed.

(** X3.  With a retry budget of zero or less, [ExchangeJobInfo] calls
    nobody and fails with the error of the missing status, on the empty
    response it started from. *)
Theorem ExchangeJobInfo_no_budget (r : QueryRunner)
    (targetParty url : string) (req : pb.ExchangeJobInfoRequest) :
  application.ExchangeJobInfoRetryTimes
    (application.Conf (application.App_ (session r))) ≤ 0 →
  exchangeRequest r targetParty = Ok req →
  application.GetBrokerUrlByParty
    (application.PartyMgr (application.App_ (session r)))
    targetParty = Got url →
  ExchangeJobInfo r targetParty
  = (Err (ErrResponse targetParty
            {| pb.RespStatus := None; pb.ExpectedServerChecksum := None |}),
     []).
Proof.
  intros Hretry Hreq Hurl. unfold ExchangeJobInfo. rewrite Hreq, Hurl.
  by rewrite Z2Nat.nonpos.
Qed.

(** X1.  What [ExchangeJobInfo] can return.  A response it returns was
    produced by the peer for this request and has status 0 (or none) or
    DATA_INCONSISTENCY.  An error it returns is the failure of the local
    checksum lookup, of the address lookup or of a call, each before any
    further call; or the error of the missing status, and then no call
    was made at all; or the error carrying a status that is neither 0 nor
    DATA_INCONSISTENCY. *)
Theorem ExchangeJobInfo_outcomes (r : QueryRunner) (targetParty : string) :
  pb.Code_SESSION_NOT_FOUND ≠ 0 →
  match ExchangeJobInfo r targetParty with
  | (Ok rsp, tr) =>
      (pb.GetCode (pb.GetStatus rsp) = 0
       ∨ ∃ st, pb.RespStatus rsp = Some st
               ∧ pb.StatusCode st = pb.Code_DATA_INCONSISTENCY)
      ∧ ∃ k url req,
          exchangeRequest r targetParty = Ok req
          ∧ application.ExchangeJobInfo
              (application.InterStub
                 (application.ExecuteInfo (session r)))
              k url req = Got rsp
  | (Err e, tr) =>
      (∃ msg, e = ErrLocalChecksum (ErrExternal msg) ∧ tr = [])
      ∨ (∃ msg, e = ErrExchangeStub (ErrExternal msg))
      ∨ (∃ rsp, e = ErrResponse targetParty rsp ∧ tr = [])
      ∨ (∃ st, e = ErrExchangeFailed targetParty st
               ∧ pb.StatusCode st ≠ 0
               ∧ pb.StatusCode st ≠ pb.Code_DATA_INCONSISTENCY)
  end.
Proof.
  intros Hsnf0. unfold ExchangeJobInfo.
  destruct (exchangeRequest r targetParty) as [req|e] eqn:Hreq.
  2: { left. unfold exchangeRequest in Hreq.
       destruct (bool_decide _); [|done].
       destruct (application.GetLocalChecksum _ _); [done|].
       injection Hreq as <-. eauto. }
  destruct (application.GetBrokerUrlByParty _ targetParty) as [url|msg].
  2: { right. left. eauto. }
  destruct (Z.to_nat _) as [|left] eqn:Hleft.
  { simpl. right. right. left. eauto. }
  pose proof (exchangeLoop_exit (session r) url req (S left) 0
                {| pb.RespStatus := None; pb.ExpectedServerChecksum := None |}
                []) as Hexit.
  destruct (exchangeLoop _ _ _ _ _ _ _) as [[[rsp|e]|rsp] tr];
    simpl in Hexit.
  - destruct Hexit as [Hcode (k & Hk)]. split; [by left|]. eauto.
  - destruct Hexit as [msg ->]. right. left. eauto.
  - destruct Hexit as [[? _]|[(k & Hk) Hcode]]; [done|].
    assert (pb.GetCode (pb.GetStatus rsp) ≠ 0) as Hnz.
    { destruct Hcode as [Hc|Hc]; [congruence|done]. }
    unfold pb.GetStatus in Hnz.
    destruct (pb.RespStatus rsp) as [st|] eqn:Hst; simpl in Hnz; [|done].
    destruct (pb.StatusCode st =? pb.Code_DATA_INCONSISTENCY) eqn:Hdi.
    + apply Z.eqb_eq in Hdi. split; [right; eauto|eauto].
    + apply Z.eqb_neq in Hdi. right. right. right. eauto.
Qed.

(** X6.  Every call [ExchangeJobInfo] makes goes to the address the party
    manager gives for the target and carries this job's project id and
    job id and this party's code; the local checksum kept for the target
    is attached when the target is a data party, and no checksum when it
    is not. *)
Theorem ExchangeJobInfo_requests (r : QueryRunner) (targetParty url : string)
    (req : pb.ExchangeJobInfoRequest) :
  let s := session r in
  let info := application.ExecuteInfo s in
  EvExchange url req ∈ (ExchangeJobInfo r targetParty).2 →
  application.GetBrokerUrlByParty
    (application.PartyMgr (application.App_ s)) targetParty = Got url
  ∧ pb.ProjectId req = application.ProjectID info
  ∧ pb.JobId req = application.JobID info
  ∧ pb.ClientId req = Some {| pb.Code := application.GetSelfPartyCode s |}
  ∧ (targetParty ∈ application.DataParties info →
     ∃ cs, application.GetLocalChecksum s targetParty = Got cs
           ∧ pb.ServerChecksum req
             = Some {| pb.TableSchema := application.TableSchema cs;
                       pb.Ccl := application.CCL cs |})
  ∧ (targetParty ∉ application.DataParties info →
     pb.ServerChecksum req = None).
Proof.
  intros s info. subst s info. unfold ExchangeJobInfo.
  destruct (exchangeRequest r targetParty) as [req0|e] eqn:Hreq;
    [|intros Hin; inversion Hin].
  destruct (application.GetBrokerUrlByParty _ targetParty) as [url0|msg];
    [|intros Hin; inversion Hin].
  intros Hin.
  assert (EvExchange url req
          ∈ (exchangeLoop (session r) url0 req0
               (Z.to_nat (application.ExchangeJobInfoRetryTimes
                  (application.Conf (application.App_ (session r)))))
               0 {| pb.RespStatus := None;
                    pb.ExpectedServerChecksum := None |} []).2) as Hin'.
  { destruct (exchangeLoop _ _ _ _ _ _ _) as [[ret|rsp] tr]; [done|].
    destruct (pb.RespStatus rsp) as [st|]; [|done].
    by destruct (pb.StatusCode st =? pb.Code_DATA_INCONSISTENCY). }
  clear Hin.
  destruct (exchangeLoop_trace (session r) url0 req0
              (Z.to_nat (application.ExchangeJobInfoRetryTimes
                 (application.Conf (application.App_ (session r)))))
              0 {| pb.RespStatus := None; pb.ExpectedServerChecksum := None |}
              [] ltac:(lia)) as (evs & Htr & _ & Hsame & _).
  rewrite Htr in Hin'. simpl in Hin'.
  injection (Hsame _ Hin' eq_refl) as -> ->.
  split; [done|]. unfold exchangeRequest in Hreq.
  case_bool_decide as Hdata.
  - destruct (application.GetLocalChecksum _ _) as [cs|] eqn:Hcs; [|done].
    injection Hreq as <-. simpl. split_and!; [done..| |done].
    intros _. by exists cs.
  - injection Hreq as <-. simpl. by split_and!.
Qed.

End exchange_more.

(** ** prepareData, CreateInfoSchema and Prepare *)

Section prepare_more.
Context `{!Lib}.

(** X7.  [Prepare] starts from a clean slate: what it returns and the
    state it leaves depend on the session and on the PrepareAgain flag
    only, not on the EnginesInfo, info schema, ccls or tables cached by
    an earlier call.  In particular the ccls of an earlier call are not
    added to. *)
Theorem Prepare_ignores_cache (r1 r2 : QueryRunner)
    (usedTables : list core.DbTable) :
  session r1 = session r2 →
  prepareAgain r1 = prepareAgain r2 →
  Prepare r1 usedTables = Prepare r2 usedTables.
Proof.
  destruct r1 as [s1 i1 is1 c1 t1 b1], r2 as [s2 i2 is2 c2 t2 b2].
  simpl. intros -> ->. reflexivity.
Qed.

Lemma collectTables_party2Tables ts acc c p :
  collectTables ts acc = Ok c →
  default [] (party2Tables c !! p)
  = default [] (party2Tables acc !! p) ++ tablesOwnedBy p ts.
Proof.
  revert acc. induction ts as [|t ts IH]; intros acc; simpl.
  - intros [= <-]. by rewrite app_nil_r.
  - destruct (NewDbTableFromString _); [|done].
    destruct (ParseDBType _); [|done].
    intros ->%IH. simpl. unfold tablesOwnedBy. simpl.
    set (owner := storage.Owner (storage.Table_ t)).
    assert (default [] ((match party2Tables acc !! owner with
                         | Some _ => party2Tables acc
                         | None => <[owner := []]> (party2Tables acc)
                         end) !! owner)
            = default [] (party2Tables acc !! owner)) as Hsame.
    { destruct (party2Tables acc !! owner) eqn:E; [by rewrite E|].
      by rewrite lookup_insert_eq. }
    rewrite Hsame.
    case_bool_decide as Hp.
    + subst p. rewrite lookup_insert_eq. simpl. by rewrite <-app_assoc.
    + rewrite lookup_insert_ne by done. f_equal.
      destruct (party2Tables acc !! owner); [done|].
      by rewrite lookup_insert_ne.
Qed.

(** What a successful [prepareData] has done. *)
Lemma prepareParties_success r txn names r' dp wp :
  prepareParties r txn names = (r', (dp, wp, None)) →
  ∃ c partyInfo privs,
    collectTables (tables r)
      {| parties := []; party2Tables := ∅; tableToRefs := ∅ |} = Ok c
    ∧ application.GetPartyInfoByParties
        (application.PartyMgr (application.App_ (session r))) wp
      = Got partyInfo
    ∧ info r'
      = Some (translator.UpdateTableToRefs
                (translator.NewEnginesInfo partyInfo (party2Tables c))
                (tableToRefs c))
    ∧ application.ListColumnConstraints txn
        (application.ProjectID (application.ExecuteInfo (session r)))
        names wp = (privs, None)
    ∧ application.Commit txn = None
    ∧ ccls r' = ccls r ++ (columnControl <$> privs).
Proof.
  unfold prepareParties.
  destruct (collectTables _ _) as [c|e] eqn:Hc; [|done].
  destruct (application.GetPartyInfoByParties _ _) as [pi|msg] eqn:Hpi;
    [|done].
  destruct (application.ListColumnConstraints _ _ _ _) as [privs e] eqn:Hl.
  intros [= <- <- <- Hfin].
  destruct e as [e|]; [done|]. simpl in Hfin.
  destruct (application.Commit txn) eqn:Hcommit; [done|].
  exists c, pi, privs. by split_and!.
Qed.

Lemma prepareData_success r names r' dp wp :
  (prepareData r names).1 = (r', (dp, wp, None)) →
  ∃ n c partyInfo privs,
    (n = 0 ∨ n = 1)%nat
    ∧ collectTables (tables r')
        {| parties := []; party2Tables := ∅; tableToRefs := ∅ |} = Ok c
    ∧ application.GetPartyInfoByParties
        (application.PartyMgr (application.App_ (session r))) wp
      = Got partyInfo
    ∧ info r'
      = Some (translator.UpdateTableToRefs
                (translator.NewEnginesInfo partyInfo (party2Tables c))
                (tableToRefs c))
    ∧ application.ListColumnConstraints
        (application.CreateMetaTransaction
           (application.MetaMgr (application.App_ (session r))) n)
        (application.ProjectID (application.ExecuteInfo (session r)))
        names wp = (privs, None)
    ∧ application.Commit
        (application.CreateMetaTransaction
           (application.MetaMgr (application.App_ (session r))) n) = None
    ∧ ccls r' = ccls r ++ (columnControl <$> privs).
Proof.
  unfold prepareData.
  destruct (application.GetTableMetasByTableNames
              (application.CreateMetaTransaction _ 0) _ names)
    as [[tbls0 nf0] [e0|]]; cbv beta iota zeta; cbn [fst]; [done|].
  assert (∀ n r0,
            (n = 0 ∨ n = 1)%nat →
            session r0 = session r → ccls r0 = ccls r →
            prepareParties r0
              (application.CreateMetaTransaction
                 (application.MetaMgr (application.App_ (session r))) n)
              names = (r', (dp, wp, None)) →
            ∃ n c partyInfo privs,
              (n = 0 ∨ n = 1)%nat
              ∧ collectTables (tables r')
                  {| parties := []; party2Tables := ∅; tableToRefs := ∅ |}
                = Ok c
              ∧ application.GetPartyInfoByParties
                  (application.PartyMgr (application.App_ (session r))) wp
                = Got partyInfo
              ∧ info r'
                = Some (translator.UpdateTableToRefs
                          (translator.NewEnginesInfo partyInfo
                             (party2Tables c))
                          (tableToRefs c))
              ∧ application.ListColumnConstraints
                  (application.CreateMetaTransaction
                     (application.MetaMgr (application.App_ (session r))) n)
                  (application.ProjectID
                     (application.ExecuteInfo (session r)))
                  names wp = (privs, None)
              ∧ application.Commit
                  (application.CreateMetaTransaction
                     (application.MetaMgr (application.App_ (session r))) n)
                = None
              ∧ ccls r' = ccls r ++ (columnControl <$> privs)) as Hrest.
  { intros n r0 Hn Hs Hc Hrun.
    pose proof Hrun as (_ & Ht & _)%prepareParties_spec.
    apply prepareParties_success in Hrun
      as (c & pi & privs & Hcol & Hpi & Hinfo & Hl & Hcommit & Hccls).
    rewrite Hs in Hpi, Hl. rewrite Hc in Hccls. rewrite <-Ht in Hcol.
    exists n, c, pi, privs. by split_and!. }
  change (prepareAgain (set_tables tbls0 r)) with (prepareAgain r).
  destruct (bool_decide (0 < length nf0)%nat && negb (prepareAgain r));
    cbn [fst]; [|apply (Hrest 0%nat); auto].
  destruct (application.GetProjectMembers _ _) as [members|msg];
    cbn [fst]; [|done].
  destruct (application.GetTableMetasByTableNames
              (application.CreateMetaTransaction _ 1) _ names)
    as [[tbls1 nf1] [e1|]]; cbv beta iota zeta; cbn [fst]; [done|].
  case_bool_decide; cbn [fst]; [done|]. apply (Hrest 1%nat); auto.
Qed.

Lemma Prepare_success_engines (r r' : QueryRunner)
    (usedTables : list core.DbTable) (dp wp : list string) :
  Prepare r usedTables = (r', (dp, wp, None)) →
  ∃ engines,
    info r' = Some engines
    ∧ (∀ p, translator.GetTablesByParty engines p
            = tablesOwnedBy p (tables r'))
    ∧ application.GetPartyInfoByParties
        (application.PartyMgr (application.App_ (session r))) wp
      = Got (translator.partyInfo engines).
Proof.
  intros (r0 & err0 & Hdata & _ & Ht & Hi & _ & _ & Herr)%Prepare_spec.
  destruct err0 as [e|]; [by destruct Herr|].
  apply prepareData_success in Hdata
    as (n & c & pi & privs & _ & Hcol & Hpi & Hinfo & _).
  rewrite Hi, Hinfo. eexists. split; [done|].
  split; [|done].
  intros p. unfold translator.GetTablesByParty. simpl.
  rewrite (collectTables_party2Tables _ _ _ p Hcol), Ht.
  cbn [party2Tables]. by rewrite lookup_empty.
Qed.

(** X8.  After a successful [Prepare] the tables the runner holds are
    the ones the store resolved in the last lookup of the call, and the
    EnginesInfo lists, under every party, one planner table per resolved
    table the party owns, named by project and table, in the order of
    the resolved tables; the parties with a list that is not empty are
    exactly the owners of the resolved tables; and the party information
    is what the party manager gave for the work parties. *)
Theorem Prepare_engines_info (r r' : QueryRunner)
    (usedTables : list core.DbTable) (dp wp : list string) :
  Prepare r usedTables = (r', (dp, wp, None)) →
  let resolvedTables := resolved r usedTables in
  tables r' = resolvedTables
  ∧ ∃ engines,
      info r' = Some engines
      ∧ (∀ p, translator.GetTablesByParty engines p
              = tablesOwnedBy p resolvedTables)
      ∧ (∀ p, p ∈ owners resolvedTables
              ↔ translator.GetTablesByParty engines p ≠ [])
      ∧ application.GetPartyInfoByParties
          (application.PartyMgr (application.App_ (session r))) wp
        = Got (translator.partyInfo engines).
Proof.
  intros Hrun resolvedTables.
  pose proof (Prepare_resolved _ _ _ _ _ Hrun) as Hres.
  fold resolvedTables in Hres. split; [done|].
  apply Prepare_success_engines in Hrun
    as (engines & Hinfo & Htables & Hpi).
  rewrite Hres in Htables.
  exists engines. split_and!; [done..| |done].
  intros p. rewrite Htables. unfold owners, tablesOwnedBy.
  rewrite list_elem_of_fmap. split.
  - intros (t & -> & Ht') Hnil.
    apply fmap_nil_inv in Hnil.
    assert (In t (List.filter
                    (λ t0, bool_decide
                             (storage.Owner (storage.Table_ t0)
                              = storage.Owner (storage.Table_ t)))
                    resolvedTables)) as Hin.
    { apply filter_In. split; [by apply list_elem_of_In|].
      by apply bool_decide_eq_true. }
    rewrite Hnil in Hin. inversion Hin.
  - intros Hne.
    destruct (List.filter _ resolvedTables) as [|t l] eqn:Hf; [done|].
    assert (In t (List.filter
                    (λ t0, bool_decide
                             (storage.Owner (storage.Table_ t0) = p))
                    resolvedTables)) as Hin by (rewrite Hf; by left).
    apply filter_In in Hin as [Hin Hp%bool_decide_eq_true].
    exists t. split; [done|]. by apply list_elem_of_In.
Qed.

(** X9.  After a successful [Prepare] the cached ccls are exactly the
    translations, in order, of the column constraints the metadata store
    listed for the project, the used table names and the work parties,
    in the transaction that was then committed. *)
Theorem Prepare_ccls (r r' : QueryRunner)
    (usedTables : list core.DbTable) (dp wp : list string) :
  Prepare r usedTables = (r', (dp, wp, None)) →
  ∃ n privs,
    (n = 0 ∨ n = 1)%nat
    ∧ application.ListColumnConstraints
        (application.CreateMetaTransaction
           (application.MetaMgr (application.App_ (session r))) n)
        (application.ProjectID (application.ExecuteInfo (session r)))
        (usedNames usedTables) wp = (privs, None)
    ∧ application.Commit
        (application.CreateMetaTransaction
           (application.MetaMgr (application.App_ (session r))) n) = None
    ∧ ccls r' = columnControl <$> privs.
Proof.
  intros (r0 & err0 & Hdata & _ & _ & _ & Hc & _ & Herr)%Prepare_spec.
  destruct err0 as [e|]; [by destruct Herr|].
  apply prepareData_success in Hdata
    as (n & c & pi & privs & Hn & _ & _ & _ & Hl & Hcommit & Hccls).
  exists n, privs. rewrite Hc, Hccls. by split_and!.
Qed.

(** X12.  [Prepare] leaves an info schema exactly when it succeeds; and
    when it succeeds it leaves an EnginesInfo too.  (A failing call can
    leave an EnginesInfo and ccls behind, but never an info schema.) *)
Theorem Prepare_info_schema_iff_success (r r' : QueryRunner)
    (usedTables : list core.DbTable) (dp wp : list string)
    (err : option error) :
  Prepare r usedTables = (r', (dp, wp, err)) →
  (is_Some (is_ r') ↔ err = None)
  ∧ (err = None → is_Some (info r')).
Proof.
  intros Hrun. split.
  - revert Hrun. unfold Prepare.
    destruct (prepareData (Clear r) _) as [[r0 [[dp0 wp0] err0]] tr0]
      eqn:Hdata.
    apply (f_equal fst) in Hdata. cbn [fst] in Hdata.
    apply prepareData_spec in Hdata as (_ & _ & His & _).
    destruct err0 as [e|].
    + intros [= <- <- <- <-]. rewrite His. simpl.
      split; [by intros [? ?]|done].
    + destruct (CreateInfoSchema r0 (tables r0));
        intros [= <- <- <- <-]; simpl.
      * split; [done|by eexists].
      * split; [by intros [? ?]|done].
  - intros ->. apply Prepare_success_engines in Hrun as (e & -> & _).
    by eexists.
Qed.

End prepare_more.

Section info_schema_more.
Context `{!Lib}.

Lemma columnInfos_ok cols i acc out :
  columnInfos cols i acc = Ok out →
  ∃ added,
    out = acc ++ added
    ∧ length added = length cols
    ∧ ∀ (j : nat) col,
        cols !! j = Some col →
        ∃ ci, added !! j = Some ci
              ∧ model.ID ci = i + Z.of_nat j
              ∧ model.Offset ci = i + Z.of_nat j
              ∧ model.Name ci = model.NewCIStr (storage.ColumnName col)
              ∧ TypeDefaultValue (ToLower (storage.DType col))
                = Got (model.DefaultValue ci)
              ∧ TypeConversion (ToLower (storage.DType col))
                = Got (model.FieldType ci).
Proof.
  revert i acc. induction cols as [|c cols IH]; intros i acc; simpl.
  - intros [= <-]. exists []. rewrite app_nil_r. by split_and!.
  - destruct (TypeDefaultValue _) as [dv|] eqn:Hdv; [|done].
    destruct (TypeConversion _) as [ft|] eqn:Hft; [|done].
    intros (added & -> & Hlen & Hcols)%IH.
    eexists (_ :: added). rewrite <-app_assoc. split; [done|].
    split; [simpl; by rewrite Hlen|].
    intros [|j] col; simpl.
    + intros [= <-]. eexists. split; [done|]. simpl.
      rewrite Z.add_0_r. by split_and!.
    + intros (ci & Hci & Hid & Hoff & Hrest)%Hcols.
      exists ci. split; [done|]. split_and!; [lia|lia|apply Hrest..].
Qed.

Lemma columnInfos_is_ok cols i acc :
  is_ok (columnInfos cols i acc) = true
  ↔ Forall (λ col, type_accepted (storage.DType col)) cols.
Proof.
  revert i acc. induction cols as [|c cols IH]; intros i acc; simpl.
  - split; [constructor|done].
  - rewrite Forall_cons. unfold type_accepted at 1.
    destruct (TypeDefaultValue _) as [dv|] eqn:Hdv.
    2: { split; [done|]. by intros [[[? ?] _] _]. }
    destruct (TypeConversion _) as [ft|] eqn:Hft.
    2: { split; [done|]. by intros [[_ [? ?]] _]. }
    rewrite IH. split; [|by intros [_ ?]].
    intros Hrest. split; [|done]. split; eauto.
Qed.

Lemma tableInfos_ok tbls i acc out :
  tableInfos tbls i acc = Ok out →
  ∃ added,
    out = acc ++ added
    ∧ length added = length tbls
    ∧ ∀ (k : nat) tbl,
        tbls !! k = Some tbl →
        ∃ ti, added !! k = Some ti
              ∧ model.TblID ti = i + Z.of_nat k
              ∧ model.TableId ti = Sprint (i + Z.of_nat k)
              ∧ model.TblName ti
                = model.NewCIStr (storage.TableName (storage.Table_ tbl))
              ∧ columnInfos (storage.Columns tbl) 0 []
                = Ok (model.Columns ti).
Proof.
  revert i acc. induction tbls as [|t tbls IH]; intros i acc; simpl.
  - intros [= <-]. exists []. rewrite app_nil_r. by split_and!.
  - destruct (columnInfos _ 0 []) as [cols|] eqn:Hcols; [|done].
    intros (added & -> & Hlen & Htbls)%IH.
    eexists (_ :: added). rewrite <-app_assoc. split; [done|].
    split; [simpl; by rewrite Hlen|].
    intros [|k] tbl; simpl.
    + intros [= <-]. eexists. split; [done|]. simpl.
      rewrite Z.add_0_r. by split_and!.
    + intros (ti & Hti & Hid & Htid & Hrest)%Htbls.
      exists ti. split; [done|].
      replace (i + Z.of_nat (S k)) with (i + 1 + Z.of_nat k) by lia.
      destruct Hrest as (? & ?). by split_and!.
Qed.

Lemma tableInfos_is_ok tbls i acc :
  is_ok (tableInfos tbls i acc) = true
  ↔ Forall (λ tbl, Forall (λ col, type_accepted (storage.DType col))
                     (storage.Columns tbl)) tbls.
Proof.
  revert i acc. induction tbls as [|t tbls IH]; intros i acc; simpl.
  - split; [constructor|done].
  - rewrite Forall_cons, <-(columnInfos_is_ok _ 0 []).
    destruct (columnInfos _ 0 []) as [cols|]; simpl.
    + rewrite IH. split; [done|by intros [_ ?]].
    + split; [done|by intros [? _]].
Qed.

(** X10.  The info schema [CreateInfoSchema] builds is made, under the
    project id, of one table per table given, in the same order: table
    number [i] has id [i] and the name of the [i]-th table given, and its
    column number [j] has id and offset [j], the name of the [j]-th
    column given and the field type the type conversion gives for the
    lower-cased declared type. *)
Theorem CreateInfoSchema_positions (r : QueryRunner)
    (tbls : list storage.TableMeta) (sch : infoschema.InfoSchema) :
  CreateInfoSchema r tbls = Ok sch →
  ∃ infos,
    sch = MockInfoSchema
            {[ application.ProjectID (application.ExecuteInfo (session r))
               := infos ]}
    ∧ length infos = length tbls
    ∧ ∀ (i : nat) tbl,
        tbls !! i = Some tbl →
        ∃ ti,
          infos !! i = Some ti
          ∧ model.TblID ti = Z.of_nat i
          ∧ model.TableId ti = Sprint (Z.of_nat i)
          ∧ model.TblName ti
            = model.NewCIStr (storage.TableName (storage.Table_ tbl))
          ∧ length (model.Columns ti) = length (storage.Columns tbl)
          ∧ ∀ (j : nat) col,
              storage.Columns tbl !! j = Some col →
              ∃ ci,
                model.Columns ti !! j = Some ci
                ∧ model.ID ci = Z.of_nat j
                ∧ model.Offset ci = Z.of_nat j
                ∧ model.Name ci = model.NewCIStr (storage.ColumnName col)
                ∧ TypeConversion (ToLower (storage.DType col))
                  = Got (model.FieldType ci).
Proof.
  unfold CreateInfoSchema.
  destruct (tableInfos tbls 0 []) as [infos|] eqn:Hinfos; [|done].
  intros [= <-]. exists infos. split; [done|].
  apply tableInfos_ok in Hinfos as (added & -> & Hlen & Htbls).
  simpl. split; [done|].
  intros i tbl (ti & Hti & Hid & Htid & Hname & Hcols)%Htbls.
  exists ti. split_and!; [done..| |].
  - apply columnInfos_ok in Hcols as (cols & -> & Hl & _). done.
  - intros j col Hcol.
    apply columnInfos_ok in Hcols as (cols & -> & _ & Hc).
    destruct (Hc j col Hcol) as (ci & Hci & ? & ? & ? & _ & ?).
    exists ci. by split_and!.
Qed.

(** X11.  [CreateInfoSchema] succeeds exactly when the default-value
    helper and the type conversion both accept the lower-cased declared
    type of every column of every table. *)
Theorem CreateInfoSchema_succeeds_iff (r : QueryRunner)
    (tbls : list storage.TableMeta) :
  is_ok (CreateInfoSchema r tbls) = true
  ↔ ∀ tbl col, tbl ∈ tbls → col ∈ storage.Columns tbl →
               type_accepted (storage.DType col).
Proof.
  unfold CreateInfoSchema.
  transitivity (is_ok (tableInfos tbls 0 []) = true);
    [by destruct (tableInfos tbls 0 [])|].
  rewrite tableInfos_is_ok, Forall_forall.
  split.
  - intros Hall tbl col Htbl. specialize (Hall tbl Htbl).
    rewrite Forall_forall in Hall. apply Hall.
  - intros Hall tbl Htbl. apply Forall_forall. intros col.
    by apply Hall.
Qed.

End info_schema_more.

Section checksum_more.
Context `{!Lib}.

Lemma checksumTables_is_ok sch allCcls ts h c :
  is_ok (checksumTables sch allCcls ts h c) = true
  ↔ ∀ t, t ∈ ts →
      ∃ isch meta,
        sch = Some isch
        ∧ infoschema.TableByName isch
            (model.NewCIStr (core.GetDbName t))
            (model.NewCIStr (core.GetTableName t)) = Got meta.
Proof.
  revert h c. induction ts as [|t ts IH]; intros h c; simpl.
  - split; [|done]. intros _ t Ht. by apply elem_of_nil in Ht.
  - destruct sch as [isch|].
    2: { split; [done|]. intros Hall.
         destruct (Hall t) as (? & ? & ? & _); [by left|done]. }
    destruct (infoschema.TableByName isch _ _) as [meta|msg] eqn:Hmeta.
    + rewrite IH. split.
      * intros Hall t' [->|Ht']%elem_of_cons; [by eauto|by apply Hall].
      * intros Hall t' Ht'. apply Hall. by right.
    + split; [done|]. intros Hall.
      destruct (Hall t) as (isch' & meta & [= <-] & Hgot); [by left|].
      by rewrite Hmeta in Hgot.
Qed.

Lemma checksumTables_ccls sch ccls1 ccls2 ts h c :
  (∀ t, t ∈ ts →
     List.filter (cclOfTable t) ccls1 = List.filter (cclOfTable t) ccls2) →
  checksumTables sch ccls1 ts h c = checksumTables sch ccls2 ts h c.
Proof.
  revert h c. induction ts as [|t ts IH]; intros h c Hsame; simpl; [done|].
  destruct sch as [isch|]; [|done].
  destruct (infoschema.TableByName isch _ _) as [meta|msg]; [|done].
  rewrite (Hsame t) by by left.
  apply IH. intros t' Ht'. apply Hsame. by right.
Qed.

Lemma checksumParties_lookup r ps m0 out :
  checksumParties r ps m0 = Ok out →
  ∀ p,
    (p ∉ ps → out !! p = m0 !! p)
    ∧ (p ∈ ps →
       ∃ engines h c,
         info r = Some engines
         ∧ checksumTables (is_ r) (ccls r)
             (sort.Slice tableLess
                (translator.GetTablesByParty engines p)) "" ""
           = Ok (h, c)
         ∧ out !! p = Some {| application.TableSchema := Sha256.sum h;
                              application.CCL := Sha256.sum c |}).
Proof.
  revert m0. induction ps as [|q ps IH]; intros m0; simpl.
  - intros [= <-] p. split; [done|]. by intros ?%elem_of_nil.
  - destruct (info r) as [engines|] eqn:Hinfo; [|done].
    destruct (checksumTables _ _ _ "" "") as [[h c]|e] eqn:Hq; [|done].
    intros Hout p. destruct (IH _ Hout p) as [Hnot Hin].
    split.
    + intros [Hne Hp]%not_elem_of_cons.
      by rewrite (Hnot Hp), lookup_insert_ne.
    + intros Hp. destruct (decide (p ∈ ps)) as [Hps|Hps].
      * destruct (Hin Hps) as (engines' & h' & c' & [= <-] & ? & ?).
        by exists engines, h', c'.
      * apply elem_of_cons in Hp as [->|Hp]; [|done].
        exists engines, h, c. split_and!; [done..|].
        by rewrite (Hnot Hps), lookup_insert_eq.
Qed.

Lemma checksumParties_is_ok r ps m0 :
  is_ok (checksumParties r ps m0) = true
  ↔ ∀ p, p ∈ ps →
      ∃ engines,
        info r = Some engines
        ∧ is_ok (checksumTables (is_ r) (ccls r)
                   (sort.Slice tableLess
                      (translator.GetTablesByParty engines p)) "" "")
          = true.
Proof.
  revert m0. induction ps as [|q ps IH]; intros m0; simpl.
  - split; [|done]. by intros _ p ?%elem_of_nil.
  - destruct (info r) as [engines|] eqn:Hinfo.
    2: { split; [done|]. intros Hall.
         destruct (Hall q) as (? & ? & _); [by left|done]. }
    destruct (checksumTables _ _ _ "" "") as [[h c]|e] eqn:Hq.
    + rewrite IH. split.
      * intros Hall p [->|Hp]%elem_of_cons; [|by apply Hall].
        exists engines. by rewrite Hq.
      * intros Hall p Hp. apply Hall. by right.
    + split; [done|]. intros Hall.
      destruct (Hall q) as (engines' & [= <-] & Hok); [by left|].
      by rewrite Hq in Hok.
Qed.

Lemma checksumParties_ccls r1 r2 ps m0 :
  session r1 = session r2 → info r1 = info r2 → is_ r1 = is_ r2 →
  (∀ engines p t,
     info r1 = Some engines → p ∈ ps →
     t ∈ translator.GetTablesByParty engines p →
     List.filter (cclOfTable t) (ccls r1)
     = List.filter (cclOfTable t) (ccls r2)) →
  checksumParties r1 ps m0 = checksumParties r2 ps m0.
Proof.
  intros Hs Hi His. revert m0.
  induction ps as [|q ps IH]; intros m0 Hsame; simpl; [done|].
  rewrite <-Hi, <-His. destruct (info r1) as [engines|] eqn:Hinfo; [|done].
  rewrite (checksumTables_ccls _ (ccls r1) (ccls r2)).
  2: { intros t Ht. apply (Hsame engines q); [done|by left|].
       unfold tableLess in Ht.
       by rewrite (sort_Slice_perm DbTable_String) in Ht. }
  destruct (checksumTables _ _ _ "" "") as [[h c]|e]; [|done].
  apply IH. intros engines' p t He Hp. apply Hsame; [done|by right].
Qed.

(** X13.  The map [CreateChecksum] returns holds an entry for the data
    parties of the job and for nobody else, and the entry of a party is
    made of the two SHA-256 sums of what the tables of that party alone,
    in the order of their canonical texts, write to the two hashes: no
    party's tables enter another party's checksum. *)
Theorem CreateChecksum_entries (r : QueryRunner)
    (m : gmap string application.Checksum) :
  CreateChecksum r = Ok m →
  ∀ p,
    (p ∉ application.DataParties (application.ExecuteInfo (session r)) →
     m !! p = None)
    ∧ (p ∈ application.DataParties (application.ExecuteInfo (session r)) →
       ∃ engines h c,
         info r = Some engines
         ∧ checksumTables (is_ r) (ccls r)
             (sort.Slice tableLess
                (translator.GetTablesByParty engines p)) "" ""
           = Ok (h, c)
         ∧ m !! p = Some {| application.TableSchema := Sha256.sum h;
                            application.CCL := Sha256.sum c |}).
Proof.
  intros Hm p.
  destruct (checksumParties_lookup _ _ _ _ Hm p) as [Hnot Hin].
  split; [|done]. intros Hp. by rewrite (Hnot Hp).
Qed.

(** X14.  [CreateChecksum] succeeds exactly when, for every data party,
    the engines info is set and every table it holds for the party is
    found by name in the info schema of the runner (which then has to be
    set too).  A data party without tables asks nothing of the info
    schema. *)
Theorem CreateChecksum_succeeds_iff (r : QueryRunner) :
  is_ok (CreateChecksum r) = true
  ↔ ∀ p,
      p ∈ application.DataParties (application.ExecuteInfo (session r)) →
      ∃ engines,
        info r = Some engines
        ∧ ∀ t, t ∈ translator.GetTablesByParty engines p →
            ∃ isch meta,
              is_ r = Some isch
              ∧ infoschema.TableByName isch
                  (model.NewCIStr (core.GetDbName t))
                  (model.NewCIStr (core.GetTableName t)) = Got meta.
Proof.
  unfold CreateChecksum. rewrite checksumParties_is_ok.
  apply forall_proper; intros p. apply forall_proper; intros Hp.
  f_equiv; intros engines. f_equiv.
  rewrite checksumTables_is_ok. unfold tableLess.
  apply forall_proper; intros t.
  by rewrite (sort_Slice_perm DbTable_String).
Qed.

(** X15.  Only the CCL entries that name, by database and table, a table
    of some data party enter the checksums: two runners that differ only
    in their CCL lists, and whose lists hold the same entries in the same
    order for each such table, get the same result from
    [CreateChecksum]. *)
Theorem CreateChecksum_foreign_ccls (r1 r2 : QueryRunner) :
  session r1 = session r2 → info r1 = info r2 → is_ r1 = is_ r2 →
  (∀ engines p t,
     info r1 = Some engines →
     p ∈ application.DataParties (application.ExecuteInfo (session r1)) →
     t ∈ translator.GetTablesByParty engines p →
     List.filter (cclOfTable t) (ccls r1)
     = List.filter (cclOfTable t) (ccls r2)) →
  CreateChecksum r1 = CreateChecksum r2.
Proof.
  intros Hs Hi His Hsame. unfold CreateChecksum. rewrite <-Hs.
  by apply checksumParties_ccls.
Qed.

End checksum_more.

Section executor_more.
Context `{!Lib}.

Lemma int32_small (i : Z) : 0 ≤ i < 2 ^ 31 → int32 i = i.
Proof. intros Hi. unfold int32. rewrite Z.mod_small; lia. Qed.

Lemma startParties_ok s ps i acc out :
  startParties s ps i acc = Ok out →
  ∃ added,
    out = acc ++ added
    ∧ length added = length ps
    ∧ ∀ (k : nat) p,
        ps !! k = Some p →
        ∃ sp, added !! k = Some sp
              ∧ pb.Rank sp = int32 (i + Z.of_nat k)
              ∧ pb.PCode sp = pb.Code p
              ∧ pb.PName sp = pb.Code p
              ∧ application.GetEndpoint s (pb.Code p) = Got (pb.Host sp)
              ∧ application.GetPubKeyByParty
                  (application.PartyMgr (application.App_ s)) (pb.Code p)
                = Got (pb.PublicKey sp).
Proof.
  revert i acc. induction ps as [|q ps IH]; intros i acc; simpl.
  - intros [= <-]. exists []. rewrite app_nil_r. by split_and!.
  - destruct (application.GetEndpoint s _) as [endpoint|] eqn:He; [|done].
    destruct (application.GetPubKeyByParty _ _) as [key|] eqn:Hk; [|done].
    intros (added & -> & Hlen & Hps)%IH.
    eexists (_ :: added). rewrite <-app_assoc. split; [done|].
    split; [simpl; by rewrite Hlen|].
    intros [|k] p; simpl.
    + intros [= <-]. eexists. split; [done|]. simpl.
      rewrite Z.add_0_r. by split_and!.
    + intros (sp & Hsp & Hrank & Hrest)%Hps.
      exists sp. split; [done|]. split; [|done].
      rewrite Hrank. f_equal. lia.
Qed.

Lemma startParties_external s ps i acc e :
  startParties s ps i acc = Err e → ∃ msg, e = ErrExternal msg.
Proof.
  revert i acc. induction ps as [|q ps IH]; intros i acc; simpl; [done|].
  destruct (application.GetEndpoint s _) as [endpoint|msg];
    [|intros [= <-]; by eauto].
  destruct (application.GetPubKeyByParty _ _) as [key|msg];
    [|intros [= <-]; by eauto].
  apply IH.
Qed.

Lemma startParties_is_ok s ps i acc :
  is_ok (startParties s ps i acc) = true
  ↔ ∀ p, p ∈ ps →
      (∃ endpoint,
         application.GetEndpoint s (pb.Code p) = Got endpoint)
      ∧ (∃ key,
           application.GetPubKeyByParty
             (application.PartyMgr (application.App_ s)) (pb.Code p)
           = Got key).
Proof.
  revert i acc. induction ps as [|q ps IH]; intros i acc; simpl.
  - split; [|done]. by intros _ p ?%elem_of_nil.
  - destruct (application.GetEndpoint s _) as [endpoint|msg] eqn:He.
    2: { split; [done|]. intros Hall.
         destruct (Hall q) as [[? Hq] _]; [by left|].
         by rewrite He in Hq. }
    destruct (application.GetPubKeyByParty _ _) as [key|msg] eqn:Hk.
    2: { split; [done|]. intros Hall.
         destruct (Hall q) as [_ [? Hq]]; [by left|].
         by rewrite Hk in Hq. }
    rewrite IH. split.
    + intros Hall p [->|Hp]%elem_of_cons; [|by apply Hall].
      rewrite He, Hk. by eauto.
    + intros Hall p Hp. apply Hall. by right.
Qed.

(** X16.  The one request of the executor [CreateExecutor] returns
    carries the job id as session id, this party's code, the plan's
    runtime configuration and this party's own sub-graph, and lists the
    parties of the plan in the plan's order: entry number [k] has as
    rank the 32-bit conversion of [k], which is [k] itself for the first
    2^31 parties, the code of the [k]-th party of the plan as code and
    as name, and the endpoint and public key the session and the party
    manager hold for that code. *)
Theorem CreateExecutor_session_params (r : QueryRunner)
    (plan : pb.CompiledPlan) (ex : executor.Executor) :
  CreateExecutor r plan = Ok ex →
  let s := session r in
  let self := application.PartyCode (application.Conf (application.App_ s)) in
  ∃ req,
    executor.PlanReqs ex !! self = Some req
    ∧ pb.SubGraphs plan !! self = Some (pb.Graph req)
    ∧ pb.SPartyCode (pb.SessionParams req) = self
    ∧ pb.SessionId (pb.SessionParams req)
      = application.JobID (application.ExecuteInfo s)
    ∧ pb.SpuRuntimeCfg (pb.SessionParams req) = pb.SpuRuntimeConf plan
    ∧ length (pb.SParties (pb.SessionParams req))
      = length (pb.Parties plan)
    ∧ ∀ (k : nat) p,
        pb.Parties plan !! k = Some p →
        ∃ sp,
          pb.SParties (pb.SessionParams req) !! k = Some sp
          ∧ pb.Rank sp = int32 (Z.of_nat k)
          ∧ (Z.of_nat k < 2 ^ 31 → pb.Rank sp = Z.of_nat k)
          ∧ pb.PCode sp = pb.Code p
          ∧ pb.PName sp = pb.Code p
          ∧ application.GetEndpoint s (pb.Code p) = Got (pb.Host sp)
          ∧ application.GetPubKeyByParty
              (application.PartyMgr (application.App_ s)) (pb.Code p)
            = Got (pb.PublicKey sp).
Proof.
  unfold CreateExecutor.
  destruct (startParties _ _ 0 []) as [ps|] eqn:Hps; [|done].
  destruct (pb.SubGraphs plan !! _) as [g|] eqn:Hg; [|done].
  destruct (application.GetPubKeyByParty _ _) as [key|]; [|done].
  unfold executor.NewExecutor. intros [= <-]. cbv zeta.
  eexists. split; [apply lookup_singleton_eq|]. cbn.
  apply startParties_ok in Hps as (added & -> & Hlen & Hadded).
  split_and!; [done..|].
  intros k p (sp & Hsp & Hrank & Hrest)%Hadded.
  exists sp. rewrite Z.add_0_l in Hrank.
  split; [done|]. split; [done|]. split; [|done].
  intros Hk. rewrite Hrank. apply int32_small. lia.
Qed.

(** X17.  [CreateExecutor] reports that the graph of this party could not
    be found exactly when every party of the plan has an endpoint and a
    public key and the plan holds no sub-graph under this party's code;
    whether this party's own key can be found plays no part then. *)
Theorem CreateExecutor_no_graph (r : QueryRunner) (plan : pb.CompiledPlan) :
  let s := session r in
  CreateExecutor r plan = Err ErrNoGraph
  ↔ (∀ p, p ∈ pb.Parties plan →
       (∃ endpoint,
          application.GetEndpoint s (pb.Code p) = Got endpoint)
       ∧ (∃ key,
            application.GetPubKeyByParty
              (application.PartyMgr (application.App_ s)) (pb.Code p)
            = Got key))
    ∧ pb.SubGraphs plan
        !! application.PartyCode (application.Conf (application.App_ s))
      = None.
Proof.
  cbv zeta. rewrite <-(startParties_is_ok _ _ 0 []). unfold CreateExecutor.
  destruct (startParties _ _ 0 []) as [ps|e] eqn:Hps; simpl.
  - destruct (pb.SubGraphs plan !! _) as [g|]; [|done].
    split; [|by intros [_ ?]].
    by destruct (application.GetPubKeyByParty _ _).
  - apply startParties_external in Hps as [msg ->].
    split; [done|by intros [? _]].
Qed.

End executor_more.

Section catalog_more.

Lemma fold_left_snoc {A B} (g : A → B) (l : list A) (acc : list B) :
  fold_left (λ acc x, acc ++ [g x]) l acc = acc ++ (g <$> l).
Proof.
  revert acc. induction l as [|x l IH]; intros acc; simpl.
  - by rewrite app_nil_r.
  - by rewrite IH, <-app_assoc.
Qed.

Lemma catalogColumns_map cols :
  catalogColumns cols
  = (λ col, {| pbmsg.ColName := storage.ColumnName col;
               pbmsg.ColType := storage.DType col |}) <$> cols.
Proof. unfold catalogColumns. by rewrite fold_left_snoc. Qed.

Lemma buildCatalog_map tbls :
  pbmsg.Tables (buildCatalog tbls)
  = (λ tbl,
       let t := storage.Table_ tbl in
       {| pbmsg.TableName :=
            storage.ProjectID t +:+ "." +:+ storage.TableName t;
          pbmsg.IsView := false;
          pbmsg.RefTable := storage.RefTable t;
          pbmsg.DbType := storage.DBType t;
          pbmsg.Owner := Some {| pb.Code := storage.Owner t |};
          pbmsg.Columns := catalogColumns (storage.Columns tbl) |})
    <$> tbls.
Proof.
  unfold buildCatalog. cbn [pbmsg.Tables].
  by rewrite (fold_left_snoc (λ tbl, _)).
Qed.

(** X29.  The request [buildCompileQueryRequest] builds always marks the
    issuer as a participant and carries the ccls of the runner; its
    catalog lists the tables of the runner in their order, table number
    [k] under the name made of its project id, a dot and its table name,
    never as a view, with its reference table, database type and owner,
    and with its columns in their order, each with its name and declared
    type as they are. *)
Theorem buildCompileQueryRequest_catalog (r : QueryRunner) :
  let req := buildCompileQueryRequest r in
  pbmsg.IssuerAsParticipant req = true
  ∧ pbmsg.SecurityConf req
    = Some {| pbmsg.ColumnControlList := ccls r |}
  ∧ ∃ catalog,
      pbmsg.Catalog_ req = Some catalog
      ∧ length (pbmsg.Tables catalog) = length (tables r)
      ∧ ∀ (k : nat) tbl,
          tables r !! k = Some tbl →
          ∃ entry,
            pbmsg.Tables catalog !! k = Some entry
            ∧ pbmsg.TableName entry
              = storage.ProjectID (storage.Table_ tbl) +:+ "."
                +:+ storage.TableName (storage.Table_ tbl)
            ∧ pbmsg.IsView entry = false
            ∧ pbmsg.RefTable entry = storage.RefTable (storage.Table_ tbl)
            ∧ pbmsg.DbType entry = storage.DBType (storage.Table_ tbl)
            ∧ pbmsg.Owner entry
              = Some {| pb.Code := storage.Owner (storage.Table_ tbl) |}
            ∧ length (pbmsg.Columns entry) = length (storage.Columns tbl)
            ∧ ∀ (j : nat) col,
                storage.Columns tbl !! j = Some col →
                pbmsg.Columns entry !! j
                = Some {| pbmsg.ColName := storage.ColumnName col;
                          pbmsg.ColType := storage.DType col |}.
Proof.
  cbv zeta. split; [done|]. split; [done|].
  eexists. split; [done|]. rewrite buildCatalog_map.
  split; [by rewrite length_fmap|].
  intros k tbl Hk. eexists. rewrite list_lookup_fmap, Hk.
  split; [done|]. cbn. split_and!; try done.
  - by rewrite catalogColumns_map, length_fmap.
  - intros j col Hj. by rewrite catalogColumns_map, list_lookup_fmap, Hj.
Qed.

End catalog_more.

Section coordinator_more.
Context `{!pb.Codes, !Lib} {S : Type} (env : Collaborators S).

Lemma filter_other_than_self self q (ps : list string) :
  q = self →
  List.filter (other_than self) (q :: ps)
  = List.filter (other_than self) ps.
Proof. intros ->. simpl. unfold other_than at 1. by rewrite bool_decide_true. Qed.

Lemma filter_other_than_other self q (ps : list string) :
  q ≠ self →
  List.filter (other_than self) (q :: ps)
  = q :: List.filter (other_than self) ps.
Proof. intros ?. simpl. unfold other_than at 1. by rewrite bool_decide_false. Qed.

Lemma checkChecksumLoop_ok self c ps :
  (checkChecksumLoop env self c ps).1 = None
  ↔ ∀ p, p ∈ ps → p ≠ self →
      CompareChecksumFor env c p = Got (ChecksumCompareResult_EQUAL env).
Proof.
  induction ps as [|q ps IH]; simpl.
  - split; [|done]. by intros _ p ?%elem_of_nil.
  - case_bool_decide as Hq.
    + rewrite IH. split.
      * intros Hall p [->|Hp]%elem_of_cons; [done|by apply Hall].
      * intros Hall p Hp. apply Hall. by right.
    + destruct (CompareChecksumFor env c q) as [res|msg] eqn:Hres.
      2: { split; [done|]. intros Hall.
           by rewrite (Hall q) in Hres; [|by left|]. }
      destruct (res =? _) eqn:Heq; simpl.
      * apply Z.eqb_eq in Heq as ->.
        destruct (checkChecksumLoop env self c ps) as [err tr].
        simpl in *. rewrite IH. split.
        -- intros Hall p [->|Hp]%elem_of_cons; [done|by apply Hall].
        -- intros Hall p Hp. apply Hall. by right.
      * split; [done|]. intros Hall.
        rewrite (Hall q) in Hres; [|by left|done].
        injection Hres as <-. by rewrite Z.eqb_refl in Heq.
Qed.

Lemma checkChecksumLoop_trace_ok self c ps tr :
  checkChecksumLoop env self c ps = (None, tr) →
  tr = DoCompare <$> List.filter (other_than self) ps.
Proof.
  revert tr. induction ps as [|q ps IH]; intros tr.
  - by intros [= <-].
  - cbn [checkChecksumLoop]. case_bool_decide as Hq.
    + rewrite filter_other_than_self by done. apply IH.
    + rewrite filter_other_than_other by done.
      destruct (CompareChecksumFor env c q) as [res|msg]; [|done].
      destruct (res =? _); simpl; [|done].
      destruct (checkChecksumLoop env self c ps) as [err tr'].
      intros [= -> <-]. by rewrite (IH tr').
Qed.

Lemma checkChecksumLoop_failure self c ps e tr :
  checkChecksumLoop env self c ps = (Some e, tr) →
  ∃ ps1 p ps2,
    ps = ps1 ++ p :: ps2
    ∧ p ≠ self
    ∧ (∀ q, q ∈ ps1 → q ≠ self →
         CompareChecksumFor env c q
         = Got (ChecksumCompareResult_EQUAL env))
    ∧ tr = DoCompare <$> (List.filter (other_than self) ps1 ++ [p])
    ∧ ((∃ res, CompareChecksumFor env c p = Got res
               ∧ res ≠ ChecksumCompareResult_EQUAL env
               ∧ e = ExChecksumNotEqual p)
       ∨ (∃ msg, CompareChecksumFor env c p = Failed msg
                 ∧ e = ExExternal msg)).
Proof.
  revert tr. induction ps as [|q ps IH]; intros tr; simpl; [done|].
  case_bool_decide as Hq; simpl.
  - intros (ps1 & p & ps2 & -> & Hp & Hall & -> & Hwhy)%IH.
    exists (q :: ps1), p, ps2. split_and!; [done..| | |done].
    + intros q' [->|Hq']%elem_of_cons; [done|by apply Hall].
    + by rewrite filter_other_than_self.
  - destruct (CompareChecksumFor env c q) as [res|msg] eqn:Hres.
    2: { intros [= <- <-]. exists [], q, ps.
         split_and!; [done..|by intros ? ?%elem_of_nil|done|].
         right. by exists msg. }
    destruct (res =? _) eqn:Heq; simpl.
    + apply Z.eqb_eq in Heq as ->.
      destruct (checkChecksumLoop env self c ps) as [err tr'].
      intros [= -> <-].
      destruct (IH tr' eq_refl)
        as (ps1 & p & ps2 & -> & Hp & Hall & -> & Hwhy).
      exists (q :: ps1), p, ps2. split_and!; [done..| | |done].
      * intros q' [->|Hq']%elem_of_cons; [done|by apply Hall].
      * by rewrite filter_other_than_other.
    + intros [= <- <-]. exists [], q, ps.
      split_and!; [done..|by intros ? ?%elem_of_nil|done|].
      left. exists res. split_and!; [done| |done].
      intros ->. by rewrite Z.eqb_refl in Heq.
Qed.

Lemma checkChecksum_outcome (r : QueryRunner) (st : SessionState S) :
  let self := application.GetSelfPartyCode (session r) in
  let parties :=
    application.DataParties (application.ExecuteInfo (session r)) in
  match checkChecksum env r st with
  | (Some e, tr) =>
      ∃ ps1 p ps2,
        parties = ps1 ++ p :: ps2
        ∧ p ≠ self
        ∧ (∀ q, q ∈ ps1 → q ≠ self →
             CompareChecksumFor env (Checksums st) q
             = Got (ChecksumCompareResult_EQUAL env))
        ∧ tr = DoCompare <$> (List.filter (other_than self) ps1 ++ [p])
        ∧ ((∃ res, CompareChecksumFor env (Checksums st) p = Got res
                   ∧ res ≠ ChecksumCompareResult_EQUAL env
                   ∧ e = ExChecksumNotEqual p)
           ∨ (∃ msg, CompareChecksumFor env (Checksums st) p = Failed msg
                     ∧ e = ExExternal msg))
  | (None, tr) =>
      (∀ p, p ∈ parties → p ≠ self →
         CompareChecksumFor env (Checksums st) p
         = Got (ChecksumCompareResult_EQUAL env))
      ∧ tr = DoCompare <$> List.filter (other_than self) parties
  end.
Proof.
  cbv zeta. unfold checkChecksum.
  destruct (checkChecksumLoop _ _ _ _) as [[e|] tr] eqn:Hloop.
  - by apply checkChecksumLoop_failure.
  - split; [|exact (checkChecksumLoop_trace_ok _ _ _ _ Hloop)].
    apply (proj1 (checkChecksumLoop_ok _ _ _)). by rewrite Hloop.
Qed.

(** X18.  [checkChecksum] returns no error exactly when the checksum
    store answers EQUAL for every data party other than this party; it
    has then compared each of them once, in the order of the data
    parties, and never this party. *)
Theorem checkChecksum_ok_iff (r : QueryRunner) (st : SessionState S) :
  let self := application.GetSelfPartyCode (session r) in
  let parties :=
    application.DataParties (application.ExecuteInfo (session r)) in
  ((checkChecksum env r st).1 = None
   ↔ ∀ p, p ∈ parties → p ≠ self →
       CompareChecksumFor env (Checksums st) p
       = Got (ChecksumCompareResult_EQUAL env))
  ∧ ((checkChecksum env r st).1 = None →
     (checkChecksum env r st).2
     = DoCompare <$> List.filter (other_than self) parties).
Proof.
  cbv zeta. unfold checkChecksum. split.
  - apply checkChecksumLoop_ok.
  - destruct (checkChecksumLoop _ _ _ _) as [err tr] eqn:Hloop. simpl.
    intros ->. by apply checkChecksumLoop_trace_ok in Hloop.
Qed.

(** X19.  When [checkChecksum] returns an error, it stopped at the first
    data party other than this party for which the store did not answer
    EQUAL: every such party before it compared equal, it is the last one
    compared, and the error either names it as the party whose checksum
    is not equal or is the error of the store. *)
Theorem checkChecksum_first_failure (r : QueryRunner)
    (st : SessionState S) (e : exec_error) (tr : list (step S)) :
  checkChecksum env r st = (Some e, tr) →
  let self := application.GetSelfPartyCode (session r) in
  ∃ ps1 p ps2,
    application.DataParties (application.ExecuteInfo (session r))
    = ps1 ++ p :: ps2
    ∧ p ≠ self
    ∧ (∀ q, q ∈ ps1 → q ≠ self →
         CompareChecksumFor env (Checksums st) q
         = Got (ChecksumCompareResult_EQUAL env))
    ∧ tr = DoCompare <$> (List.filter (other_than self) ps1 ++ [p])
    ∧ ((∃ res, CompareChecksumFor env (Checksums st) p = Got res
               ∧ res ≠ ChecksumCompareResult_EQUAL env
               ∧ e = ExChecksumNotEqual p)
       ∨ (∃ msg, CompareChecksumFor env (Checksums st) p = Failed msg
                 ∧ e = ExExternal msg)).
Proof. apply checkChecksumLoop_failure. Qed.

Lemma filter_others_skip (r : QueryRunner) issuerParty q (ps : list string) :
  bool_decide (q = issuerParty)
  || bool_decide (q = application.GetSelfPartyCode (session r)) = true →
  List.filter
    (λ p, negb (bool_decide (p = issuerParty)
                || bool_decide
                     (p = application.GetSelfPartyCode (session r))))
    (q :: ps)
  = List.filter
      (λ p, negb (bool_decide (p = issuerParty)
                  || bool_decide
                       (p = application.GetSelfPartyCode (session r))))
      ps.
Proof. intros Hq. simpl. by rewrite Hq. Qed.

Lemma filter_others_keep (r : QueryRunner) issuerParty q (ps : list string) :
  bool_decide (q = issuerParty)
  || bool_decide (q = application.GetSelfPartyCode (session r)) = false →
  List.filter
    (λ p, negb (bool_decide (p = issuerParty)
                || bool_decide
                     (p = application.GetSelfPartyCode (session r))))
    (q :: ps)
  = q :: List.filter
           (λ p, negb (bool_decide (p = issuerParty)
                       || bool_decide
                            (p = application.GetSelfPartyCode (session r))))
           ps.
Proof. intros Hq. simpl. by rewrite Hq. Qed.

Lemma otherPartiesLoop_spec (r : QueryRunner) issuerParty c ps c' err tr :
  otherPartiesLoop env r issuerParty c ps = (c', err, tr) →
  let asked :=
    List.filter
      (λ p, negb (bool_decide (p = issuerParty)
                  || bool_decide
                       (p = application.GetSelfPartyCode (session r))))
      ps in
  exchanged tr `prefix_of` asked
  ∧ saved_remote tr `prefix_of` exchanged tr
  ∧ (err = None → exchanged tr = asked ∧ saved_remote tr = asked)
  ∧ (∀ p checksum,
       DoSaveRemoteChecksum p checksum ∈ tr →
       ∃ response etr,
         ExchangeJobInfo r p = (Ok response, etr)
         ∧ checksum = pb.ExpectedServerChecksum response)
  ∧ (∀ e, err = Some e →
       ∃ p, last (exchanged tr) = Some p
            ∧ ((∃ e' etr, ExchangeJobInfo r p = (Err e', etr)
                          ∧ e = ExRunner e'
                          ∧ p ∉ saved_remote tr)
               ∨ (∃ msg, e = ExExternal msg
                         ∧ last (saved_remote tr) = Some p))).
Proof.
  revert c c' err tr. induction ps as [|q ps IH]; intros c c' err tr.
  - intros [= <- <- <-]. cbv zeta. simpl. split_and!; try done.
    intros p ck Hin. by apply elem_of_nil in Hin.
  - cbn [otherPartiesLoop].
    destruct (bool_decide (q = issuerParty) || _) eqn:Hq.
    { intros Hrun. cbv zeta. rewrite filter_others_skip by done.
      exact (IH _ _ _ _ Hrun). }
    cbv zeta. rewrite filter_others_keep by done.
    destruct (ExchangeJobInfo r q) as [[response|e'] etr] eqn:Hex.
    2: { intros [= <- <- <-]. simpl. split_and!.
         - by apply prefix_cons, prefix_nil.
         - apply prefix_nil.
         - done.
         - intros p ck Hin. apply list_elem_of_singleton in Hin. done.
         - intros e [= <-]. exists q. split; [done|]. left.
           exists e', etr. split_and!; [done..|]. by intros ?%elem_of_nil. }
    destruct (SaveRemoteChecksum env c q _) as [c1|msg] eqn:Hsave.
    2: { intros [= <- <- <-]. simpl. split_and!.
         - by apply prefix_cons, prefix_nil.
         - done.
         - done.
         - intros p ck [Hin|Hin]%elem_of_cons; [done|].
           apply list_elem_of_singleton in Hin as [= -> ->].
           by exists response, etr.
         - intros e [= <-]. exists q. split; [done|]. right. by exists msg. }
    destruct (otherPartiesLoop env r issuerParty c1 ps)
      as [[c2 err2] tr2] eqn:Hrest.
    intros [= <- <- <-].
    destruct (IH _ _ _ _ Hrest) as (Hpre & Hpre' & Hok & Hsaved & Hfail).
    simpl. split_and!.
    + by apply prefix_cons.
    + by apply prefix_cons.
    + intros Herr. destruct (Hok Herr) as [-> ->]. done.
    + intros p ck [Hin|[Hin|Hin]%elem_of_cons]%elem_of_cons; [done| |].
      * injection Hin as -> ->. by exists response, etr.
      * by apply Hsaved.
    + intros e He. destruct (Hfail e He) as (p & Hlast & Hwhy).
      exists p. split.
      { destruct (exchanged tr2); [done|]. by rewrite last_cons, Hlast. }
      destruct Hwhy as [(e' & etr' & Hp & -> & Hnot)|(msg & -> & Hl)].
      * left. exists e', etr'. split_and!; [done..|].
        intros [->|Hin]%elem_of_cons; [|done].
        rewrite Hex in Hp. done.
      * right. exists msg. split; [done|].
        destruct (saved_remote tr2); [done|]. by rewrite last_cons, Hl.
Qed.

(** X20.  [GetChecksumFromOtherParties] asks the data parties other than
    the issuer and this party, in the order of the data parties, and
    stops at the first failure: the parties it exchanged job information
    with are the first so many of them, and all of them when it returns
    no error; every checksum it saves for a party is the expected server
    checksum of the answer that party gave; and it touches nothing of
    the session apart from the checksum store. *)
Theorem GetChecksumFromOtherParties_asks (r : QueryRunner)
    (st : SessionState S) (issuerParty : string) :
  let out := GetChecksumFromOtherParties env r st issuerParty in
  let tr := out.2 in
  exchanged tr `prefix_of` others r issuerParty
  ∧ saved_remote tr `prefix_of` exchanged tr
  ∧ (out.1.2 = None →
     exchanged tr = others r issuerParty
     ∧ saved_remote tr = others r issuerParty)
  ∧ (∀ p checksum,
       DoSaveRemoteChecksum p checksum ∈ tr →
       ∃ response etr,
         ExchangeJobInfo r p = (Ok response, etr)
         ∧ checksum = pb.ExpectedServerChecksum response)
  ∧ OutputNames out.1.1 = OutputNames st
  ∧ Warning out.1.1 = Warning st.
Proof.
  cbv zeta. unfold GetChecksumFromOtherParties, others.
  destruct (otherPartiesLoop _ _ _ _ _) as [[c err] tr] eqn:Hloop.
  apply otherPartiesLoop_spec in Hloop
    as (Hpre & Hpre' & Hok & Hsaved & _).
  simpl. by split_and!.
Qed.

(** X21.  When [GetChecksumFromOtherParties] returns an error, the party
    at fault is the last one it exchanged job information with: either
    that exchange failed, the error is its error and nothing was saved
    for the party, or the exchange succeeded and saving the checksum of
    the party failed. *)
Theorem GetChecksumFromOtherParties_failure (r : QueryRunner)
    (st st' : SessionState S) (issuerParty : string) (e : exec_error)
    (tr : list (step S)) :
  GetChecksumFromOtherParties env r st issuerParty = (st', Some e, tr) →
  ∃ p,
    last (exchanged tr) = Some p
    ∧ p ∈ others r issuerParty
    ∧ ((∃ e' etr, ExchangeJobInfo r p = (Err e', etr)
                  ∧ e = ExRunner e'
                  ∧ p ∉ saved_remote tr)
       ∨ (∃ msg, e = ExExternal msg
                 ∧ last (saved_remote tr) = Some p)).
Proof.
  unfold GetChecksumFromOtherParties, others.
  destruct (otherPartiesLoop _ _ _ _ _) as [[c err] tr0] eqn:Hloop.
  intros [= <- -> <-].
  apply otherPartiesLoop_spec in Hloop as (Hpre & _ & _ & _ & Hfail).
  destruct (Hfail e eq_refl) as (p & Hlast & Hwhy).
  exists p. split_and!; [done| |done].
  destruct Hpre as [k ->]. apply elem_of_app. left.
  apply last_Some in Hlast as [l' ->]. apply elem_of_app. right. by left.
Qed.

(** X22.  [DryRun] returns no error exactly when every data party other
    than this party compares EQUAL and the interpreter compiles the
    request built from the runner.  It compiles only after all
    comparisons went through, it does nothing but compare and compile,
    and the tables it is handed play no part. *)
Theorem DryRun_outcome (r : QueryRunner) (st : SessionState S)
    (usedTables : list core.DbTable) :
  let self := application.GetSelfPartyCode (session r) in
  let parties :=
    application.DataParties (application.ExecuteInfo (session r)) in
  let req := buildCompileQueryRequest r in
  let out := DryRun env r st usedTables in
  (out.1 = None
   ↔ all_equal env r st ∧ ∃ plan, Compile env req = Got plan)
  ∧ (all_equal env r st →
     out.2 = (DoCompare <$> List.filter (other_than self) parties)
             ++ [DoCompile req])
  ∧ (¬ all_equal env r st → ∀ req', DoCompile req' ∉ out.2)
  ∧ (∀ s, s ∈ out.2 → (∃ p, s = DoCompare p) ∨ s = DoCompile req)
  ∧ (∀ usedTables', DryRun env r st usedTables' = out).
Proof.
  cbv zeta. unfold DryRun, all_equal.
  pose proof (checkChecksum_outcome r st) as Hcheck.
  destruct (checkChecksum env r st) as [[e|] tr] eqn:Hc.
  - destruct Hcheck as (ps1 & p & ps2 & Hps & Hp & Hall & -> & Hwhy).
    assert (¬ ∀ p0, p0 ∈ application.DataParties
                           (application.ExecuteInfo (session r)) →
                    p0 ≠ application.GetSelfPartyCode (session r) →
                    CompareChecksumFor env (Checksums st) p0
                    = Got (ChecksumCompareResult_EQUAL env)) as Hnot.
    { intros Hcons. specialize (Hcons p). rewrite Hps in Hcons.
      rewrite Hcons in Hwhy; [|apply elem_of_app; right; by left|done].
      destruct Hwhy as [(res & [= <-] & Hne & _)|(msg & ? & _)]; done. }
    simpl. split_and!; [split; [done|by intros [? _]]|done| | |done].
    + intros _ req' (p' & [=] & _)%list_elem_of_fmap.
    + intros s (p' & -> & _)%list_elem_of_fmap. left. by exists p'.
  - destruct Hcheck as [Hcons ->].
    destruct (Compile env _) as [plan|msg] eqn:Hcompile; simpl.
    + split_and!; [split; [by eauto|done]|done|done| |done].
      intros s [(p' & -> & _)%list_elem_of_fmap|Hs%list_elem_of_singleton]
        %elem_of_app; [left; by exists p'|by right].
    + split_and!; [split; [done|by intros [_ [? ?]]]|done|done| |done].
      intros s [(p' & -> & _)%list_elem_of_fmap|Hs%list_elem_of_singleton]
        %elem_of_app; [left; by exists p'|by right].
Qed.

(** Membership of a step in a trace that is written out. *)
Ltac trace_in H :=
  repeat (first [ apply (proj1 (elem_of_nil _)) in H; destruct H
                | apply (proj1 (elem_of_cons _ _ _)) in H as [H|H]
                | apply (proj1 (elem_of_app _ _ _)) in H as [H|H] ]);
  try discriminate H.

(** The second part of [Execute], branch by branch. *)
Ltac compileAndRun_cases :=
  unfold compileAndRun;
  destruct (Compile env _) as [plan|?] eqn:Hcompile;
    [destruct (CreateExecutor _ _) as [ex|?] eqn:Hexec;
       [destruct (application.IsIssuer _) eqn:Hissuer;
          [destruct (PersistSessionInfo env _) as [?|] eqn:Hpersist|];
          try (destruct (RunExecutionPlan env _ _) as [ret|?] eqn:Hrun;
                 [destruct (pb.GetCode (pbmsg.GetStatus ret) =? 0)
                    eqn:Hcode;
                    [destruct (application.AsyncMode _) eqn:Hmode;
                       [|destruct ret as [ret|];
                           [destruct (GetWarning plan) as [flag|]
                              eqn:Hwarn|]]|]|])|]|];
  cbn [negb];
  intros [= <- <- <-].

Lemma compileAndRun_result (r : QueryRunner) (st st' : SessionState S)
    (err : option exec_error) (tr : list (step S)) :
  compileAndRun env r st = (st', err, tr) →
  (∀ res,
     DoSetResult res ∈ tr →
     err = None
     ∧ application.AsyncMode (session r) = false
     ∧ last tr = Some (DoSetResult res)
     ∧ ∃ plan ex ret,
         Compile env (buildCompileQueryRequest r) = Got plan
         ∧ CreateExecutor r (Plan plan) = Ok ex
         ∧ RunExecutionPlan env ex false = Got (Some ret)
         ∧ pb.GetCode (pbmsg.RunStatus ret) = 0
         ∧ pbmsg.Status res = pbmsg.RunStatus ret
         ∧ pbmsg.OutColumns res = pbmsg.RunOutColumns ret
         ∧ pbmsg.AffectedRows res = pbmsg.RunAffectedRows ret
         ∧ HasWarning plan = true
         ∧ pbmsg.Warnings res
           = if pb.MayAffectedByGroupThreshold (Plan plan)
             then [{| pbmsg.Reason := groupThresholdReason |}] else [])
  ∧ (err = None → application.AsyncMode (session r) = false →
     ∃ res, DoSetResult res ∈ tr).
Proof.
  compileAndRun_cases;
    (split;
     [intros res Hin; trace_in Hin
     |intros Herr Hsync; try discriminate Herr; try discriminate Hsync]).
  - injection Hin as ->. split_and!; [done..|].
    exists plan, ex, ret. apply Z.eqb_eq in Hcode.
    unfold GetWarning in Hwarn.
    destruct (HasWarning plan) eqn:Hhas; [|done].
    injection Hwarn as <-. by split_and!.
  - eexists. repeat constructor.
  - injection Hin as ->. split_and!; [done..|].
    exists plan, ex, ret. apply Z.eqb_eq in Hcode.
    unfold GetWarning in Hwarn.
    destruct (HasWarning plan) eqn:Hhas; [|done].
    injection Hwarn as <-. by split_and!.
  - eexists. repeat constructor.
Qed.

Lemma saved_local_none (l : list (step S)) :
  (∀ s, s ∈ l → ∀ code checksum, s ≠ DoSaveLocalChecksum code checksum) →
  saved_local l = [].
Proof.
  induction l as [|s l IH]; intros Hl; [done|].
  assert (saved_local l = []) as IH'.
  { apply IH. intros s' Hs'. apply Hl. by right. }
  assert (s ∈ s :: l) as Hs by constructor.
  pose proof (Hl s Hs) as Hne. unfold saved_local in *.
  cbn [omap list_omap].
  destruct s; try exact IH'. by destruct (Hne code checksum).
Qed.

Lemma saved_local_saves (l : list (string * application.Checksum)) :
  saved_local ((λ kv, DoSaveLocalChecksum (S := S) kv.1 kv.2) <$> l) = l.
Proof.
  induction l as [|[code ck] l IH]; [done|].
  unfold saved_local in *. cbn [fmap list_fmap omap list_omap].
  f_equal. exact IH.
Qed.

Lemma compileAndRun_run (r : QueryRunner) (st st' : SessionState S)
    (err : option exec_error) (tr : list (step S)) :
  compileAndRun env r st = (st', err, tr) →
  Checksums st' = Checksums st
  ∧ (∃ rest, tr = DoCompile (buildCompileQueryRequest r) :: rest
             ∧ ∀ req, DoCompile req ∉ rest)
  ∧ (∀ step0, step0 ∈ tr → is_run_step step0 = true)
  ∧ (∀ ex mode,
       DoRunExecutionPlan ex mode ∈ tr →
       mode = application.AsyncMode (session r)
       ∧ (∀ party req,
            executor.PlanReqs ex !! party = Some req →
            pb.Async req = false)
       ∧ (∃ plan,
            Compile env (buildCompileQueryRequest r) = Got plan
            ∧ CreateExecutor r (Plan plan) = Ok ex
            ∧ Warning st' = GetWarning plan)
       ∧ OutputNames st' = executor.OutputNames ex
       ∧ if application.IsIssuer (session r)
         then PersistSessionInfo env st' = None
              ∧ ∃ tr1 tr2,
                  tr = tr1 ++ DoPersist st'
                           :: DoRunExecutionPlan ex mode :: tr2
         else ∀ st0, DoPersist st0 ∉ tr).
Proof.
  compileAndRun_cases;
    (split_and!;
     [done
     |eexists; split; [reflexivity|intros req Hin; by trace_in Hin]
     |intros step0 Hin; trace_in Hin; by subst step0
     |intros ex' mode Hin; trace_in Hin]).
  all: injection Hin as -> ->.
  all: pose proof Hexec as (req & Hreqs & Hasync & _)%CreateExecutor_spec.
  all: (split; [|split; [|split; [|split]]];
        [by rewrite ?Hmode
        |intros party req'; rewrite Hreqs;
         by intros [_ <-]%lookup_singleton_Some
        |exists plan; cbn [Warning]; by rewrite ?Hwarn
        |done
        |rewrite ?Hissuer]).
  all: first [ split; [done|];
               by exists [DoCompile (buildCompileQueryRequest r)], []
             | split; [done|];
               eexists [DoCompile (buildCompileQueryRequest r)], [_];
               reflexivity
             | intros st0 Hin; by trace_in Hin ].
Qed.

Lemma Prepare_keeps_session (r : QueryRunner)
    (usedTables : list core.DbTable) :
  session (Prepare r usedTables).1 = session r
  ∧ prepareAgain (Prepare r usedTables).1 = prepareAgain r.
Proof.
  destruct (Prepare r usedTables) as [r' [[dp wp] err]] eqn:Hrun.
  apply Prepare_spec in Hrun
    as (r0 & err0 & Hdata & Hs & _ & _ & _ & Hp & _).
  apply prepareData_spec in Hdata as (Hs0 & Hp0 & _).
  simpl. rewrite Hs, Hs0, Hp, Hp0. done.
Qed.

Lemma prepareAgainPath_spec (r r1 : QueryRunner) (st st1 : SessionState S)
    (usedTables : list core.DbTable) (err : option exec_error)
    (tr : list (step S)) :
  prepareAgainPath env r st usedTables = (r1, st1, err, tr) →
  r1 = (Prepare r usedTables).1
  ∧ OutputNames st1 = OutputNames st ∧ Warning st1 = Warning st
  ∧ (∀ s, s ∈ tr → is_check_step s = true)
  ∧ (∀ m, (Prepare r usedTables).2.2 = None →
          CreateChecksum r1 = Ok m →
          saved_local tr = RangeOrder env m
          ∧ Checksums st1
            = fold_left (λ c kv, SaveLocalChecksum env c kv.1 kv.2)
                (RangeOrder env m) (Checksums st))
  ∧ (err = None →
     (Prepare r usedTables).2.2 = None
     ∧ is_ok (CreateChecksum r1) = true
     ∧ all_equal env r1 st1).
Proof.
  unfold prepareAgainPath.
  destruct (Prepare r usedTables) as [r0 [[dp wp] [e|]]]; cbn [fst snd].
  { intros [= <- <- <- <-]. split_and!; try done.
    intros s Hin. by trace_in Hin. }
  destruct (CreateChecksum r0) as [m|e] eqn:Hsum.
  2: { intros [= <- <- <- <-]. rewrite Hsum. split_and!; try done.
       intros s Hin. by trace_in Hin. }
  pose proof (checkChecksum_outcome r0
                (set_Checksums
                   (fold_left (λ c kv, SaveLocalChecksum env c kv.1 kv.2)
                      (RangeOrder env m) (Checksums st)) st)) as Hcheck.
  destruct (checkChecksum env r0 _) as [err' tr'] eqn:Hc.
  intros [= <- <- <- <-]. rewrite Hsum.
  assert (∀ s, s ∈ tr' → ∃ p, s = DoCompare p) as Hsteps.
  { destruct err' as [e|].
    - destruct Hcheck as (ps1 & p & ps2 & _ & _ & _ & -> & _).
      intros s (p' & -> & _)%list_elem_of_fmap. by exists p'.
    - destruct Hcheck as [_ ->].
      intros s (p' & -> & _)%list_elem_of_fmap. by exists p'. }
  split_and!; try done.
  - intros s [(kv & -> & _)%list_elem_of_fmap|Hin]%elem_of_app; [done|].
    by apply Hsteps in Hin as [p ->].
  - intros m' _ [= <-]. split; [|done].
    unfold saved_local. rewrite omap_app. fold (saved_local tr').
    rewrite (saved_local_none tr'), app_nil_r.
    + apply saved_local_saves.
    + intros s Hin code ck. by apply Hsteps in Hin as [p ->].
  - intros ->. split_and!; [done..|]. by destruct Hcheck as [Hall _].
Qed.

(** X23.  [Execute] stores a result in the session exactly when it
    returns no error and the session does not run in async mode.  Storing
    is then the last thing it does, and the result carries the status,
    which has code 0, the columns and the affected rows of the engine's
    response, and the group-threshold warning exactly when the compiled
    plan is flagged as possibly affected by the threshold. *)
Theorem Execute_result (r r' : QueryRunner) (st st' : SessionState S)
    (usedTables : list core.DbTable) (err : option exec_error)
    (tr : list (step S)) :
  Execute env r st usedTables = (r', st', err, tr) →
  (∀ res,
     DoSetResult res ∈ tr →
     err = None
     ∧ application.AsyncMode (session r) = false
     ∧ last tr = Some (DoSetResult res)
     ∧ ∃ plan ex ret,
         Compile env (buildCompileQueryRequest r') = Got plan
         ∧ CreateExecutor r' (Plan plan) = Ok ex
         ∧ RunExecutionPlan env ex false = Got (Some ret)
         ∧ pb.GetCode (pbmsg.RunStatus ret) = 0
         ∧ pbmsg.Status res = pbmsg.RunStatus ret
         ∧ pbmsg.OutColumns res = pbmsg.RunOutColumns ret
         ∧ pbmsg.AffectedRows res = pbmsg.RunAffectedRows ret
         ∧ HasWarning plan = true
         ∧ pbmsg.Warnings res
           = if pb.MayAffectedByGroupThreshold (Plan plan)
             then [{| pbmsg.Reason := groupThresholdReason |}] else [])
  ∧ (err = None → application.AsyncMode (session r) = false →
     ∃ res, DoSetResult res ∈ tr).
Proof.
  unfold Execute. destruct (prepareAgain r).
  - destruct (prepareAgainPath env r st usedTables)
      as [[[r1 st1] [e|]] tr1] eqn:Hpath.
    + intros [= <- <- <- <-].
      apply prepareAgainPath_spec in Hpath as (_ & _ & _ & Hsteps & _).
      split; [|done]. intros res Hin. by apply Hsteps in Hin.
    + destruct (compileAndRun env r1 st1) as [[st2 err2] tr2] eqn:Hrun.
      intros [= <- <- <- <-].
      apply prepareAgainPath_spec in Hpath as (-> & _ & _ & Hsteps & _).
      apply compileAndRun_result in Hrun as [Hres Hsync].
      rewrite (proj1 (Prepare_keeps_session r usedTables)) in Hres, Hsync.
      split.
      * intros res [Hin|Hin]%elem_of_app; [by apply Hsteps in Hin|].
        destruct (Hres res Hin) as (? & ? & Hlast & ?).
        split_and!; [done..| |done].
        apply last_Some in Hlast as [l' ->].
        by rewrite app_assoc, last_snoc.
      * intros Herr Hmode. destruct (Hsync Herr Hmode) as [res Hin].
        exists res. apply elem_of_app. by right.
  - destruct (compileAndRun env r st) as [[st2 err2] tr2] eqn:Hrun.
    intros [= <- <- <- <-]. by apply compileAndRun_result in Hrun.
Qed.

(** X24.  Whenever [Execute] runs the execution plan, it runs the
    executor built for the plan it compiled from the runner's request,
    in the mode of the session, while every request the executor holds
    says [Async] false; the session then holds the warning of that plan
    and the executor's output names.  An issuer has persisted the
    session just before, successfully and with those output names and
    that warning already in it; a party that is not the issuer persists
    nothing. *)
Theorem Execute_persists_before_running (r r' : QueryRunner)
    (st st' : SessionState S) (usedTables : list core.DbTable)
    (err : option exec_error) (tr : list (step S)) :
  Execute env r st usedTables = (r', st', err, tr) →
  ∀ ex mode,
    DoRunExecutionPlan ex mode ∈ tr →
    mode = application.AsyncMode (session r)
    ∧ (∀ party req,
         executor.PlanReqs ex !! party = Some req → pb.Async req = false)
    ∧ (∃ plan,
         Compile env (buildCompileQueryRequest r') = Got plan
         ∧ CreateExecutor r' (Plan plan) = Ok ex
         ∧ Warning st' = GetWarning plan)
    ∧ OutputNames st' = executor.OutputNames ex
    ∧ if application.IsIssuer (session r)
      then PersistSessionInfo env st' = None
           ∧ ∃ tr1 tr2,
               tr = tr1 ++ DoPersist st'
                        :: DoRunExecutionPlan ex mode :: tr2
      else ∀ st0, DoPersist st0 ∉ tr.
Proof.
  unfold Execute. destruct (prepareAgain r).
  - destruct (prepareAgainPath env r st usedTables)
      as [[[r1 st1] [e|]] tr1] eqn:Hpath.
    + intros [= <- <- <- <-] ex mode Hin.
      apply prepareAgainPath_spec in Hpath as (_ & _ & _ & Hsteps & _).
      by apply Hsteps in Hin.
    + destruct (compileAndRun env r1 st1) as [[st2 err2] tr2] eqn:Hrun.
      intros [= <- <- <- <-] ex mode Hin.
      apply prepareAgainPath_spec in Hpath as (Hr1 & _ & _ & Hsteps & _).
      apply compileAndRun_run in Hrun as (_ & _ & _ & Hrun).
      assert (session r1 = session r) as Hs
        by (rewrite Hr1; apply Prepare_keeps_session).
      rewrite Hs in Hrun.
      apply elem_of_app in Hin as [Hin|Hin]; [by apply Hsteps in Hin|].
      destruct (Hrun ex mode Hin) as (? & ? & ? & ? & Hpersist).
      split_and!; [done..|].
      destruct (application.IsIssuer (session r)).
      * destruct Hpersist as (? & tr3 & tr4 & ->). split; [done|].
        exists (tr1 ++ tr3), tr4. by rewrite <-app_assoc.
      * intros st0 [Hin'|Hin']%elem_of_app; [by apply Hsteps in Hin'|].
        by apply Hpersist in Hin'.
  - destruct (compileAndRun env r st) as [[st2 err2] tr2] eqn:Hrun.
    intros [= <- <- <- <-].
    by apply compileAndRun_run in Hrun as (_ & _ & _ & Hrun).
Qed.

(** X25.  With the PrepareAgain flag set, [Execute] compiles only after
    [Prepare] succeeded, [CreateChecksum] succeeded on the runner so
    prepared, the local checksums were saved, and every data party other
    than this party compared EQUAL on the store they were saved to; the
    request it compiles is the one built from the prepared runner.  The
    checksums saved are exactly the entries of the map [CreateChecksum]
    returned, each of them once, in the order in which the map is
    ranged over. *)
Theorem Execute_prepares_again (r r' : QueryRunner)
    (st st' : SessionState S) (usedTables : list core.DbTable)
    (err : option exec_error) (tr : list (step S)) :
  prepareAgain r = true →
  Execute env r st usedTables = (r', st', err, tr) →
  r' = (Prepare r usedTables).1
  ∧ (∀ req,
       DoCompile req ∈ tr →
       (Prepare r usedTables).2.2 = None
       ∧ is_ok (CreateChecksum r') = true
       ∧ all_equal env r' st'
       ∧ req = buildCompileQueryRequest r')
  ∧ (∀ m,
       (Prepare r usedTables).2.2 = None →
       CreateChecksum r' = Ok m →
       (∀ code checksum,
          (code, checksum) ∈ saved_local tr ↔ m !! code = Some checksum)
       ∧ NoDup (saved_local tr).*1
       ∧ saved_local tr = RangeOrder env m
       ∧ Checksums st'
         = fold_left (λ c kv, SaveLocalChecksum env c kv.1 kv.2)
             (saved_local tr) (Checksums st)).
Proof.
  intros Hflag. unfold Execute. rewrite Hflag.
  assert (∀ m (l : list (string * application.Checksum)),
            l = RangeOrder env m →
            (∀ code checksum, (code, checksum) ∈ l ↔ m !! code = Some checksum)
            ∧ NoDup l.*1) as Honce.
  { intros m l ->. split.
    - intros code checksum.
      by rewrite (RangeOrder_each_once env m), elem_of_map_to_list.
    - rewrite (RangeOrder_each_once env m). apply NoDup_fst_map_to_list. }
  destruct (prepareAgainPath env r st usedTables)
    as [[[r1 st1] [e|]] tr1] eqn:Hpath.
  - intros [= <- <- <- <-].
    apply prepareAgainPath_spec in Hpath
      as (-> & _ & _ & Hsteps & Hsaved & _).
    split_and!; [done| |].
    + intros req Hin. by apply Hsteps in Hin.
    + intros m Hp Hm. destruct (Hsaved m Hp Hm) as [Hl Hc].
      rewrite Hl. destruct (Honce m _ eq_refl). by split_and!.
  - destruct (compileAndRun env r1 st1) as [[st2 err2] tr2] eqn:Hrun.
    intros [= <- <- <- <-].
    apply prepareAgainPath_spec in Hpath
      as (-> & _ & _ & Hsteps & Hsaved & Hok).
    destruct (Hok eq_refl) as (Hprep & Hsum & Hall).
    apply compileAndRun_run in Hrun
      as (Hsame & (rest & -> & Hrest) & Hrunsteps & _).
    split_and!; [done| |].
    + intros req [Hin|Hin]%elem_of_app; [by apply Hsteps in Hin|].
      split_and!; [done..| |].
      * unfold all_equal in *. by rewrite Hsame.
      * apply elem_of_cons in Hin as [[= ->]|Hin]; [done|].
        by apply Hrest in Hin.
    + intros m Hp Hm. destruct (Hsaved m Hp Hm) as [Hl Hc].
      assert (saved_local
                (tr1 ++ DoCompile
                          (buildCompileQueryRequest (Prepare r usedTables).1)
                        :: rest)
              = RangeOrder env m) as Hl'.
      { unfold saved_local in *. rewrite omap_app, Hl.
        pose proof (saved_local_none
                      (DoCompile
                         (buildCompileQueryRequest (Prepare r usedTables).1)
                       :: rest)) as Hnone.
        unfold saved_local in Hnone. rewrite Hnone, app_nil_r; [done|].
        intros s Hin code ck ->. by apply Hrunsteps in Hin. }
      rewrite Hsame, Hl'. destruct (Honce m _ eq_refl). by split_and!.
Qed.

(** X26.  Without the PrepareAgain flag, [Execute] neither prepares nor
    looks at checksums: the runner and the checksum store are left as
    they were, and the first thing done is to compile the request built
    from the runner as it stands; nothing but persisting, running and
    storing the result follows. *)
Theorem Execute_without_flag (r r' : QueryRunner)
    (st st' : SessionState S) (usedTables : list core.DbTable)
    (err : option exec_error) (tr : list (step S)) :
  prepareAgain r = false →
  Execute env r st usedTables = (r', st', err, tr) →
  r' = r
  ∧ Checksums st' = Checksums st
  ∧ (∃ rest, tr = DoCompile (buildCompileQueryRequest r) :: rest
             ∧ ∀ req, DoCompile req ∉ rest)
  ∧ (∀ s, s ∈ tr → is_run_step s = true).
Proof.
  intros Hflag. unfold Execute. rewrite Hflag.
  destruct (compileAndRun env r st) as [[st2 err2] tr2] eqn:Hrun.
  intros [= <- <- <- <-].
  apply compileAndRun_run in Hrun as (? & ? & ? & _). by split_and!.
Qed.

End coordinator_more.


Section gc_more.

Lemma StorageGc_loop_trace app owner n k tr :
  (gc.StorageGc_loop app owner n k tr).2
  = tr ++ concat ((λ j, (gc.StorageGc_body app owner j).2) <$> seq k n).
Proof.
  revert k tr. induction n as [|n IH]; intros k tr; simpl.
  - by rewrite app_nil_r.
  - pose proof (StorageGc_body_next app owner k) as Hnext.
    destruct (gc.StorageGc_body app owner k) as [c evs].
    simpl in Hnext. subst c. rewrite IH. simpl. by rewrite <-app_assoc.
Qed.

Lemma StorageGc_bodies_hold app owner k n :
  List.filter is_hold
    (concat ((λ j, (gc.StorageGc_body app owner j).2) <$> seq k n))
  = replicate n
      (gc.CallHoldGcLock owner
         (application.SessionCheckInterval (application.Conf app))).
Proof.
  revert k. induction n as [|n IH]; intros k; [done|].
  change (seq k (Datatypes.S n)) with (k :: seq (Datatypes.S k) n).
  rewrite fmap_cons. cbn [concat replicate].
  rewrite List.filter_app, IH.
  unfold gc.StorageGc_body.
  destruct (application.HoldGcLock _ _ _ _); [done|].
  by destruct (application.ClearExpiredResults _ _ _).
Qed.

Lemma StorageGc_bodies_clear app owner k n :
  List.filter is_clear
    (concat ((λ j, (gc.StorageGc_body app owner j).2) <$> seq k n))
  = replicate
      (length
         (List.filter
            (λ j, bool_decide
                    (application.HoldGcLock (application.MetaMgr app) j
                       owner
                       (application.SessionCheckInterval
                          (application.Conf app))
                     = None))
            (seq k n)))
      (gc.CallClearExpiredResults
         (application.SessionExpireTime (application.Conf app))).
Proof.
  revert k. induction n as [|n IH]; intros k; [done|].
  change (seq k (Datatypes.S n)) with (k :: seq (Datatypes.S k) n).
  rewrite fmap_cons. cbn [concat List.filter].
  rewrite List.filter_app, IH.
  unfold gc.StorageGc_body.
  destruct (application.HoldGcLock _ _ _ _) eqn:Hhold.
  - by rewrite bool_decide_false.
  - rewrite bool_decide_true by done.
    by destruct (application.ClearExpiredResults _ _ _).
Qed.

(** X27.  Once [InitGcLockIfNecessary] has succeeded, [StorageGc] asks
    for the lease once at every tick, always as the same owner, the
    value of HOSTNAME or else the party code, and for the time of one
    check interval; it clears the expired results once at every tick at
    which it got the lease, and at no other. *)
Theorem StorageGc_clears_under_lease (app : application.App)
    (HOSTNAME : string) (ticks : nat) :
  application.InitGcLockIfNecessary (application.MetaMgr app) = None →
  let conf := application.Conf app in
  let owner :=
    if bool_decide (HOSTNAME ≠ "") then HOSTNAME
    else application.PartyCode conf in
  let tr := (gc.StorageGc app HOSTNAME ticks).2 in
  List.filter is_hold tr
  = replicate ticks
      (gc.CallHoldGcLock owner (application.SessionCheckInterval conf))
  ∧ List.filter is_clear tr
    = replicate (length (lease_held app owner ticks))
        (gc.CallClearExpiredResults (application.SessionExpireTime conf)).
Proof.
  intros Hinit. cbv zeta. unfold gc.StorageGc, lease_held. rewrite Hinit.
  destruct (bool_decide (HOSTNAME ≠ "")); rewrite StorageGc_loop_trace;
    rewrite !List.filter_app, StorageGc_bodies_hold,
      StorageGc_bodies_clear; done.
Qed.

Lemma SessionGc_loop_trace app others n k sessions tr :
  let out := gc.SessionGc_loop app others n k sessions tr in
  ∃ evs,
    out.2 = tr ++ evs
    ∧ length (List.filter is_check evs) = n
    ∧ ∀ id,
        gc.CallDeleteSession id ∈ evs →
        ∃ j ids canceledIds,
          (k ≤ j < k + n)%nat
          ∧ application.CheckIdCanceled (application.MetaMgr app) j ids
            = Got canceledIds
          ∧ gc.CallCheckIdCanceled ids ∈ evs
          ∧ id ∈ canceledIds.
Proof.
  cbv zeta. revert k sessions tr.
  induction n as [|n IH]; intros k sessions tr; simpl.
  - exists []. rewrite app_nil_r. split_and!; [done..|].
    by intros id ?%elem_of_nil.
  - pose proof (SessionGc_body_next app k (others k sessions)) as Hnext.
    destruct (gc.SessionGc_body app k (others k sessions))
      as [[c s'] evs] eqn:Hbody.
    simpl in Hnext. subst c.
    destruct (IH (Datatypes.S k) s' (tr ++ evs))
      as (evs' & -> & Hlen & Hdel).
    exists (evs ++ evs'). rewrite <-app_assoc. split; [done|].
    unfold gc.SessionGc_body in Hbody.
    destruct (application.CheckIdCanceled _ _ _) as [canceled|msg]
      eqn:Hcheck; injection Hbody as <- <-.
    + split.
      * rewrite List.filter_app, length_app, Hlen. cbn [List.filter is_check].
        assert (List.filter is_check (gc.CallDeleteSession <$> canceled)
                = []) as ->; [|done].
        clear. by induction canceled.
      * intros id [[Hin|Hin]%elem_of_cons|Hin]%elem_of_app.
        -- done.
        -- apply list_elem_of_fmap in Hin as (id' & [= ->] & Hid).
           eexists k, _, canceled. split_and!; [lia|lia|done| |done].
           apply elem_of_app. left. by left.
        -- destruct (Hdel id Hin) as (j & ids & cs & Hj & ? & ? & ?).
           exists j, ids, cs. split_and!; [lia|lia|done| |done].
           apply elem_of_app. by right.
    + split.
      * rewrite List.filter_app, length_app, Hlen. done.
      * intros id [Hin|Hin]%elem_of_app.
        -- apply elem_of_cons in Hin as [|Hin]; [done|].
           by apply list_elem_of_singleton in Hin.
        -- destruct (Hdel id Hin) as (j & ids & cs & Hj & ? & ? & ?).
           exists j, ids, cs. split_and!; [lia|lia|done| |done].
           apply elem_of_app. by right.
Qed.

(** X28.  [SessionGc] asks the metadata layer for canceled ids once at
    every tick, whatever happens to the registry in between; and every
    session it deletes was reported as canceled, at one of the ticks, in
    answer to a question it asked. *)
Theorem SessionGc_deletes_only_reported (app : application.App)
    (others : nat → gmap string application.Session →
              gmap string application.Session)
    (sessions : gmap string application.Session) (ticks : nat) :
  let tr := (gc.SessionGc app others sessions ticks).2 in
  length (List.filter is_check tr) = ticks
  ∧ ∀ id,
      gc.CallDeleteSession id ∈ tr →
      ∃ j ids canceledIds,
        (j < ticks)%nat
        ∧ application.CheckIdCanceled (application.MetaMgr app) j ids
          = Got canceledIds
        ∧ gc.CallCheckIdCanceled ids ∈ tr
        ∧ id ∈ canceledIds.
Proof.
  cbv zeta. unfold gc.SessionGc.
  destruct (SessionGc_loop_trace app others ticks 0 sessions [])
    as (evs & -> & Hlen & Hdel).
  simpl. split; [done|].
  intros id Hin. destruct (Hdel id Hin) as (j & ids & cs & Hj & ? & ? & ?).
  exists j, ids, cs. split_and!; [lia|done..].
Qed.

End gc_more.

(** ** The further properties on concrete inputs *)

Lemma quad_eta {A B C D} (x : A * B * C * D) :
  x = (x.1.1.1, x.1.1.2, x.1.2, x.2).
Proof. by destruct x as [[[? ?] ?] ?]. Defined.

Lemma ExchangeJobInfo_first_other_answer_witness :
  @ExchangeJobInfo Sample.codes
    (Sample.alice 3 [] Scenario.stub_inconsistent) "bob"
  = (Ok (Sample.response (Sample.status 340)),
     retried "broker.bob" Scenario.request 200 1).
Proof.
  refine (@ExchangeJobInfo_first_other_answer Sample.codes
            (Sample.alice 3 [] Scenario.stub_inconsistent) "bob"
            "broker.bob" Scenario.request 1
            (Got (Sample.response (Sample.status 340))) _ _ _ _ _ _).
  - reflexivity.
  - reflexivity.
  - reflexivity.
  - intros k Hk. exists (Sample.response (Sample.status 320)).
    destruct k as [|k]; [split; reflexivity|lia].
  - reflexivity.
  - intros rsp [= <-]. discriminate.
Defined.

Lemma ExchangeJobInfo_budget_used_up_witness :
  let r := Sample.alice 2 [] Scenario.stub_never in
  ∃ st,
    (@ExchangeJobInfo Sample.codes r "bob").1
    = Err (ErrExchangeFailed "bob" st)
    ∧ pb.StatusCode st = 320
    ∧ attempts (@ExchangeJobInfo Sample.codes r "bob").2 = 2%nat
    ∧ sleeps (@ExchangeJobInfo Sample.codes r "bob").2 = 1%nat.
Proof.
  intros r.
  refine (@ExchangeJobInfo_budget_used_up Sample.codes r "bob"
            "broker.bob" Scenario.request _ _ _ _ _ _).
  - discriminate.
  - discriminate.
  - discriminate.
  - reflexivity.
  - reflexivity.
  - intros k Hk. exists (Sample.response (Sample.status 320)).
    split; reflexivity.
Defined.

Lemma ExchangeJobInfo_no_budget_witness :
  @ExchangeJobInfo Sample.codes
    (Sample.alice 0 [] Sample.stub_late) "bob"
  = (Err (ErrResponse "bob" (Sample.response None)), []).
Proof.
  refine (@ExchangeJobInfo_no_budget Sample.codes
            (Sample.alice 0 [] Sample.stub_late) "bob" "broker.bob"
            Scenario.request _ _ _).
  - discriminate.
  - reflexivity.
  - reflexivity.
Defined.

Lemma ExchangeJobInfo_outcomes_witness :
  let r := Sample.alice 3 [] Sample.stub_late in
  ∃ k url req,
    exchangeRequest r "bob" = Ok req
    ∧ application.ExchangeJobInfo
        (application.InterStub (application.ExecuteInfo (session r)))
        k url req
      = Got (Sample.response (Sample.status 0)).
Proof.
  intros r.
  exact (proj2 (@ExchangeJobInfo_outcomes Sample.codes r "bob"
                  ltac:(discriminate))).
Defined.

Lemma ExchangeJobInfo_requests_witness :
  let r := Sample.alice 3 [] Sample.stub_late in
  EvExchange "broker.bob" Scenario.request
    ∈ (@ExchangeJobInfo Sample.codes r "bob").2
  ∧ application.GetBrokerUrlByParty
      (application.PartyMgr (application.App_ (session r))) "bob"
    = Got "broker.bob"
  ∧ pb.ClientId Scenario.request = Some {| pb.Code := "alice" |}.
Proof.
  intros r.
  assert (EvExchange "broker.bob" Scenario.request
            ∈ (@ExchangeJobInfo Sample.codes r "bob").2) as Hin.
  { vm_compute. constructor. }
  split; [exact Hin|].
  destruct (@ExchangeJobInfo_requests Sample.codes r "bob" "broker.bob"
              Scenario.request Hin) as (Hurl & _ & _ & Hclient & _).
  split; [exact Hurl|exact Hclient].
Defined.

Lemma Prepare_ignores_cache_witness :
  @Prepare Sample.lib Sample.ordered1 (Sample.used ["ta"])
  = @Prepare Sample.lib (NewQueryRunner (session Sample.ordered1))
      (Sample.used ["ta"]).
Proof.
  apply (@Prepare_ignores_cache Sample.lib Sample.ordered1
           (NewQueryRunner (session Sample.ordered1))); reflexivity.
Defined.

Lemma Prepare_engines_info_witness :
  let r := Scenario.learner in
  let used := Sample.used ["tb"; "ta"] in
  let out := @Prepare Sample.lib r used in
  out.2 = (["alice"; "bob"], ["alice"; "bob"], None)
  ∧ (resolution r 0 used).1 = ([Sample.ta], ["tb"])
  ∧ (resolution r 1 used).1 = ([Sample.ta; Sample.tb], [])
  ∧ tables out.1 = [Sample.ta; Sample.tb]
  ∧ ∃ engines,
      info out.1 = Some engines
      ∧ translator.GetTablesByParty engines "bob"
        = [core.NewDbTable "demo" "tb"]
      ∧ translator.GetTablesByParty engines "carol" = [].
Proof.
  intros r used out.
  assert (out = (out.1, (["alice"; "bob"], ["alice"; "bob"], None)))
    as Hout by reflexivity.
  split_and!; [reflexivity..| |].
  - exact (proj1 (@Prepare_engines_info Sample.lib r out.1 used _ _ Hout)).
  - destruct (proj2 (@Prepare_engines_info Sample.lib r out.1 used _ _
                       Hout))
      as (engines & Hinfo & Htables & _).
    exists engines. split; [exact Hinfo|].
    rewrite !Htables. split; reflexivity.
Defined.

Lemma Prepare_ccls_witness :
  let r := Sample.carol [Sample.ta; Sample.tb; Sample.tc] in
  let out := @Prepare Sample.lib r (Sample.used ["tc"; "ta"; "tb"]) in
  out.2 = (["alice"; "bob"], ["alice"; "bob"; "carol"], None)
  ∧ ∃ privs,
      length privs = 2%nat
      ∧ ccls out.1 = @columnControl Sample.lib <$> privs.
Proof.
  intros r out.
  assert (out = (out.1, (["alice"; "bob"], ["alice"; "bob"; "carol"], None)))
    as Hout by reflexivity.
  split; [reflexivity|].
  destruct (@Prepare_ccls Sample.lib r out.1
              (Sample.used ["tc"; "ta"; "tb"]) _ _ Hout)
    as (n & privs & Hn & Hlist & _ & Hccls).
  exists privs. split; [|exact Hccls].
  injection Hlist as <-. reflexivity.
Defined.

Lemma Prepare_info_schema_iff_success_witness :
  let r := Sample.carol [Sample.ta; Sample.tb; Sample.tc] in
  let out := @Prepare Sample.lib r (Sample.used ["tc"; "ta"; "tb"]) in
  out.2 = (["alice"; "bob"], ["alice"; "bob"; "carol"], None)
  ∧ is_Some (is_ out.1) ∧ is_Some (info out.1).
Proof.
  intros r out.
  assert (out = (out.1, (["alice"; "bob"], ["alice"; "bob"; "carol"], None)))
    as Hout by reflexivity.
  split; [reflexivity|].
  destruct (@Prepare_info_schema_iff_success Sample.lib r out.1
              (Sample.used ["tc"; "ta"; "tb"]) _ _ _ Hout)
    as [Hschema Hinfo].
  split; [apply Hschema; reflexivity|apply Hinfo; reflexivity].
Defined.

Lemma CreateInfoSchema_positions_witness :
  let r := Scenario.alice in
  ∃ sch infos ti ci,
    @CreateInfoSchema Sample.lib r [Sample.ta; Sample.tb] = Ok sch
    ∧ sch = @MockInfoSchema Sample.lib {[ "demo" := infos ]}
    ∧ infos !! 1%nat = Some ti
    ∧ model.TblID ti = 1
    ∧ model.TblName ti = model.NewCIStr "tb"
    ∧ model.Columns ti !! 1%nat = Some ci
    ∧ model.Offset ci = 1
    ∧ model.Name ci = model.NewCIStr "debt".
Proof.
  intros r.
  destruct (@CreateInfoSchema_positions Sample.lib r [Sample.ta; Sample.tb]
              _ eq_refl) as (infos & Hsch & _ & Htbls).
  destruct (Htbls 1%nat Sample.tb eq_refl)
    as (ti & Hti & Hid & _ & Hname & _ & Hcols).
  destruct (Hcols 1%nat (Sample.column "debt" "float") eq_refl)
    as (ci & Hci & _ & Hoff & Hcname & _).
  eexists _, infos, ti, ci. split; [reflexivity|].
  split_and!; assumption.
Defined.

Lemma CreateChecksum_entries_witness :
  ∃ m engines h c,
    @CreateChecksum Sample.lib Sample.ordered1 = Ok m
    ∧ m !! "bob" = None
    ∧ info Sample.ordered1 = Some engines
    ∧ translator.GetTablesByParty engines "alice"
      = [core.NewDbTable "demo" "ta"]
    ∧ m !! "alice" = Some {| application.TableSchema := Sha256.sum h;
                             application.CCL := Sha256.sum c |}.
Proof.
  destruct (@CreateChecksum Sample.lib Sample.ordered1) as [m|e] eqn:Hm.
  2: { assert (is_ok (@CreateChecksum Sample.lib Sample.ordered1) = true)
         as Hok by (vm_compute; reflexivity).
       rewrite Hm in Hok. discriminate Hok. }
  destruct (@CreateChecksum_entries Sample.lib Sample.ordered1 m Hm "bob")
    as [Hbob _].
  destruct (@CreateChecksum_entries Sample.lib Sample.ordered1 m Hm "alice")
    as [_ Halice].
  destruct Halice as (engines & h & c & Hinfo & _ & Hentry).
  { apply list_elem_of_singleton. reflexivity. }
  exists m, engines, h, c. split_and!.
  - reflexivity.
  - apply Hbob. intros Hin. apply list_elem_of_singleton in Hin.
    discriminate Hin.
  - exact Hinfo.
  - injection Hinfo as <-. reflexivity.
  - exact Hentry.
Defined.

Lemma CreateChecksum_foreign_ccls_witness :
  let r := set_ccls (ccls Sample.ordered1 ++ [Scenario.foreign])
             Sample.ordered1 in
  ccls r ≠ ccls Sample.ordered1
  ∧ @CreateChecksum Sample.lib Sample.ordered1
    = @CreateChecksum Sample.lib r.
Proof.
  intros r. split; [discriminate|].
  apply (@CreateChecksum_foreign_ccls Sample.lib Sample.ordered1 r);
    [reflexivity..|].
  intros engines p t [= <-] Hp Ht.
  apply list_elem_of_singleton in Hp as ->.
  apply list_elem_of_singleton in Ht as ->.
  reflexivity.
Defined.

Lemma CreateExecutor_session_params_witness :
  ∃ ex req bob,
    @CreateExecutor Sample.lib Scenario.alice Sample.plan = Ok ex
    ∧ executor.PlanReqs ex !! "alice" = Some req
    ∧ pb.Graph req = "graph-a"
    ∧ pb.SessionId (pb.SessionParams req) = "job1"
    ∧ pb.SParties (pb.SessionParams req) !! 1%nat = Some bob
    ∧ pb.Rank bob = 1
    ∧ pb.PCode bob = "bob"
    ∧ pb.Host bob = "engine.bob"
    ∧ pb.PublicKey bob = "key.bob".
Proof.
  destruct (@CreateExecutor_session_params Sample.lib Scenario.alice
              Sample.plan _ eq_refl)
    as (req & Hreq & Hgraph & _ & Hid & _ & _ & Hparties).
  destruct (Hparties 1%nat {| pb.Code := "bob" |} eq_refl)
    as (bob & Hbob & _ & Hrank & Hcode & _ & Hhost & Hkey).
  specialize (Hrank eq_refl).
  eexists _, req, bob. split; [reflexivity|].
  split_and!; try assumption.
  - apply (inj Some). rewrite <-Hgraph. reflexivity.
  - by injection Hhost as <-.
  - by injection Hkey as <-.
Defined.

Lemma checkChecksum_first_failure_witness :
  let env := Scenario.env ["bob"] (Got Scenario.compiled) None
               (Got (Some Scenario.engineOk)) in
  checkChecksum env Scenario.alice Scenario.st0
  = (Some (ExChecksumNotEqual "bob"), [DoCompare "bob"])
  ∧ ∃ ps1 p ps2,
      ["alice"; "bob"] = ps1 ++ p :: ps2
      ∧ p ≠ "alice"
      ∧ [DoCompare "bob"]
        = DoCompare (S := Scenario.store)
            <$> (List.filter (other_than "alice") ps1 ++ [p]).
Proof.
  intros env. split; [reflexivity|].
  destruct (checkChecksum_first_failure env Scenario.alice Scenario.st0
              _ _ eq_refl) as (ps1 & p & ps2 & Hps & Hp & _ & Htr & _).
  exists ps1, p, ps2. split_and!; assumption.
Defined.

Lemma GetChecksumFromOtherParties_failure_witness :
  let r := Sample.alice 3 [] Scenario.stub_down in
  let out :=
    @GetChecksumFromOtherParties Sample.codes _ Scenario.fine r
      Scenario.st0 "carol" in
  out.1.2 = Some (ExRunner (ErrExchangeStub (ErrExternal "connection refused")))
  ∧ ∃ p, last (exchanged out.2) = Some p ∧ p ∈ others r "carol".
Proof.
  intros r out.
  assert (out = (out.1.1,
                 Some (ExRunner
                         (ErrExchangeStub
                            (ErrExternal "connection refused"))),
                 out.2)) as Hout by reflexivity.
  split; [reflexivity|].
  destruct (@GetChecksumFromOtherParties_failure Sample.codes _
              Scenario.fine r Scenario.st0 _ "carol" _ _ Hout)
    as (p & Hlast & Hin & _).
  exists p. split; assumption.
Defined.

Lemma Execute_result_witness :
  let r := Scenario.sync Scenario.alice in
  let out := @Execute Sample.lib _ Scenario.fine r Scenario.st0 [] in
  out.1.2 = None
  ∧ application.AsyncMode (session r) = false
  ∧ ∃ res, DoSetResult res ∈ out.2.
Proof.
  intros r out. split; [reflexivity|]. split; [reflexivity|].
  exact (proj2 (@Execute_result Sample.lib _ Scenario.fine r _
                  Scenario.st0 _ [] _ _ (quad_eta out))
           eq_refl eq_refl).
Defined.

Lemma Execute_persists_before_running_witness :
  let r := Scenario.sync Scenario.alice in
  let out := @Execute Sample.lib _ Scenario.fine r Scenario.st0 [] in
  application.IsIssuer (session r) = true
  ∧ ∃ ex tr1 tr2,
      out.2 = tr1 ++ DoPersist out.1.1.2
                  :: DoRunExecutionPlan ex false :: tr2
      ∧ OutputNames out.1.1.2 = ["id"; "total"]
      ∧ Warning out.1.1.2 = Some false
      ∧ executor.OutputNames ex = ["id"; "total"].
Proof.
  intros r out. split; [reflexivity|].
  destruct (@CreateExecutor Sample.lib r Sample.plan) as [ex|e] eqn:Hex.
  2: { assert (is_ok (@CreateExecutor Sample.lib r Sample.plan) = true)
         as Hok by reflexivity.
       rewrite Hex in Hok. discriminate Hok. }
  assert (DoRunExecutionPlan ex false ∈ out.2) as Hin.
  { subst out. unfold Execute, compileAndRun.
    change (prepareAgain r) with false. cbv iota.
    cbn [Compile Scenario.fine Scenario.env Plan Scenario.compiled].
    rewrite Hex. vm_compute. do 2 apply list_elem_of_further.
    apply list_elem_of_here. }
  destruct (@Execute_persists_before_running Sample.lib _ Scenario.fine
              r _ Scenario.st0 _ [] _ _ (quad_eta out) ex false Hin)
    as (_ & _ & (plan & Hplan & _ & Hwarn) & Hnames & Hpersist).
  change (application.IsIssuer (session r)) with true in Hpersist.
  destruct Hpersist as (_ & tr1 & tr2 & Htr).
  exists ex, tr1, tr2. split; [exact Htr|].
  split; [reflexivity|]. split; [|rewrite <-Hnames; reflexivity].
  rewrite Hwarn. injection Hplan as <-. reflexivity.
Defined.

Lemma Execute_prepares_again_witness :
  let r := SetPrepareAgain (Scenario.sync Scenario.alice) in
  let used := Sample.used ["ta"; "tb"] in
  let out := @Execute Sample.lib _ Scenario.fine r Scenario.st0 used in
  prepareAgain r = true
  ∧ out.1.1.1 = (@Prepare Sample.lib r used).1
  ∧ tables out.1.1.1 = [Sample.ta; Sample.tb]
  ∧ (@Prepare Sample.lib r used).2.2 = None
  ∧ all_equal Scenario.fine out.1.1.1 out.1.1.2
  ∧ ∃ m,
      @CreateChecksum Sample.lib out.1.1.1 = Ok m
      ∧ (∀ code checksum,
           (code, checksum) ∈ saved_local out.2
           ↔ m !! code = Some checksum)
      ∧ (saved_local out.2).*1 = ["alice"; "bob"].
Proof.
  intros r used out.
  destruct (@Execute_prepares_again Sample.lib _ Scenario.fine r _
              Scenario.st0 _ used _ _ eq_refl (quad_eta out))
    as (Hr & Hcompile & Hsaved).
  assert (DoCompile (buildCompileQueryRequest out.1.1.1) ∈ out.2) as Hin.
  { rewrite Hr. vm_compute. do 3 apply list_elem_of_further.
    apply list_elem_of_here. }
  destruct (Hcompile _ Hin) as (Hprep & Hsum & Hall & _).
  split_and!; [reflexivity|exact Hr| |exact Hprep|exact Hall|].
  { rewrite Hr. reflexivity. }
  destruct (@CreateChecksum Sample.lib out.1.1.1) as [m|e] eqn:Hm;
    [|discriminate Hsum].
  destruct (Hsaved m Hprep eq_refl) as (Hiff & _).
  exists m. split; [reflexivity|]. split; [exact Hiff|].
  vm_compute. reflexivity.
Defined.

Lemma Execute_without_flag_witness :
  let r := Scenario.alice in
  let out := @Execute Sample.lib _ Scenario.fine r Scenario.st0 [] in
  prepareAgain r = false
  ∧ out.1.1.1 = r
  ∧ ∃ rest, out.2 = DoCompile (buildCompileQueryRequest r) :: rest.
Proof.
  intros r out.
  destruct (@Execute_without_flag Sample.lib _ Scenario.fine r _
              Scenario.st0 _ [] _ _ eq_refl (quad_eta out))
    as (Hr & _ & (rest & Htr & _) & _).
  split_and!; [reflexivity|exact Hr|]. by exists rest.
Defined.

Lemma StorageGc_clears_under_lease_witness :
  let app := Sample.app "alice" 3 [] None in
  application.InitGcLockIfNecessary (application.MetaMgr app) = None
  ∧ List.filter is_hold (gc.StorageGc app "" 4).2
    = replicate 4 (gc.CallHoldGcLock "alice" 60)
  ∧ List.filter is_clear (gc.StorageGc app "" 4).2
    = replicate 2 (gc.CallClearExpiredResults 3600).
Proof.
  intros app. split; [reflexivity|].
  exact (StorageGc_clears_under_lease app "" 4 eq_refl).
Defined.
